(** * A shallow embedding of the Hack VM translator

    The translator (package [main], file [main.go]) reads VM command lines
    and prints Hack assembly text.  This development embeds

    - the pieces of Go's library the translator calls ([strconv], [strings],
      [path], [fmt.Sprintf] at the formats that occur),
    - the translator itself, function by function, producing the very text
      the Go code produces, with the package-level variables gathered in a
      record that is threaded through the calls; the command line and the
      file system enter as arguments ([VM.initial], the files handed to
      [VM.loadFolder]) and the written file is [VM.written],
    - the memory access path of the translator's earliest revision, which
      reports the errors the present one lets pass,
    - the consumer of the text: the Hack assembler and the Hack CPU, so that
      statements about executing the emitted assembly can be stated and
      proved. *)

From Stdlib Require Import ZArith List String Ascii Bool Lia.
From Stdlib Require Import Decimal DecimalString DecimalZ.
Import ListNotations.

Open Scope string_scope.
Open Scope Z_scope.

(** ** Results of fallible Go code

    A Go function returning [(T, error)] yields [Ok] or [Error]; an index out
    of range is a run-time panic and is kept apart from ordinary errors. *)

Inductive result (A : Type) : Type :=
| Ok (a : A)
| Error (msg : string)
| Panic.

Arguments Ok {A} a.
Arguments Error {A} msg.
Arguments Panic {A}.

Definition bind {A B : Type} (r : result A) (k : A -> result B) : result B :=
  match r with
  | Ok a => k a
  | Error msg => Error msg
  | Panic => Panic
  end.

Notation "x <- r ;; k" := (bind r (fun x => k))
  (at level 61, r at next level, right associativity).

Definition is_Ok {A : Type} (r : result A) : bool :=
  match r with Ok _ => true | _ => false end.

Definition is_Error {A : Type} (r : result A) : bool :=
  match r with Error _ => true | _ => false end.

(** ** The Go library, as far as the translator uses it *)

Module Go.

(** [int] is 64 bits wide on the platforms the translator is built for. *)
Definition MinInt : Z := - 9223372036854775808.
Definition MaxInt : Z := 9223372036854775807.

Definition wrap_int (z : Z) : Z := (z - MinInt) mod 18446744073709551616 + MinInt.

Definition in_int (z : Z) : bool := (MinInt <=? z) && (z <=? MaxInt).

(** [strconv.Itoa], and [fmt.Sprintf] at [%d]. *)
Definition Itoa (z : Z) : string := NilEmpty.string_of_int (Z.to_int z).

(** [strconv.Atoi]: an optional sign, then one or more decimal digits, and
    the value has to fit an [int]. *)
Definition Atoi (s : string) : option Z :=
  let '(negative, digits) :=
    match s with
    | String "-" r => (true, r)
    | String "+" r => (false, r)
    | _ => (false, s)
    end in
  match digits with
  | EmptyString => None
  | _ =>
    match NilEmpty.uint_of_string digits with
    | Some d =>
      let v := Z.of_uint d in
      let v := if negative then - v else v in
      if in_int v then Some v else None
    | None => None
    end
  end.

Definition nl : string := String (ascii_of_nat 10) EmptyString.

(** [strings.Join]. *)
Fixpoint Join (elems : list string) (sep : string) : string :=
  match elems with
  | [] => EmptyString
  | x :: rest =>
    match rest with
    | [] => x
    | _ => x ++ sep ++ Join rest sep
    end
  end.

(** Texts are sequences of bytes, as Go strings are; a character that is
    not ASCII stands in them in UTF-8. *)
Definition isAscii (c : ascii) : bool := (nat_of_ascii c <? 128)%nat.

Definition byteIn (lo hi : nat) (c : ascii) : bool :=
  let n := nat_of_ascii c in (lo <=? n)%nat && (n <=? hi)%nat.

(** [utf8.RuneStart]: the byte is not a continuation byte (80 to BF). *)
Definition RuneStart (c : ascii) : bool := negb (byteIn 128 191 c).

(** The table [asciiSpace] of package [strings]: tab, line feed, vertical
    tab, form feed, carriage return and the space. *)
Definition asciiSpace (c : ascii) : bool :=
  match c with
  | "009"%char | "010"%char | "011"%char | "012"%char | "013"%char
  | " "%char => true
  | _ => false
  end.

(** [unicode.IsSpace] on the character a text begins with: the number of
    bytes of that character when it is white space, 0 when it is not.  White
    space is the six ASCII characters and U+0085, U+00A0 (C2 85, C2 A0),
    U+1680 (E1 9A 80), U+2000 to U+200A, U+2028, U+2029, U+202F (E2 80 80 to
    E2 80 8A, E2 80 A8, E2 80 A9, E2 80 AF), U+205F (E2 81 9F) and U+3000
    (E3 80 80).  The first byte of each of them is never a continuation byte
    of UTF-8, so wherever these bytes stand in a text, valid UTF-8 or not,
    the decoder of Go begins a character there. *)
Definition spaceWidth (s : string) : nat :=
  (match s with
  | EmptyString => 0
  | String c r =>
    if asciiSpace c then 1
    else if Ascii.eqb c "194" then
      match r with
      | String d _ => if Ascii.eqb d "133" || Ascii.eqb d "160" then 2 else 0
      | EmptyString => 0
      end
    else if Ascii.eqb c "225" then
      match r with
      | String d (String e _) =>
        if Ascii.eqb d "154" && Ascii.eqb e "128" then 3 else 0
      | _ => 0
      end
    else if Ascii.eqb c "226" then
      match r with
      | String d (String e _) =>
        if Ascii.eqb d "128"
           && (byteIn 128 138 e || Ascii.eqb e "168" || Ascii.eqb e "169"
               || Ascii.eqb e "175")
        then 3
        else if Ascii.eqb d "129" && Ascii.eqb e "159" then 3 else 0
      | _ => 0
      end
    else if Ascii.eqb c "227" then
      match r with
      | String d (String e _) =>
        if Ascii.eqb d "128" && Ascii.eqb e "128" then 3 else 0
      | _ => 0
      end
    else 0
  end)%nat.

Definition isEmpty (s : string) : bool :=
  match s with EmptyString => true | _ => false end.

(** [strings.Fields]: the maximal runs of bytes between white space
    characters.  [cur] is the field that is being read. *)
Fixpoint fieldsFrom (s : string) (cur : string) : list string :=
  match s with
  | EmptyString => if isEmpty cur then [] else [cur]
  | String c r1 =>
    let close := fun rest : list string =>
      if isEmpty cur then rest else cur :: rest in
    match spaceWidth s with
    | 0%nat => fieldsFrom r1 (cur ++ String c EmptyString)
    | 1%nat => close (fieldsFrom r1 EmptyString)
    | 2%nat =>
      match r1 with
      | String _ r2 => close (fieldsFrom r2 EmptyString)
      | EmptyString => close []
      end
    | _ =>
      match r1 with
      | String _ (String _ r3) => close (fieldsFrom r3 EmptyString)
      | _ => close []
      end
    end
  end.

Definition Fields (s : string) : list string := fieldsFrom s EmptyString.

(** The text without the white space characters it begins with. *)
Fixpoint trimLeft (s : string) : string :=
  match s with
  | EmptyString => EmptyString
  | String _ r1 =>
    match spaceWidth s with
    | 0%nat => s
    | 1%nat => trimLeft r1
    | 2%nat => match r1 with String _ r2 => trimLeft r2 | _ => EmptyString end
    | _ => match r1 with
           | String _ (String _ r3) => trimLeft r3
           | _ => EmptyString
           end
    end
  end.

(** The text is made of white space characters only. *)
Fixpoint allSpaces (s : string) : bool :=
  match s with
  | EmptyString => true
  | String _ r1 =>
    match spaceWidth s with
    | 0%nat => false
    | 1%nat => allSpaces r1
    | 2%nat => match r1 with String _ r2 => allSpaces r2 | _ => false end
    | _ => match r1 with
           | String _ (String _ r3) => allSpaces r3
           | _ => false
           end
    end
  end.

(** The text without the white space characters it ends with: it is cut
    where what follows is white space only. *)
Fixpoint trimRight (s : string) : string :=
  match s with
  | EmptyString => EmptyString
  | String c r => if allSpaces s then EmptyString else String c (trimRight r)
  end.

(** [strings.TrimSpace]. *)
Definition TrimSpace (s : string) : string := trimRight (trimLeft s).

(** [strings.HasPrefix]. *)
Definition HasPrefix (s p : string) : bool := String.prefix p s.

(** [strings.Split(s, sep)[0]] for a non-empty separator: the text before the
    first occurrence of [sep], all of [s] when there is none. *)
Fixpoint SplitHead (s sep : string) : string :=
  match s with
  | EmptyString => EmptyString
  | String c r => if String.prefix sep s then EmptyString else String c (SplitHead r sep)
  end.

Definition isSlash (c : ascii) : bool := Ascii.eqb c "/".

Fixpoint stripSlashes (s : string) : string :=
  match s with
  | EmptyString => EmptyString
  | String c r =>
    let r' := stripSlashes r in
    if isSlash c && isEmpty r' then EmptyString else String c r'
  end.

Fixpoint lastElement (s : string) (cur : string) : string :=
  match s with
  | EmptyString => cur
  | String c r =>
    if isSlash c then lastElement r EmptyString
    else lastElement r (cur ++ String c EmptyString)
  end.

(** [path.Base] (and [filepath.Base] where the separator is the slash). *)
Definition Base (p : string) : string :=
  if isEmpty p then "."
  else
    let p := lastElement (stripSlashes p) EmptyString in
    if isEmpty p then "/" else p.

Fixpoint extFrom (s : string) (cur : option string) : string :=
  match s with
  | EmptyString => match cur with Some e => e | None => EmptyString end
  | String c r =>
    if isSlash c then extFrom r None
    else if Ascii.eqb c "." then extFrom r (Some ".")
    else extFrom r (option_map (fun e => e ++ String c EmptyString) cur)
  end.

(** [path.Ext]: the suffix from the last dot of the last path element. *)
Definition Ext (p : string) : string := extFrom p None.

(** A lower-case ASCII letter. *)
Definition isLower (c : ascii) : bool :=
  let n := nat_of_ascii c in (97 <=? n)%nat && (n <=? 122)%nat.

(** [strings.ToUpper] on a text of one byte, as [s[:1]] is: a lower-case
    ASCII letter becomes its capital and any other ASCII byte stays; a byte
    that is not ASCII is no valid UTF-8 by itself, and the result is the
    replacement character U+FFFD (EF BF BD). *)
Definition ToUpper1 (c : ascii) : string :=
  if isAscii c then
    String (if isLower c then ascii_of_nat (nat_of_ascii c - 32) else c)
           EmptyString
  else String "239" (String "191" (String "189" EmptyString)).

(** [strings.TrimSuffix]. *)
Definition HasSuffix (s suffix : string) : bool :=
  let n := String.length s in
  let k := String.length suffix in
  (k <=? n)%nat && String.eqb (substring (n - k) k s) suffix.

Definition TrimSuffix (s suffix : string) : string :=
  if HasSuffix s suffix
  then substring 0 (String.length s - String.length suffix) s
  else s.

(** The elements of a path: the texts between its slashes. *)
Fixpoint elementsFrom (s : string) (cur : string) : list string :=
  match s with
  | EmptyString => [cur]
  | String c r =>
    if isSlash c then cur :: elementsFrom r EmptyString
    else elementsFrom r (cur ++ String c EmptyString)
  end.

(** One element of a path met by [filepath.Clean]; [out] holds the elements
    kept so far, the last one first.  An empty element and [.] are dropped;
    [..] takes the last element away if there is one to take, is dropped at
    the root, and is kept otherwise. *)
Definition cleanElement (rooted : bool) (out : list string) (e : string)
  : list string :=
  if isEmpty e || String.eqb e "." then out
  else if String.eqb e ".." then
    match out with
    | last :: rest =>
      if String.eqb last ".." then e :: out else rest
    | [] => if rooted then [] else [e]
    end
  else e :: out.

(** [filepath.Clean], where the separator is the slash. *)
Definition Clean (p : string) : string :=
  match p with
  | EmptyString => "."
  | String c _ =>
    let rooted := isSlash c in
    let out :=
      List.rev (fold_left (cleanElement rooted) (elementsFrom p EmptyString) []) in
    let s := (if rooted then "/" else EmptyString) ++ Join out "/" in
    if isEmpty s then "." else s
  end.

(** The text of a path up to its last slash, the slash included. *)
Fixpoint upToLastSlash (s : string) : string :=
  match s with
  | EmptyString => EmptyString
  | String c r =>
    let r' := upToLastSlash r in
    if isEmpty r' && negb (isSlash c) then EmptyString else String c r'
  end.

(** [filepath.Dir], where the separator is the slash. *)
Definition Dir (p : string) : string := Clean (upToLastSlash p).

(** Indexing a slice. *)
Definition index {A : Type} (l : list A) (i : nat) : result A :=
  match nth_error l i with
  | Some a => Ok a
  | None => Panic
  end.

End Go.

(** ** The translator *)

Module VM.

Import Go.

Definition locRegister : string := "@R13".
Definition valueRegister : string := "@R14".

Record Stack : Type := mkStack {
  current : string;
  returnCounter : Z
}.

(** The package-level variables of [main.go]. *)
Record globals : Type := mkGlobals {
  shouldBootstrap : bool;
  shouldEndWithLoop : bool;
  shouldSetStackPointer : bool;
  pathToTranslate : string;
  funcStack : Stack;
  currentFile : string;
  eqCount : Z;
  gtCount : Z;
  ltCount : Z
}.

(** The variables as they stand when [main] has read the command line. *)
Definition initial (bootstrap setStackPointer endWithLoop : bool) (passedPath : string)
  : globals :=
  {| shouldBootstrap := bootstrap;
     shouldEndWithLoop := endWithLoop;
     shouldSetStackPointer := setStackPointer;
     pathToTranslate := passedPath;
     funcStack := {| current := "Sys.init"; returnCounter := 0 |};
     currentFile := EmptyString;
     eqCount := 0;
     gtCount := 0;
     ltCount := 0 |}.

Definition set_funcStack (g : globals) (s : Stack) : globals :=
  {| shouldBootstrap := shouldBootstrap g;
     shouldEndWithLoop := shouldEndWithLoop g;
     shouldSetStackPointer := shouldSetStackPointer g;
     pathToTranslate := pathToTranslate g;
     funcStack := s;
     currentFile := currentFile g;
     eqCount := eqCount g;
     gtCount := gtCount g;
     ltCount := ltCount g |}.

Definition set_currentFile (g : globals) (f : string) : globals :=
  {| shouldBootstrap := shouldBootstrap g;
     shouldEndWithLoop := shouldEndWithLoop g;
     shouldSetStackPointer := shouldSetStackPointer g;
     pathToTranslate := pathToTranslate g;
     funcStack := funcStack g;
     currentFile := f;
     eqCount := eqCount g;
     gtCount := gtCount g;
     ltCount := ltCount g |}.

Definition set_counts (g : globals) (e gt' lt' : Z) : globals :=
  {| shouldBootstrap := shouldBootstrap g;
     shouldEndWithLoop := shouldEndWithLoop g;
     shouldSetStackPointer := shouldSetStackPointer g;
     pathToTranslate := pathToTranslate g;
     funcStack := funcStack g;
     currentFile := currentFile g;
     eqCount := e;
     gtCount := gt';
     ltCount := lt' |}.

Definition getFolderName (g : globals) : string := Base (pathToTranslate g).

(** *** The shared routines *)

Definition createReturnRoutine : list string :=
  let returnFunction := Join [
    "(RETURN)";
    "@5";
    "D=A";
    "@LCL";
    "A=M-D";
    "D=M";
    locRegister;
    "M=D";
    "@SP";
    "M=M-1";
    "A=M";
    "D=M";
    "@ARG";
    "A=M";
    "M=D";
    "@ARG";
    "D=M+1";
    "@SP";
    "M=D";
    "@LCL";
    "A=M-1";
    "D=M";
    "@THAT";
    "M=D";
    "@LCL";
    "D=M";
    "@2";
    "D=D-A";
    "A=D";
    "D=M";
    "@THIS";
    "M=D";
    "@LCL";
    "D=M";
    "@3";
    "D=D-A";
    "A=D";
    "D=M";
    "@ARG";
    "M=D";
    "@LCL";
    "D=M";
    "@4";
    "D=D-A";
    "A=D";
    "D=M";
    "@LCL";
    "M=D";
    locRegister;
    "A=M";
    "0;JMP"
  ] nl ++ nl in
  [returnFunction].

Definition createCallRoutine : list string :=
  let callFunction := Join [
    "(CALL)";
    "@SP";
    "A=M";
    "M=D";
    "@SP";
    "M=M+1";
    "@LCL";
    "D=M";
    "@SP";
    "A=M";
    "M=D";
    "@SP";
    "M=M+1";
    "@ARG";
    "D=M";
    "@SP";
    "A=M";
    "M=D";
    "@SP";
    "M=M+1";
    "@THIS";
    "D=M";
    "@SP";
    "A=M";
    "M=D";
    "@SP";
    "M=M+1";
    "@THAT";
    "D=M";
    "@SP";
    "A=M";
    "M=D";
    "@SP";
    "M=M+1";
    "@SP";
    "D=M";
    valueRegister;
    "D=D-M";
    "@5";
    "D=D-A";
    "@ARG";
    "M=D";
    "@SP";
    "D=M";
    "@LCL";
    "M=D";
    locRegister;
    "A=M";
    "0;JMP"
  ] nl ++ nl in
  [callFunction].

Definition createLtRoutine : list string :=
  let ltFunction := Join [
    "(LT)";
    "@R15";
    "M=D";
    "@SP";
    "AM=M-1";
    "D=M";
    "@SP";
    "AM=M-1";
    "D=M-D";
    "M=0";
    "@END_LT";
    "D;JGE";
    "@SP";
    "A=M";
    "M=-1";
    "(END_LT)";
    "@SP";
    "M=M+1";
    "@R15";
    "A=M";
    "0;JMP"
  ] nl ++ nl in
  [ltFunction].

Definition createGtRoutine : list string :=
  let gtFunction := Join [
    "(GT)";
    "@R15";
    "M=D";
    "@SP";
    "AM=M-1";
    "D=M";
    "@SP";
    "AM=M-1";
    "D=M-D";
    "M=0";
    "@END_GT";
    "D;JLE";
    "@SP";
    "A=M";
    "M=-1";
    "(END_GT)";
    "@SP";
    "M=M+1";
    "@R15";
    "A=M";
    "0;JMP"
  ] nl ++ nl in
  [gtFunction].

Definition createEqRoutine : list string :=
  let eqFunction := Join [
    "(EQ)";
    "@R15";
    "M=D";
    "@SP";
    "AM=M-1";
    "D=M";
    "@SP";
    "AM=M-1";
    "D=M-D";
    "M=0";
    "@END_EQ";
    "D;JNE";
    "@SP";
    "A=M";
    "M=-1";
    "(END_EQ)";
    "@SP";
    "M=M+1";
    "@R15";
    "A=M";
    "0;JMP"
  ] nl ++ nl in
  [eqFunction].

Definition prependFunctions (instructions : list string) : list string :=
  let functions := createReturnRoutine in
  let functions := (functions ++ createCallRoutine)%list in
  let functions := (functions ++ createLtRoutine)%list in
  let functions := (functions ++ createGtRoutine)%list in
  let functions := (functions ++ createEqRoutine)%list in
  (functions ++ instructions)%list.

Definition prependStartInstructions (g : globals) (instructions : list string)
  : list string :=
  let setStackPointer := Join ["@256"; "D=A"; "@SP"; "M=D"] nl ++ nl in
  let start := Join ["@START"; "0;JMP"] nl ++ nl in
  if shouldSetStackPointer g
  then ([setStackPointer; start] ++ instructions)%list
  else ([start] ++ instructions)%list.

(** *** Memory access commands *)

Definition handlePush (g : globals) (segment : string) (index : Z) : string :=
  let lines :=
    if String.eqb segment "constant" then
      ["@" ++ Itoa index; "D=A"; "@SP"; "AM=M+1"; "A=A-1"; "M=D"]
    else if String.eqb segment "argument" then
      if index =? 0 then
        ["@ARG"; "A=M"; "D=M"; "@SP"; "AM=M+1"; "A=A-1"; "M=D"]
      else
        ["@" ++ Itoa index; "D=A"; "@ARG"; "A=M"; "D=D+A"; "A=D"; "D=M";
         "@SP"; "AM=M+1"; "A=A-1"; "M=D"]
    else if String.eqb segment "local" then
      if index =? 0 then
        ["@LCL"; "A=M"; "D=M"; "@SP"; "AM=M+1"; "A=A-1"; "M=D"]
      else
        ["@" ++ Itoa index; "D=A"; "@LCL"; "A=M"; "D=D+A"; "A=D"; "D=M";
         "@SP"; "AM=M+1"; "A=A-1"; "M=D"]
    else if String.eqb segment "static" then
      ["@" ++ currentFile g ++ "." ++ Itoa index; "D=M";
       "@SP"; "AM=M+1"; "A=A-1"; "M=D"]
    else if String.eqb segment "this" then
      if index =? 0 then
        ["@THIS"; "A=M"; "D=M"; "@SP"; "AM=M+1"; "A=A-1"; "M=D"]
      else
        ["@" ++ Itoa index; "D=A"; "@THIS"; "A=D+M"; "D=M";
         "@SP"; "AM=M+1"; "A=A-1"; "M=D"]
    else if String.eqb segment "that" then
      if index =? 0 then
        ["@THAT"; "A=M"; "D=M"; "@SP"; "AM=M+1"; "A=A-1"; "M=D"]
      else
        ["@" ++ Itoa index; "D=A"; "@THAT"; "A=D+M"; "D=M";
         "@SP"; "AM=M+1"; "A=A-1"; "M=D"]
    else if String.eqb segment "pointer" then
      if index =? 0 then
        ["@THIS"; "D=M"; "@SP"; "AM=M+1"; "A=A-1"; "M=D"]
      else if index =? 1 then
        ["@THAT"; "D=M"; "@SP"; "AM=M+1"; "A=A-1"; "M=D"]
      else []
    else if String.eqb segment "temp" then
      ["@" ++ Itoa (wrap_int (index + 5)); "D=M"; "@SP"; "AM=M+1"; "A=A-1"; "M=D"]
    else [] in
  Join lines nl ++ nl.

Definition handlePop (g : globals) (segment : string) (index : Z) : string :=
  let lines :=
    if String.eqb segment "argument" then
      if index =? 0 then
        ["@SP"; "AM=M-1"; "D=M"; "@ARG"; "A=M"; "M=D"]
      else
        ["@" ++ Itoa index; "D=A"; "@ARG"; "A=D+M"; "D=A"; locRegister; "M=D";
         "@SP"; "AM=M-1"; "D=M"; locRegister; "A=M"; "M=D"]
    else if String.eqb segment "local" then
      if index =? 0 then
        ["@SP"; "AM=M-1"; "D=M"; "@LCL"; "A=M"; "M=D"]
      else
        ["@" ++ Itoa index; "D=A"; "@LCL"; "A=D+M"; "D=A"; locRegister; "M=D";
         "@SP"; "AM=M-1"; "D=M"; locRegister; "A=M"; "M=D"]
    else if String.eqb segment "static" then
      ["@SP"; "AM=M-1"; "D=M"; "@" ++ currentFile g ++ "." ++ Itoa index; "M=D"]
    else if String.eqb segment "this" then
      if index =? 0 then
        ["@SP"; "AM=M-1"; "D=M"; "@THIS"; "A=M"; "M=D"]
      else
        ["@" ++ Itoa index; "D=A"; "@THIS"; "A=D+M"; "D=A"; locRegister; "M=D";
         "@SP"; "AM=M-1"; "D=M"; locRegister; "A=M"; "M=D"]
    else if String.eqb segment "that" then
      if index =? 0 then
        ["@SP"; "AM=M-1"; "D=M"; "@THAT"; "A=M"; "M=D"]
      else
        ["@" ++ Itoa index; "D=A"; "@THAT"; "A=D+M"; "D=A"; locRegister; "M=D";
         "@SP"; "AM=M-1"; "D=M"; locRegister; "A=M"; "M=D"]
    else if String.eqb segment "pointer" then
      if index =? 0 then
        ["@SP"; "AM=M-1"; "D=M"; "@THIS"; "M=D"]
      else if index =? 1 then
        ["@SP"; "AM=M-1"; "D=M"; "@THAT"; "M=D"]
      else []
    else if String.eqb segment "temp" then
      ["@SP"; "AM=M-1"; "D=M"; "@" ++ Itoa (wrap_int (index + 5)); "M=D"]
    else [] in
  Join lines nl ++ nl.

(** *** Function commands *)

Definition function (g : globals) (name nVars : string) : result (globals * string) :=
  match Atoi nVars with
  | None =>
    Error ("invalid vars for function definition (" ++ name ++ "): " ++ nVars)
  | Some numVars =>
    let g := set_funcStack g {| current := name;
                                returnCounter := returnCounter (funcStack g) |} in
    let lines := ["(" ++ getFolderName g ++ "." ++ name ++ ")"] in
    let initLocalVariable := ["@SP"; "A=M"; "M=0"; "@SP"; "M=M+1"] in
    let lines :=
      (lines ++ List.concat (repeat initLocalVariable (Z.to_nat numVars)))%list in
    Ok (g, Join lines nl ++ nl)
  end.

Definition callFunction (g : globals) (name nArgs : string) : result (globals * string) :=
  match Atoi nArgs with
  | None => Error ("invalid args to function (" ++ name ++ "): " ++ nArgs)
  | Some numArgs =>
    let callingFuncName := current (funcStack g) in
    let returnLabel :=
      getFolderName g ++ "." ++ callingFuncName ++ "$ret"
      ++ Itoa (returnCounter (funcStack g)) in
    let lines := [
      "@" ++ getFolderName g ++ "." ++ name;
      "D=A";
      locRegister;
      "M=D";
      "@" ++ Itoa numArgs;
      "D=A";
      valueRegister;
      "M=D";
      "@" ++ returnLabel;
      "D=A";
      "@CALL";
      "0;JMP";
      "(" ++ returnLabel ++ ")"
    ] in
    let g := set_funcStack g
      {| current := current (funcStack g);
         returnCounter := wrap_int (returnCounter (funcStack g) + 1) |} in
    Ok (g, Join lines nl ++ nl)
  end.

Definition returnFromFunction : string :=
  let lines := ["@RETURN"; "0;JMP"] in
  Join lines nl ++ nl.

(** *** Branching commands *)

Definition gotoLabel (g : globals) (label : string) : string :=
  let callingFuncName := current (funcStack g) in
  let constructedLabel := callingFuncName ++ "$" ++ label in
  let lines := ["@" ++ constructedLabel; "0;JMP"] in
  Join lines nl ++ nl.

Definition ifGoto (g : globals) (label : string) : string :=
  let callingFuncName := current (funcStack g) in
  let constructedLabel := callingFuncName ++ "$" ++ label in
  let lines := ["@SP"; "AM=M-1"; "D=M"; "@" ++ constructedLabel; "D;JNE"] in
  Join lines nl ++ nl.

Definition label (g : globals) (label : string) : string :=
  let callingFuncName := current (funcStack g) in
  let constructedLabel := callingFuncName ++ "$" ++ label in
  "(" ++ constructedLabel ++ ")" ++ nl.

(** *** Arithmetic and logical commands *)

Definition add : string :=
  let lines := ["@SP"; "AM=M-1"; "D=M"; "A=A-1"; "M=D+M"] in
  Join lines nl.

Definition sub : string :=
  let lines := ["@SP"; "AM=M-1"; "D=M"; "A=A-1"; "M=M-D"] in
  Join lines nl.

Definition neg : string :=
  let lines := ["@SP"; "AM=M-1"; "M=-M"; "@SP"; "M=M+1"] in
  Join lines nl.

Definition eq (g : globals) : globals * string :=
  let retAddress := "RET_ADDRESS_EQ" ++ Itoa (eqCount g) in
  let lines := ["@" ++ retAddress; "D=A"; "@EQ"; "0;JMP"; "(" ++ retAddress ++ ")"] in
  let g := set_counts g (wrap_int (eqCount g + 1)) (gtCount g) (ltCount g) in
  (g, Join lines nl).

Definition gt (g : globals) : globals * string :=
  let retAddress := "RET_ADDRESS_GT" ++ Itoa (gtCount g) in
  let lines := ["@" ++ retAddress; "D=A"; "@GT"; "0;JMP"; "(" ++ retAddress ++ ")"] in
  let g := set_counts g (eqCount g) (wrap_int (gtCount g + 1)) (ltCount g) in
  (g, Join lines nl).

Definition lt (g : globals) : globals * string :=
  let retAddress := "RET_ADDRESS_LT" ++ Itoa (ltCount g) in
  let lines := ["@" ++ retAddress; "D=A"; "@LT"; "0;JMP"; "(" ++ retAddress ++ ")"] in
  let g := set_counts g (eqCount g) (gtCount g) (wrap_int (ltCount g + 1)) in
  (g, Join lines nl).

Definition and : string :=
  let lines := ["@SP"; "AM=M-1"; "D=M"; "A=A-1"; "M=D&M"] in
  Join lines nl.

Definition or : string :=
  let lines := ["@SP"; "AM=M-1"; "D=M"; "A=A-1"; "M=D|M"] in
  Join lines nl.

Definition not : string :=
  let lines := ["@SP"; "AM=M-1"; "M=!M"; "@SP"; "M=M+1"] in
  Join lines nl.

Definition incStackPointer : string :=
  let lines := ["@SP"; "M=M+1"] in
  Join lines nl.

Definition operation (g : globals) (op : string) : result (globals * string) :=
  if String.eqb op "add" then Ok (g, add)
  else if String.eqb op "sub" then Ok (g, sub)
  else if String.eqb op "neg" then Ok (g, neg)
  else if String.eqb op "eq" then Ok (eq g)
  else if String.eqb op "gt" then Ok (gt g)
  else if String.eqb op "lt" then Ok (lt g)
  else if String.eqb op "and" then Ok (g, and)
  else if String.eqb op "or" then Ok (g, or)
  else if String.eqb op "not" then Ok (g, not)
  else Error ("invalid operation: " ++ op).

(** *** Dispatch on one command line *)

(** [fmt.Errorf("invalid command: %s", command)] on a slice of strings. *)
Definition invalidCommand (command : list string) : string :=
  "invalid command: [" ++ Join command " " ++ "]".

Definition parseCommand (g : globals) (line : string) : result (globals * string) :=
  let command := Fields line in
  first <- index command 0 ;;
  if String.eqb first "function" then
    name <- index command 1 ;;
    nVars <- index command 2 ;;
    function g name nVars
  else if String.eqb first "call" then
    name <- index command 1 ;;
    nArgs <- index command 2 ;;
    callFunction g name nArgs
  else if String.eqb first "return" then
    Ok (g, returnFromFunction)
  else if String.eqb first "goto" then
    l <- index command 1 ;;
    Ok (g, gotoLabel g l)
  else if String.eqb first "if-goto" then
    l <- index command 1 ;;
    Ok (g, ifGoto g l)
  else if String.eqb first "label" then
    l <- index command 1 ;;
    Ok (g, label g l)
  else if (List.length command =? 1)%nat then
    r <- operation g first ;;
    Ok (fst r, snd r ++ nl)
  else
    third <- index command 2 ;;
    match Atoi third with
    | Some num =>
      second <- index command 1 ;;
      if String.eqb first "push" then Ok (g, handlePush g second num)
      else if String.eqb first "pop" then Ok (g, handlePop g second num)
      else Error (invalidCommand command)
    | None => Error (invalidCommand command)
    end.

(** *** Translating a source unit *)

(** [Parser.Parse], on the lines the scanner delivers.  [log.Fatal] ends the
    process with the error; nothing is written then. *)
Fixpoint Parse (g : globals) (scanned : list string)
  : result (globals * list string) :=
  match scanned with
  | [] => Ok (g, [])
  | line :: rest =>
    let line := TrimSpace line in
    if HasPrefix line "//" || isEmpty line then Parse g rest
    else
      let line := SplitHead line "//" in
      let line := TrimSpace line in
      r <- parseCommand g line ;;
      r' <- Parse (fst r) rest ;;
      Ok (fst r', snd r :: snd r')
  end.

(** [parseFile]: the file is given by its name and the lines it holds.  The
    capital is tested by
    [strings.HasPrefix(fileName, strings.ToUpper(fileName[:1]))]; on the
    empty name the slice expression panics. *)
Definition parseFile (g : globals) (fileName : string) (content : list string)
  : result (globals * list string) :=
  match fileName with
  | EmptyString => Panic
  | String c _ =>
    if negb (HasPrefix fileName (ToUpper1 c)) then
      Error "file must start with an uppercase letter"
    else if negb (String.eqb (Ext fileName) ".vm") then
      Error "file must have .vm extension"
    else
      let g := set_currentFile g (Base fileName) in
      Parse g content
  end.

Fixpoint parseFiles (g : globals) (files : list (string * list string))
  : result (globals * list string) :=
  match files with
  | [] => Ok (g, [])
  | (file, content) :: rest =>
    r <- parseFile g file content ;;
    r' <- parseFiles (fst r) rest ;;
    Ok (fst r', (snd r ++ snd r')%list)
  end.

(** [loadFolder]: [files] are the matches of [folderName/*.vm] with their
    contents, in the order [filepath.Glob] lists them. *)
Definition loadFolder (g : globals) (files : list (string * list string))
  : result (globals * list string) :=
  match files with
  | [] => Error "no .vm files found in folder"
  | _ =>
    let instructions := ["(START)" ++ nl] in
    r0 <- (if shouldBootstrap g
           then r <- callFunction g "Sys.init" "0" ;;
                Ok (fst r, (instructions ++ [snd r])%list)
           else Ok (g, instructions)) ;;
    r1 <- parseFiles (fst r0) files ;;
    let g := fst r1 in
    let instructions := (snd r0 ++ snd r1)%list in
    let instructions := prependFunctions instructions in
    let instructions := prependStartInstructions g instructions in
    let infiniteLoop :=
      Join ["(INFINITE_LOOP)"; "@INFINITE_LOOP"; "0;JMP"] nl ++ nl in
    let instructions :=
      if shouldEndWithLoop g
      then (instructions ++ [infiniteLoop])%list
      else instructions in
    Ok (g, instructions)
  end.

(** [save] writes the instruction blocks one after the other. *)
Definition written (instructions : list string) : string :=
  String.concat EmptyString instructions.

(** [save]: the file that is created and the text written to it.
    [isDir] is what [os.Stat] reports for [pathToTranslate], [None] when it
    fails; the error is printed then and nothing is written. *)
Definition save (g : globals) (isDir : option bool) (instructions : list string)
    (fileName : string) : option (string * string) :=
  match isDir with
  | None => None
  | Some dir =>
    let saveToFolderPath :=
      if dir then pathToTranslate g else Dir (pathToTranslate g) in
    let extension := Ext fileName in
    let outputFilename := TrimSuffix fileName extension ++ ".asm" in
    Some (saveToFolderPath ++ "/" ++ outputFilename, written instructions)
  end.

(** [main], after the command line is read.  The file system enters as
    [isDir] (see [save]), [content] (the lines of the file at the path, for a
    path to a file) and [files] (the matches of [<path>/*.vm] with their
    lines, for a path to a folder).  [log.Fatal] is the error. *)
Definition main (bootstrap setStackPointer endWithLoop : bool) (passedPath : string)
    (isDir : option bool) (content : list string)
    (files : list (string * list string))
  : result (option (string * string)) :=
  let g := initial bootstrap setStackPointer endWithLoop passedPath in
  if isEmpty passedPath then Error "no file or folder specified"
  else
    let ext := Ext passedPath in
    if String.eqb ext ".vm" then
      r <- parseFile g passedPath content ;;
      let filename := TrimSuffix passedPath ext ++ ".asm" in
      Ok (save (fst r) isDir (snd r) filename)
    else if String.eqb ext EmptyString then
      r <- loadFolder g files ;;
      let filename := getFolderName (fst r) ++ ".asm" in
      Ok (save (fst r) isDir (snd r) filename)
    else Error "invalid file extension".

End VM.

(** ** The earliest revision of the translator

    The repository also holds the translator as it was before function
    commands were added (a single-file program).  Its memory access commands
    go through [location], which resolves a segment and an index into
    [R13], and [stack], which pushes or pops through that register.  Both
    return an error next to the text. *)

Module VM0.

Import Go.

Definition locRegister : string := "@R13".
Definition valueRegister : string := "@R14".

(** [getFilename], with [os.Args[1]] as its argument. *)
Definition getFilename (arg1 : string) : string :=
  let fileName := Base arg1 in
  TrimSuffix fileName (Ext fileName).

Definition incStackPointer : string :=
  let lines := ["@SP"; "M=M+1"] in
  Join lines nl.

Definition decStackPointer : string :=
  let lines := ["@SP"; "M=M-1"] in
  Join lines nl.

Definition baseLocation (location : string) : string :=
  let lines := ["@" ++ location; "D=A"; locRegister; "M=D"] in
  Join lines nl.

Definition offsetLocation (location : string) (index : Z) : string :=
  let lines :=
    ["@" ++ Itoa index; "D=A"; "@" ++ location; "D=D+A"; locRegister; "M=D"] in
  Join lines nl.

Definition byPointer (location : string) (index : Z) : string :=
  let lines :=
    if index =? 0 then
      [location; "A=M"; "D=A"; locRegister; "M=D"]
    else
      ["@" ++ Itoa index; "D=A"; location; "A=M"; "D=D+A"; locRegister; "M=D"] in
  Join lines nl.

Definition push : string :=
  let lines := [locRegister; "A=M"; "D=M"; "@SP"; "A=M"; "M=D"] in
  let lines := (lines ++ [incStackPointer])%list in
  Join lines nl.

Definition pop : string :=
  let lines := ["@SP"; "A=M-1"; "D=M"; locRegister; "A=M"; "M=D"] in
  let lines := (lines ++ [decStackPointer])%list in
  Join lines nl.

Definition local (index : Z) : string :=
  if index =? 0 then baseLocation "LCL" else offsetLocation "LCL" index.

Definition argument (index : Z) : string :=
  if index =? 0 then baseLocation "ARG" else offsetLocation "ARG" index.

Definition pointer (index : Z) : result string :=
  if index =? 0 then Ok (baseLocation "THIS")
  else if index =? 1 then Ok (baseLocation "THAT")
  else Error ("invalid pointer index: " ++ Itoa index).

Definition temp (index : Z) : string :=
  if index =? 0 then baseLocation "R5" else offsetLocation "R5" index.

Definition static (arg1 : string) (index : Z) : string :=
  let lines :=
    ["@" ++ getFilename arg1 ++ "." ++ Itoa index; "D=A"; locRegister; "M=D"] in
  Join lines nl.

Definition constant (index : Z) : string :=
  let lines :=
    ["@" ++ Itoa index; "D=A"; valueRegister; "M=D"; "D=A"; locRegister; "M=D"] in
  Join lines nl.

Definition this (index : Z) : string := byPointer "@THIS" index.

Definition that (index : Z) : string := byPointer "@THAT" index.

Definition location (arg1 : string) (op : string) (index : Z) : result string :=
  if String.eqb op "argument" then Ok (argument index)
  else if String.eqb op "local" then Ok (local index)
  else if String.eqb op "static" then Ok (static arg1 index)
  else if String.eqb op "constant" then Ok (constant index)
  else if String.eqb op "this" then Ok (this index)
  else if String.eqb op "that" then Ok (that index)
  else if String.eqb op "pointer" then pointer index
  else if String.eqb op "temp" then Ok (temp index)
  else Error ("invalid location: " ++ op).

Definition stack (op : string) : result string :=
  if String.eqb op "push" then Ok push
  else if String.eqb op "pop" then Ok pop
  else Error ("invalid stack operation: " ++ op).

(** The package-level counters of this revision. *)
Record counters : Type := mkCounters {
  eqCount : Z;
  gtCount : Z;
  ltCount : Z
}.

Definition add : string :=
  let lines := ["@SP"; "AM=M-1"; "D=M"; "@SP"; "AM=M-1"; "M=D+M"] in
  let lines := (lines ++ [incStackPointer])%list in
  Join lines nl.

Definition sub : string :=
  let lines := ["@SP"; "AM=M-1"; "D=M"; "@SP"; "AM=M-1"; "M=M-D"] in
  let lines := (lines ++ [incStackPointer])%list in
  Join lines nl.

Definition neg : string :=
  let lines := ["@SP"; "AM=M-1"; "M=-M"] in
  let lines := (lines ++ [incStackPointer])%list in
  Join lines nl.

Definition eq (c : counters) : counters * string :=
  let eqTrueLabel := "EQ_TRUE_" ++ Itoa (eqCount c) in
  let eqEndLabel := "EQ_END_" ++ Itoa (eqCount c) in
  let lines :=
    ["@SP"; "AM=M-1"; "D=M"; "@SP"; "AM=M-1"; "D=M-D";
     "@" ++ eqTrueLabel; "D;JEQ"; "@SP"; "A=M"; "M=0";
     "@" ++ eqEndLabel; "0;JMP"; "(" ++ eqTrueLabel ++ ")";
     "@SP"; "A=M"; "M=-1"; "(" ++ eqEndLabel ++ ")"] in
  let c := {| eqCount := wrap_int (eqCount c + 1);
              gtCount := gtCount c; ltCount := ltCount c |} in
  let lines := (lines ++ [incStackPointer])%list in
  (c, Join lines nl).

Definition gt (c : counters) : counters * string :=
  let gtTrueLabel := "GT_TRUE_" ++ Itoa (gtCount c) in
  let gtEndLabel := "GT_END_" ++ Itoa (gtCount c) in
  let lines :=
    ["@SP"; "AM=M-1"; "D=M"; "@SP"; "AM=M-1"; "D=M-D";
     "@" ++ gtTrueLabel; "D;JGT"; "@SP"; "A=M"; "M=0";
     "@" ++ gtEndLabel; "0;JMP"; "(" ++ gtTrueLabel ++ ")";
     "@SP"; "A=M"; "M=-1"; "(" ++ gtEndLabel ++ ")"] in
  let c := {| eqCount := eqCount c;
              gtCount := wrap_int (gtCount c + 1); ltCount := ltCount c |} in
  let lines := (lines ++ [incStackPointer])%list in
  (c, Join lines nl).

Definition lt (c : counters) : counters * string :=
  let ltTrueLabel := "LT_TRUE_" ++ Itoa (ltCount c) in
  let ltEndLabel := "LT_END_" ++ Itoa (ltCount c) in
  let lines :=
    ["@SP"; "AM=M-1"; "D=M"; "@SP"; "AM=M-1"; "D=M-D";
     "@" ++ ltTrueLabel; "D;JLT"; "@SP"; "A=M"; "M=0";
     "@" ++ ltEndLabel; "0;JMP"; "(" ++ ltTrueLabel ++ ")";
     "@SP"; "A=M"; "M=-1"; "(" ++ ltEndLabel ++ ")"] in
  let c := {| eqCount := eqCount c;
              gtCount := gtCount c; ltCount := wrap_int (ltCount c + 1) |} in
  let lines := (lines ++ [incStackPointer])%list in
  (c, Join lines nl).

Definition and : string :=
  let lines := ["@SP"; "AM=M-1"; "D=M"; "@SP"; "AM=M-1"; "M=D&M"] in
  let lines := (lines ++ [incStackPointer])%list in
  Join lines nl.

Definition or : string :=
  let lines := ["@SP"; "AM=M-1"; "D=M"; "@SP"; "AM=M-1"; "M=D|M"] in
  let lines := (lines ++ [incStackPointer])%list in
  Join lines nl.

Definition not : string :=
  let lines := ["@SP"; "AM=M-1"; "M=!M"] in
  let lines := (lines ++ [incStackPointer])%list in
  Join lines nl.

Definition operation (c : counters) (op : string) : result (counters * string) :=
  if String.eqb op "add" then Ok (c, add)
  else if String.eqb op "sub" then Ok (c, sub)
  else if String.eqb op "neg" then Ok (c, neg)
  else if String.eqb op "eq" then Ok (eq c)
  else if String.eqb op "gt" then Ok (gt c)
  else if String.eqb op "lt" then Ok (lt c)
  else if String.eqb op "and" then Ok (c, and)
  else if String.eqb op "or" then Ok (c, or)
  else if String.eqb op "not" then Ok (c, not)
  else Error ("invalid operation: " ++ op).

(** [parseCommand].  The fields of the line arrive in reverse order: for a
    memory access command the index, the segment, the direction. *)
Definition parseCommand (arg1 : string) (c : counters) (command : list string)
  : result (counters * string) :=
  first <- index command 0 ;;
  match Atoi first with
  | Some num =>
    second <- index command 1 ;;
    setup <- location arg1 second num ;;
    third <- index command 2 ;;
    stackOperation <- stack third ;;
    Ok (c, setup ++ nl ++ stackOperation ++ nl)
  | None =>
    r <- operation c first ;;
    Ok (fst r, snd r ++ nl)
  end.

End VM0.

(** ** The target: Hack assembly and the Hack CPU

    Modelled from the spec: the downstream assembler and the target machine.
    The repository holds neither; the translator's text is written for them.
    The machine has 16-bit words in two's complement, the registers [A] and
    [D], [M] for the memory word addressed by [A], a register file in the
    first memory words ([SP], [LCL], [ARG], [THIS], [THAT], [R5] to [R15])
    and a program counter into an instruction memory.  The operand of an
    address instruction is reduced to sixteen bits. *)

Module Hack.

Definition wrap (z : Z) : Z := z mod 65536.

(** The value of a word read as a signed number, for the jump conditions. *)
Definition signed (w : Z) : Z := if w <? 32768 then w else w - 65536.

Inductive comp : Type :=
| c_0 | c_1 | c_m1 | c_D | c_A | c_M
| c_notD | c_notA | c_notM | c_negD | c_negA | c_negM
| c_Dp1 | c_Ap1 | c_Mp1 | c_Dm1 | c_Am1 | c_Mm1
| c_DpA | c_DpM | c_DmA | c_DmM | c_AmD | c_MmD
| c_DandA | c_DandM | c_DorA | c_DorM.

Record dest : Type := mkDest { toA : bool; toD : bool; toM : bool }.

Inductive jump : Type :=
| j_none | JGT | JEQ | JGE | JLT | JNE | JLE | JMP.

Inductive instr : Type :=
| At (v : Z)
| Cmd (d : dest) (c : comp) (j : jump).

(** *** Assembly source lines *)

Inductive sline : Type :=
| Blank
| Label (name : string)
| AtNum (v : Z)
| AtSym (name : string)
| CLine (d : dest) (c : comp) (j : jump)
| Bad.

Definition isNewline (c : ascii) : bool := Ascii.eqb c (ascii_of_nat 10).

Fixpoint linesFrom (s : string) (cur : string) : list string :=
  match s with
  | EmptyString => [cur]
  | String c r =>
    if isNewline c then cur :: linesFrom r EmptyString
    else linesFrom r (cur ++ String c EmptyString)
  end.

(** The lines of a text, as the assembler reads them. *)
Definition sourceLines (text : string) : list string :=
  linesFrom text EmptyString.

(** [cut c s] splits [s] at the first occurrence of the character [c]. *)
Fixpoint cut (c : ascii) (s : string) : option (string * string) :=
  match s with
  | EmptyString => None
  | String x r =>
    if Ascii.eqb x c then Some (EmptyString, r)
    else match cut c r with
         | Some (a, b) => Some (String x a, b)
         | None => None
         end
  end.

Fixpoint parseDest (s : string) (d : dest) : option dest :=
  match s with
  | EmptyString => Some d
  | String "A" r => parseDest r {| toA := true; toD := toD d; toM := toM d |}
  | String "D" r => parseDest r {| toA := toA d; toD := true; toM := toM d |}
  | String "M" r => parseDest r {| toA := toA d; toD := toD d; toM := true |}
  | _ => None
  end.

Definition compTable : list (string * comp) :=
  [("0", c_0); ("1", c_1); ("-1", c_m1); ("D", c_D); ("A", c_A); ("M", c_M);
   ("!D", c_notD); ("!A", c_notA); ("!M", c_notM);
   ("-D", c_negD); ("-A", c_negA); ("-M", c_negM);
   ("D+1", c_Dp1); ("A+1", c_Ap1); ("M+1", c_Mp1);
   ("D-1", c_Dm1); ("A-1", c_Am1); ("M-1", c_Mm1);
   ("D+A", c_DpA); ("D+M", c_DpM); ("D-A", c_DmA); ("D-M", c_DmM);
   ("A-D", c_AmD); ("M-D", c_MmD);
   ("D&A", c_DandA); ("D&M", c_DandM); ("D|A", c_DorA); ("D|M", c_DorM)].

Definition jumpTable : list (string * jump) :=
  [("JGT", JGT); ("JEQ", JEQ); ("JGE", JGE); ("JLT", JLT);
   ("JNE", JNE); ("JLE", JLE); ("JMP", JMP)].

Fixpoint lookup {A : Type} (key : string) (table : list (string * A)) : option A :=
  match table with
  | [] => None
  | (k, v) :: rest => if String.eqb k key then Some v else lookup key rest
  end.

Definition noDest : dest := {| toA := false; toD := false; toM := false |}.

Definition parseC (s : string) : sline :=
  let '(d, rest) :=
    match cut "=" s with
    | Some (d, rest) => (parseDest d noDest, rest)
    | None => (Some noDest, s)
    end in
  let '(c, j) :=
    match cut ";" rest with
    | Some (c, j) => (lookup c compTable, lookup j jumpTable)
    | None => (lookup rest compTable, Some j_none)
    end in
  match d, c, j with
  | Some d, Some c, Some j => CLine d c j
  | _, _, _ => Bad
  end.

Fixpoint dropLast (s : string) : option string :=
  match s with
  | EmptyString => None
  | String c EmptyString => if Ascii.eqb c ")" then Some EmptyString else None
  | String c r => option_map (String c) (dropLast r)
  end.

Definition parseLine (s : string) : sline :=
  match s with
  | EmptyString => Blank
  | String "(" r =>
    match dropLast r with
    | Some name => Label name
    | None => Bad
    end
  | String "@" r =>
    match r with
    | EmptyString => Bad
    | _ =>
      match NilEmpty.uint_of_string r with
      | Some d => AtNum (Z.of_uint d)
      | None => AtSym r
      end
    end
  | _ => parseC s
  end.

(** *** Symbols *)

Definition predefined : list (string * Z) :=
  [("SP", 0); ("LCL", 1); ("ARG", 2); ("THIS", 3); ("THAT", 4);
   ("R0", 0); ("R1", 1); ("R2", 2); ("R3", 3); ("R4", 4); ("R5", 5);
   ("R6", 6); ("R7", 7); ("R8", 8); ("R9", 9); ("R10", 10); ("R11", 11);
   ("R12", 12); ("R13", 13); ("R14", 14); ("R15", 15);
   ("SCREEN", 16384); ("KBD", 24576)].

(** First pass: a label stands for the address of the next instruction. *)
Fixpoint collectLabels (ls : list sline) (addr : Z) (table : list (string * Z))
  : option (list (string * Z)) :=
  match ls with
  | [] => Some table
  | Blank :: rest => collectLabels rest addr table
  | Label name :: rest => collectLabels rest addr ((table ++ [(name, addr)])%list)
  | Bad :: _ => None
  | _ :: rest => collectLabels rest (addr + 1) table
  end.

(** Second pass: a symbol that is neither predefined nor a label is a
    variable; variables get the addresses 16, 17, ... in the order in which
    they first occur. *)
Fixpoint resolve (ls : list sline) (table : list (string * Z)) (next : Z)
  : list instr :=
  match ls with
  | [] => []
  | AtNum v :: rest => At v :: resolve rest table next
  | AtSym name :: rest =>
    match lookup name table with
    | Some v => At v :: resolve rest table next
    | None => At next :: resolve rest ((table ++ [(name, next)])%list) (next + 1)
    end
  | CLine d c j :: rest => Cmd d c j :: resolve rest table next
  | _ :: rest => resolve rest table next
  end.

Definition assembleLines (ls : list sline) : option (list instr) :=
  match collectLabels ls 0 predefined with
  | Some table => Some (resolve ls table 16)
  | None => None
  end.

(** Modelled from the spec: the downstream assembler, from text to
    instructions. *)
Definition assemble (text : string) : option (list instr) :=
  assembleLines (map parseLine (sourceLines text)).

(** *** The CPU *)

Record cpu : Type := mkCpu {
  A : Z;
  D : Z;
  PC : Z;
  RAM : Z -> Z
}.

(** The word a memory cell holds, as the CPU reads it. *)
Definition load (m : Z -> Z) (a : Z) : Z := wrap (m a).

Definition store (m : Z -> Z) (a v : Z) : Z -> Z :=
  fun x => if x =? a then v else m x.

(** The computations, before the result is cut to sixteen bits. *)
Definition alu (c : comp) (a d m : Z) : Z :=
  match c with
  | c_0 => 0
  | c_1 => 1
  | c_m1 => -1
  | c_D => d
  | c_A => a
  | c_M => m
  | c_notD => Z.lnot d
  | c_notA => Z.lnot a
  | c_notM => Z.lnot m
  | c_negD => - d
  | c_negA => - a
  | c_negM => - m
  | c_Dp1 => d + 1
  | c_Ap1 => a + 1
  | c_Mp1 => m + 1
  | c_Dm1 => d - 1
  | c_Am1 => a - 1
  | c_Mm1 => m - 1
  | c_DpA => d + a
  | c_DpM => d + m
  | c_DmA => d - a
  | c_DmM => d - m
  | c_AmD => a - d
  | c_MmD => m - d
  | c_DandA => Z.land d a
  | c_DandM => Z.land d m
  | c_DorA => Z.lor d a
  | c_DorM => Z.lor d m
  end.

Definition taken (j : jump) (out : Z) : bool :=
  match j with
  | j_none => false
  | JGT => 0 <? signed out
  | JEQ => signed out =? 0
  | JGE => 0 <=? signed out
  | JLT => signed out <? 0
  | JNE => negb (signed out =? 0)
  | JLE => signed out <=? 0
  | JMP => true
  end.

(** Modelled from the spec: one instruction of the target machine.  A
    computation reads [A], [D] and [M] as they are before the instruction;
    [M] is written at the address [A] held before, and a jump goes to that
    address too. *)
Definition step (i : instr) (s : cpu) : cpu :=
  match i with
  | At v => {| A := wrap v; D := D s; PC := PC s + 1; RAM := RAM s |}
  | Cmd d c j =>
    let out := wrap (alu c (A s) (D s) (load (RAM s) (A s))) in
    {| A := if toA d then out else A s;
       D := if toD d then out else D s;
       PC := if taken j out then A s else PC s + 1;
       RAM := if toM d then store (RAM s) (A s) out else RAM s |}
  end.

Definition fetch (rom : list instr) (pc : Z) : option instr :=
  if pc <? 0 then None else nth_error rom (Z.to_nat pc).

(** [run rom n s]: [n] instructions from [s]; [None] when the program
    counter leaves the program before that. *)
Fixpoint run (rom : list instr) (n : nat) (s : cpu) : option cpu :=
  match n with
  | O => Some s
  | S k =>
    match fetch rom (PC s) with
    | Some i => run rom k (step i s)
    | None => None
    end
  end.

End Hack.

(** ** Notions used in the statements *)

(** The text a run of the translator on a folder writes, if it writes any. *)
Definition program (g : VM.globals) (files : list (string * list string))
  : option string :=
  match VM.loadFolder g files with
  | Ok (_, instructions) => Some (VM.written instructions)
  | _ => None
  end.

(** What a fallible translation step emitted. *)
Definition emitted {S T : Type} (r : result (S * T)) : option T :=
  match r with
  | Ok (_, out) => Some out
  | _ => None
  end.

(** The instruction address a label of an assembly text stands for. *)
Definition labelAddress (text name : string) : option Z :=
  match Hack.collectLabels (map Hack.parseLine (Hack.sourceLines text)) 0
          Hack.predefined with
  | Some table => Hack.lookup name table
  | None => None
  end.

(** [codeAt rom p code]: the instructions [code] sit in [rom] from address
    [p] on. *)
Definition codeAt (rom : list Hack.instr) (p : Z) (code : list Hack.instr) : Prop :=
  0 <= p /\ firstn (List.length code) (skipn (Z.to_nat p) rom) = code.

Definition segment (rom : list Hack.instr) (p : Z) (len : nat) : list Hack.instr :=
  firstn len (skipn (Z.to_nat p) rom).

(** Running a list of instructions one after the other. *)
Definition exec (code : list Hack.instr) (s : Hack.cpu) : Hack.cpu :=
  fold_left (fun s i => Hack.step i s) code s.

(** Instructions after which the program counter moves to the next one. *)
Definition falls (i : Hack.instr) : bool :=
  match i with
  | Hack.At _ => true
  | Hack.Cmd _ _ Hack.j_none => true
  | _ => false
  end.

(** The frame the call sequence leaves for the callee, relative to the
    state [s] in which the call began: [LCL] and [ARG] are set, the return
    address and the caller's four pointers are saved in the five words from
    the caller's stack top on, and the callee's stack is at or above them. *)
Definition frame (s : Hack.cpu) (n ret : Z) (s1 : Hack.cpu) : Prop :=
  let sp := Hack.load (Hack.RAM s) 0 in
  Hack.load (Hack.RAM s1) 1 = sp + 5
  /\ Hack.load (Hack.RAM s1) 2 = sp - n
  /\ Hack.load (Hack.RAM s1) sp = ret
  /\ Hack.load (Hack.RAM s1) (sp + 1) = Hack.load (Hack.RAM s) 1
  /\ Hack.load (Hack.RAM s1) (sp + 2) = Hack.load (Hack.RAM s) 2
  /\ Hack.load (Hack.RAM s1) (sp + 3) = Hack.load (Hack.RAM s) 3
  /\ Hack.load (Hack.RAM s1) (sp + 4) = Hack.load (Hack.RAM s) 4
  /\ sp + 5 <= Hack.load (Hack.RAM s1) 0.

(** The caller's view after the return, relative to the state [s] in which
    the call began: execution is at the return address, the [n] arguments
    are replaced by the value [v], and the four pointers are as before. *)
Definition returned (s : Hack.cpu) (n ret v : Z) (s' : Hack.cpu) : Prop :=
  let sp := Hack.load (Hack.RAM s) 0 in
  Hack.PC s' = ret
  /\ Hack.load (Hack.RAM s') 0 = sp - n + 1
  /\ Hack.load (Hack.RAM s') 1 = Hack.load (Hack.RAM s) 1
  /\ Hack.load (Hack.RAM s') 2 = Hack.load (Hack.RAM s) 2
  /\ Hack.load (Hack.RAM s') 3 = Hack.load (Hack.RAM s) 3
  /\ Hack.load (Hack.RAM s') 4 = Hack.load (Hack.RAM s) 4
  /\ Hack.load (Hack.RAM s') (sp - n) = v.

(** Character classes *)

Fixpoint allChars (p : ascii -> bool) (s : string) : bool :=
  match s with
  | EmptyString => true
  | String c r => p c && allChars p r
  end.

Definition isDigit (c : ascii) : bool :=
  let n := nat_of_ascii c in (48 <=? n)%nat && (n <=? 57)%nat.

Definition notNewline (c : ascii) : bool := negb (Hack.isNewline c).

Definition notSlash (c : ascii) : bool := negb (Go.isSlash c).

Definition notDot (c : ascii) : bool := negb (Ascii.eqb c ".").

Fixpoint endsWithSpace (p : string) : bool :=
  match p with
  | EmptyString => false
  | String c EmptyString => Go.asciiSpace c
  | String _ r => endsWithSpace r
  end.

Fixpoint endsWithNewline (p : string) : bool :=
  match p with
  | EmptyString => false
  | String c EmptyString => Hack.isNewline c
  | String _ r => endsWithNewline r
  end.

(** White space in a text: the text is empty or begins with a byte that is
    no continuation byte; the text after the white space character it
    begins with; the text holds a white space character. *)
Definition headStart (s : string) : bool :=
  match s with EmptyString => true | String c _ => Go.RuneStart c end.

Definition afterSpace (s : string) : option string :=
  match Go.spaceWidth s, s with
  | 1%nat, String _ r => Some r
  | 2%nat, String _ (String _ r) => Some r
  | 3%nat, String _ (String _ (String _ r)) => Some r
  | _, _ => None
  end.

Fixpoint hasSpace (s : string) : bool :=
  match s with
  | EmptyString => false
  | String _ r => negb (Go.spaceWidth s =? 0)%nat || hasSpace r
  end.

(** The text of a block of lines as the emitters build it, and the lines an
    assembler reads back from it. *)
Definition blockText (ls : list string) : string := Go.Join ls Go.nl ++ Go.nl.

Definition blockLines (ls : list string) : list string :=
  match ls with
  | [] => [EmptyString]
  | _ => ls
  end.

(** *** The programs the statements run *)

(** The translator started on the folder [Prog], no option set. *)
Definition g0 : VM.globals := VM.initial false false false "Prog".

(** The translator after the command [function Main.f 0]. *)
Definition afterFunction : VM.globals :=
  VM.set_funcStack g0 {| VM.current := "Main.f"; VM.returnCounter := 0 |}.

(** A folder with one unit that holds one command. *)
Definition unit1 (command : string) : list (string * list string) :=
  [("Prog/Main.vm", [command])].

(** A folder with one unit: a call with [n] arguments from the top level,
    a loop for the caller to end in, and the callee, which returns at
    once. *)
Definition callUnit (n : Z) : list (string * list string) :=
  [("Prog/Main.vm",
    ["call Main.f " ++ Go.Itoa n; "label END"; "goto END";
     "function Main.f 0"; "return"])].

(** The parts of the text written for [callUnit n]: what precedes the call
    site, the lines of the call site, what follows it. *)
Definition beforeCall : string :=
  Eval vm_compute in
    VM.written
      (VM.prependStartInstructions g0 (VM.prependFunctions ["(START)" ++ Go.nl])).

Definition callSite (n : Z) : list string :=
  ["@Prog.Main.f"; "D=A"; "@R13"; "M=D"; "@" ++ Go.Itoa n; "D=A"; "@R14"; "M=D";
   "@Prog.Sys.init$ret0"; "D=A"; "@CALL"; "0;JMP"; "(Prog.Sys.init$ret0)"].

Definition afterCall : string :=
  Eval vm_compute in
    match VM.Parse g0 ["label END"; "goto END"; "function Main.f 0"; "return"] with
    | Ok (_, l) => VM.written l
    | _ => EmptyString
    end.

Definition callSiteLines (n : Z) : list Hack.sline :=
  [Hack.AtSym "Prog.Main.f";
   Hack.CLine {| Hack.toA := false; Hack.toD := true; Hack.toM := false |}
     Hack.c_A Hack.j_none;
   Hack.AtSym "R13";
   Hack.CLine {| Hack.toA := false; Hack.toD := false; Hack.toM := true |}
     Hack.c_D Hack.j_none;
   Hack.AtNum n;
   Hack.CLine {| Hack.toA := false; Hack.toD := true; Hack.toM := false |}
     Hack.c_A Hack.j_none;
   Hack.AtSym "R14";
   Hack.CLine {| Hack.toA := false; Hack.toD := false; Hack.toM := true |}
     Hack.c_D Hack.j_none;
   Hack.AtSym "Prog.Sys.init$ret0";
   Hack.CLine {| Hack.toA := false; Hack.toD := true; Hack.toM := false |}
     Hack.c_A Hack.j_none;
   Hack.AtSym "CALL";
   Hack.CLine {| Hack.toA := false; Hack.toD := false; Hack.toM := false |}
     Hack.c_0 Hack.JMP;
   Hack.Label "Prog.Sys.init$ret0"].

Definition callUnitLines (n : Z) : list Hack.sline :=
  (map Hack.parseLine (removelast (Hack.sourceLines beforeCall))
   ++ callSiteLines n
   ++ map Hack.parseLine (Hack.sourceLines afterCall))%list.

Definition callRom (n : Z) : list Hack.instr :=
  Eval vm_compute in
    match Hack.assembleLines (callUnitLines n) with
    | Some rom => rom
    | None => []
    end.


Definition subCode : list Hack.instr :=
  Eval vm_compute in
    match Hack.assemble VM.sub with
    | Some c => c
    | None => []
    end.

(** *** A state to instantiate the statements at

    The stack pointer is 300 with 7 and 3 on top of the stack; [LCL], [ARG],
    [THIS] and [THAT] hold 290, 280, 3000 and 4000. *)
Definition demoMemory : Z -> Z :=
  fun a =>
    if a =? 0 then 300
    else if a =? 1 then 290
    else if a =? 2 then 280
    else if a =? 3 then 3000
    else if a =? 4 then 4000
    else if a =? 298 then 7
    else if a =? 299 then 3
    else 0.

Definition demoState : Hack.cpu :=
  {| Hack.A := 0; Hack.D := 0; Hack.PC := 0; Hack.RAM := demoMemory |}.

(** The same memory, with execution at the address [pc]. *)
Definition demoStateAt (pc : Z) : Hack.cpu :=
  {| Hack.A := 0; Hack.D := 0; Hack.PC := pc; Hack.RAM := demoMemory |}.

(** The instructions a text assembles to on its own. *)
Definition blockCode (text : string) : list Hack.instr :=
  match Hack.assemble text with
  | Some code => code
  | None => []
  end.

(** The instructions with which [function] sets one local variable to 0. *)
Definition initLocalCode : list Hack.instr :=
  Eval vm_compute in blockCode (blockText ["@SP"; "A=M"; "M=0"; "@SP"; "M=M+1"]).

(** The state in which the callee of [callUnit 2] is entered. *)
Definition demoCallee : Hack.cpu :=
  match Hack.run (callRom 2) 60 (demoStateAt 157) with
  | Some s => s
  | None => demoState
  end.

(** The text written for [callUnit 2] up to the return of the callee. *)
Definition beforeReturn : string :=
  beforeCall ++ blockText (callSite 2) ++ VM.label g0 "END"
  ++ VM.gotoLabel g0 "END" ++ "(Prog.Main.f)" ++ Go.nl.

(** A folder whose one unit defines [Sys.init], translated with the options
    [bootstrap] and [setStackPointer]. *)
Definition bootUnit : list (string * list string) :=
  [("Prog/Sys.vm", ["function Sys.init 0"; "label END"; "goto END"])].

Definition bootText : string :=
  Eval vm_compute in
    match program (VM.initial true true false "Prog") bootUnit with
    | Some text => text
    | None => EmptyString
    end.

Definition bootRom : list Hack.instr :=
  Eval vm_compute in blockCode bootText.

(** A folder with one unit, translated with the final loop. *)
Definition loopUnit : list (string * list string) :=
  [("Prog/Main.vm", ["push constant 7"])].

Definition loopText : string :=
  Eval vm_compute in
    match program (VM.initial false false true "Prog") loopUnit with
    | Some text => text
    | None => EmptyString
    end.

Definition loopRom : list Hack.instr :=
  Eval vm_compute in blockCode loopText.

(** The text of [push local 2] in the earliest revision. *)
Definition earliestPush : string :=
  Eval vm_compute in
    match VM0.parseCommand "Prog.vm" (VM0.mkCounters 0 0 0)
            ["2"; "local"; "push"] with
    | Ok (_, text) => text
    | _ => EmptyString
    end.

(** The code of [push local 2] followed by [pop local 2]. *)
Definition roundtripCode : list Hack.instr :=
  Eval vm_compute in
    match Hack.assemble (VM.handlePush g0 "local" 2 ++ VM.handlePop g0 "local" 2) with
    | Some c => c
    | None => []
    end.

(** The program written for a unit that holds the one command [eq]. *)
Definition eqText : string :=
  Eval vm_compute in
    match program g0 (unit1 "eq") with
    | Some text => text
    | None => EmptyString
    end.

Definition eqRom : list Hack.instr :=
  Eval vm_compute in
    match Hack.assemble eqText with
    | Some rom => rom
    | None => []
    end.

(** The options read from the command line are the same in two states of
    the translator. *)
Definition sameOptions (g g' : VM.globals) : Prop :=
  VM.shouldBootstrap g' = VM.shouldBootstrap g
  /\ VM.shouldEndWithLoop g' = VM.shouldEndWithLoop g
  /\ VM.shouldSetStackPointer g' = VM.shouldSetStackPointer g
  /\ VM.pathToTranslate g' = VM.pathToTranslate g.

(** *** The assembler on a text in parts *)

(** The number of instructions a list of source lines assembles to. *)
Fixpoint icount (ls : list Hack.sline) : Z :=
  match ls with
  | [] => 0
  | (Hack.AtNum _ | Hack.AtSym _ | Hack.CLine _ _ _) :: rest => 1 + icount rest
  | _ :: rest => icount rest
  end.

(** The number of instructions a text assembles to: the address of the
    instruction that follows it in a longer text. *)
Definition codeLength (text : string) : Z :=
  icount (map Hack.parseLine (Hack.sourceLines text)).

(** The symbol table and the next free variable address when the second
    pass of the assembler has read the lines [ls]. *)
Fixpoint resolveState (ls : list Hack.sline) (table : list (string * Z)) (next : Z)
  : list (string * Z) * Z :=
  match ls with
  | [] => (table, next)
  | Hack.AtSym name :: rest =>
    match Hack.lookup name table with
    | Some _ => resolveState rest table next
    | None => resolveState rest ((table ++ [(name, next)])%list) (next + 1)
    end
  | _ :: rest => resolveState rest table next
  end.

(** The address the assembler gives a symbol of an assembly text: that of a
    predefined symbol or of a label, and for any other symbol that stands
    in the text the address of the variable. *)
Definition symbolAddress (text name : string) : option Z :=
  let ls := map Hack.parseLine (Hack.sourceLines text) in
  match Hack.collectLabels ls 0 Hack.predefined with
  | Some table => Hack.lookup name (fst (resolveState ls table 16))
  | None => None
  end.

(** The symbols of [ls] that [table] binds: all of them, or not. *)
Definition bound (table : list (string * Z)) (ls : list Hack.sline) : bool :=
  forallb (fun l => match l with
                    | Hack.AtSym name =>
                      match Hack.lookup name table with
                      | Some _ => true
                      | None => false
                      end
                    | _ => true
                    end) ls.

(** What every program written for a folder begins with: the jump to
    [START] (after the stack pointer is set, if that is asked for), the five
    shared routines, and the label [START]. *)
Definition startAndRoutines (setStackPointer : bool) : string :=
  VM.written
    (VM.prependStartInstructions
       (VM.initial false setStackPointer false EmptyString)
       (VM.prependFunctions ["(START)" ++ Go.nl])).

Definition startLines0 : list Hack.sline :=
  Eval vm_compute in
    map Hack.parseLine (removelast (Hack.sourceLines (startAndRoutines false))).

Definition startLines1 : list Hack.sline :=
  Eval vm_compute in
    map Hack.parseLine (removelast (Hack.sourceLines (startAndRoutines true))).

Definition startLines (setStackPointer : bool) : list Hack.sline :=
  if setStackPointer then startLines1 else startLines0.

Definition startLabels0 : list (string * Z) :=
  Eval vm_compute in
    match Hack.collectLabels startLines0 0 Hack.predefined with
    | Some t => t
    | None => []
    end.

Definition startLabels1 : list (string * Z) :=
  Eval vm_compute in
    match Hack.collectLabels startLines1 0 Hack.predefined with
    | Some t => t
    | None => []
    end.

Definition startLabels (setStackPointer : bool) : list (string * Z) :=
  if setStackPointer then startLabels1 else startLabels0.

Definition startCode0 : list Hack.instr :=
  Eval vm_compute in Hack.resolve startLines0 startLabels0 16.

Definition startCode1 : list Hack.instr :=
  Eval vm_compute in Hack.resolve startLines1 startLabels1 16.

Definition startCode (setStackPointer : bool) : list Hack.instr :=
  if setStackPointer then startCode1 else startCode0.

(** A text in which [static 3] of the unit [Main.vm] is popped to and
    pushed from, after the shared routines. *)
Definition staticText : string :=
  startAndRoutines false
  ++ (VM.handlePop (VM.set_currentFile g0 "Main.vm") "static" 3
      ++ VM.handlePush (VM.set_currentFile g0 "Main.vm") "static" 3)
  ++ EmptyString.

(** * Facts *)

Import Hack.

(** ** Strings *)

Section Strings.

Lemma append_nil_r (s : string) : s ++ EmptyString = s.
Proof. induction s as [|c s IH]; simpl; [reflexivity | now rewrite IH]. Qed.

Lemma append_assoc (a b c : string) : (a ++ b) ++ c = a ++ (b ++ c).
Proof. induction a as [|x a IH]; simpl; [reflexivity | now rewrite IH]. Qed.

Lemma append_cancel_l (s a b : string) : s ++ a = s ++ b -> a = b.
Proof.
  induction s as [|c s IH]; simpl; intros H; [exact H | injection H; auto].
Qed.

Lemma length_append (a b : string) :
  String.length (a ++ b) = (String.length a + String.length b)%nat.
Proof. induction a as [|x a IH]; simpl; [reflexivity | now rewrite IH]. Qed.

Lemma append_cancel_r (s a b : string) : a ++ s = b ++ s -> a = b.
Proof.
  revert b; induction a as [|x a IH]; intros [|y b] H; simpl in H.
  - reflexivity.
  - apply (f_equal String.length) in H. simpl in H.
    rewrite length_append in H. lia.
  - apply (f_equal String.length) in H. simpl in H.
    rewrite length_append in H. lia.
  - injection H as -> H. f_equal. now apply IH.
Qed.

Lemma allChars_append p a b :
  allChars p (a ++ b) = allChars p a && allChars p b.
Proof.
  induction a as [|x a IH]; simpl; [reflexivity | now rewrite IH, andb_assoc].
Qed.

Lemma allChars_weaken (p q : ascii -> bool) s :
  (forall c, p c = true -> q c = true) ->
  allChars p s = true -> allChars q s = true.
Proof.
  intros Hpq; induction s as [|c s IH]; simpl; [reflexivity|].
  rewrite !andb_true_iff. intros [Hc Hs]. auto.
Qed.


Lemma digit_noSpace c r : isDigit c = true -> Go.spaceWidth (String c r) = 0%nat.
Proof.
  destruct c as [[|] [|] [|] [|] [|] [|] [|] [|]]; intros H;
    try discriminate H; reflexivity.
Qed.

Lemma digit_notNewline c : isDigit c = true -> notNewline c = true.
Proof.
  destruct c as [[|] [|] [|] [|] [|] [|] [|] [|]]; intros H;
    try discriminate H; reflexivity.
Qed.


End Strings.

(** ** Decimal numerals *)

Section Numerals.

Lemma digits_of_uint d : allChars isDigit (NilEmpty.string_of_uint d) = true.
Proof. induction d; simpl; auto. Qed.

Lemma to_int_nonneg k :
  0 <= k -> exists d, Z.to_int k = Pos d /\ d <> Nil /\ Z.of_uint d = k.
Proof.
  intros Hk. destruct k as [|p|p]; try lia.
  - exists Decimal.zero. repeat split. discriminate.
  - exists (Pos.to_uint p). repeat split.
    + apply DecimalPos.Unsigned.to_uint_nonnil.
    + change (Z.of_int (Z.to_int (Z.pos p)) = Z.pos p). apply DecimalZ.of_to.
Qed.

Lemma Itoa_digits k : 0 <= k -> allChars isDigit (Go.Itoa k) = true.
Proof.
  intros Hk. destruct (to_int_nonneg k Hk) as (d & Hd & _).
  unfold Go.Itoa. rewrite Hd. apply digits_of_uint.
Qed.

Lemma Itoa_nonempty k : Go.isEmpty (Go.Itoa k) = false.
Proof.
  unfold Go.Itoa. destruct k as [|p|p]; simpl; try reflexivity.
  pose proof (DecimalPos.Unsigned.to_uint_nonnil p) as H.
  destruct (Pos.to_uint p); simpl; congruence.
Qed.

Lemma Itoa_uint k :
  0 <= k ->
  exists d, NilEmpty.uint_of_string (Go.Itoa k) = Some d /\ Z.of_uint d = k.
Proof.
  intros Hk. destruct (to_int_nonneg k Hk) as (d & Hd & _ & Hv).
  exists d. split; [|exact Hv].
  unfold Go.Itoa. rewrite Hd. apply NilEmpty.usu.
Qed.

Lemma Itoa_inj a b : Go.Itoa a = Go.Itoa b -> a = b.
Proof.
  unfold Go.Itoa. intros H. apply DecimalZ.to_int_inj.
  apply (f_equal NilEmpty.int_of_string) in H.
  rewrite !NilEmpty.isi in H. congruence.
Qed.

Lemma Atoi_digit c r :
  isDigit c = true ->
  Go.Atoi (String c r) =
  match NilEmpty.uint_of_string (String c r) with
  | Some d => if Go.in_int (Z.of_uint d) then Some (Z.of_uint d) else None
  | None => None
  end.
Proof.
  destruct c as [[|] [|] [|] [|] [|] [|] [|] [|]]; intros H;
    try discriminate H; reflexivity.
Qed.

Lemma Atoi_Itoa k : 0 <= k <= Go.MaxInt -> Go.Atoi (Go.Itoa k) = Some k.
Proof.
  intros Hk.
  assert (H0 : 0 <= k) by lia.
  pose proof (Itoa_digits k H0) as Hd.
  pose proof (Itoa_nonempty k) as Hn.
  destruct (Itoa_uint k H0) as (d & Hp & Hv).
  destruct (Go.Itoa k) as [|c r] eqn:E; [discriminate Hn|].
  simpl in Hd. apply andb_true_iff in Hd as [Hc _].
  rewrite Atoi_digit by exact Hc. rewrite Hp, Hv.
  unfold Go.in_int, Go.MinInt, Go.MaxInt in *.
  destruct (Z.leb_spec (-9223372036854775808) k); [|lia].
  destruct (Z.leb_spec k 9223372036854775807); [|lia].
  reflexivity.
Qed.

Lemma digits_noSpace s : allChars isDigit s = true -> hasSpace s = false.
Proof.
  induction s as [|c s IH]; intros H; [reflexivity|].
  cbn [allChars] in H. apply andb_true_iff in H as [Hc Hs].
  cbn [hasSpace]. rewrite (digit_noSpace c s Hc), IH by exact Hs. reflexivity.
Qed.

Lemma Itoa_notSpace k : 0 <= k -> hasSpace (Go.Itoa k) = false.
Proof. intros Hk. now apply digits_noSpace, Itoa_digits. Qed.



Lemma Itoa_notNewline k : 0 <= k -> allChars notNewline (Go.Itoa k) = true.
Proof.
  intros Hk.
  eapply allChars_weaken; [apply digit_notNewline | now apply Itoa_digits].
Qed.

Lemma wrap_int_small z : Go.MinInt <= z <= Go.MaxInt -> Go.wrap_int z = z.
Proof.
  unfold Go.wrap_int, Go.MinInt, Go.MaxInt. intros H.
  rewrite Z.mod_small; lia.
Qed.

End Numerals.

(** ** Splitting a command line *)

Ltac split_ifs :=
  repeat match goal with
         | |- context [if ?b then _ else _] => destruct b
         end.

Ltac split_ifs_in H :=
  repeat match type of H with
         | context [if ?b then _ else _] => destruct b
         end.

Section CommandLines.

Lemma eqb_ascii_false g k :
  Go.isAscii g = true -> Go.isAscii k = false -> Ascii.eqb g k = false.
Proof.
  intros Hg Hk. destruct (Ascii.eqb_spec g k) as [->|]; [congruence | reflexivity].
Qed.

Lemma eqb_start_false g k :
  Go.RuneStart g = true -> Go.RuneStart k = false -> Ascii.eqb g k = false.
Proof.
  intros Hg Hk. destruct (Ascii.eqb_spec g k) as [->|]; [congruence | reflexivity].
Qed.

Lemma byteIn_start_false g lo hi :
  Go.RuneStart g = true -> (128 <= lo)%nat -> (hi <= 191)%nat ->
  Go.byteIn lo hi g = false.
Proof.
  unfold Go.RuneStart, Go.byteIn. intros Hg Hlo Hhi.
  apply negb_true_iff in Hg.
  destruct (Nat.leb_spec lo (nat_of_ascii g)) as [H1|H1]; [|reflexivity].
  destruct (Nat.leb_spec (nat_of_ascii g) hi) as [H2|H2]; [|reflexivity].
  destruct (Nat.leb_spec 128 (nat_of_ascii g)); [|lia].
  destruct (Nat.leb_spec (nat_of_ascii g) 191); [discriminate Hg | lia].
Qed.

Ltac start_tests g Hg :=
  rewrite ?(eqb_start_false g "133" Hg eq_refl),
          ?(eqb_start_false g "160" Hg eq_refl),
          ?(eqb_start_false g "154" Hg eq_refl),
          ?(eqb_start_false g "128" Hg eq_refl),
          ?(eqb_start_false g "129" Hg eq_refl),
          ?(eqb_start_false g "159" Hg eq_refl),
          ?(eqb_start_false g "168" Hg eq_refl),
          ?(eqb_start_false g "169" Hg eq_refl),
          ?(eqb_start_false g "175" Hg eq_refl),
          ?(byteIn_start_false g 128 138 Hg (Nat.le_refl 128)
              ltac:(repeat constructor)).

(** A white space character does not reach into a text that begins with a
    byte that is no continuation byte. *)
Lemma spaceWidth_app x rest :
  x <> EmptyString -> headStart rest = true ->
  Go.spaceWidth (x ++ rest) = Go.spaceWidth x.
Proof.
  intros Hx Hr. destruct rest as [|g rest]; [now rewrite append_nil_r|].
  cbn [headStart] in Hr.
  destruct x as [|a [|b [|c x]]]; [congruence| | |];
    cbn [append]; unfold Go.spaceWidth.
  - destruct rest as [|h rest]; start_tests g Hr;
      cbn [andb orb]; split_ifs; reflexivity.
  - start_tests g Hr. rewrite ?andb_false_r. cbn [andb orb].
    split_ifs; reflexivity.
  - reflexivity.
Qed.

Lemma spaceWidth_prefix x z :
  Go.spaceWidth x <> 0%nat -> Go.spaceWidth (x ++ z) = Go.spaceWidth x.
Proof.
  intros H.
  destruct x as [|a [|b [|c x]]]; cbn [append]; try reflexivity.
  - now elim H.
  - unfold Go.spaceWidth in *. destruct (Go.asciiSpace a); [reflexivity|].
    exfalso. apply H. split_ifs; reflexivity.
  - unfold Go.spaceWidth in *. destruct (Go.asciiSpace a); [reflexivity|].
    destruct (Ascii.eqb a "194"); [reflexivity|].
    exfalso. apply H. split_ifs; reflexivity.
Qed.

Lemma spaceWidth_le s : (Go.spaceWidth s <= 3)%nat.
Proof.
  destruct s as [|a [|b [|c x]]]; unfold Go.spaceWidth; split_ifs; lia.
Qed.

Lemma afterSpace_length s r :
  afterSpace s = Some r -> (String.length r < String.length s)%nat.
Proof.
  unfold afterSpace.
  destruct (Go.spaceWidth s) as [|[|[|[|k]]]]; destruct s as [|a [|b [|c x]]];
    intros H; try discriminate H; injection H as <-; cbn [String.length]; lia.
Qed.

Lemma afterSpace_ascii c r :
  Go.isAscii c = true ->
  afterSpace (String c r) = if Go.asciiSpace c then Some r else None.
Proof.
  intros Hc. unfold afterSpace, Go.spaceWidth.
  destruct (Go.asciiSpace c); [reflexivity|].
  rewrite (eqb_ascii_false c "194" Hc eq_refl),
          (eqb_ascii_false c "225" Hc eq_refl),
          (eqb_ascii_false c "226" Hc eq_refl),
          (eqb_ascii_false c "227" Hc eq_refl).
  reflexivity.
Qed.

Lemma width_shape s :
  match Go.spaceWidth s with
  | 0%nat => True
  | 1%nat => exists a r, s = String a r
  | 2%nat => exists a b r, s = String a (String b r)
  | _ => exists a b c r, s = String a (String b (String c r))
  end.
Proof.
  destruct s as [|a [|b [|c x]]]; unfold Go.spaceWidth; split_ifs; eauto.
Qed.

Lemma afterSpace_None s : afterSpace s = None <-> Go.spaceWidth s = 0%nat.
Proof.
  unfold afterSpace. pose proof (width_shape s) as Hs.
  pose proof (spaceWidth_le s) as Hle.
  destruct (Go.spaceWidth s) as [|[|[|[|k]]]]; try lia.
  - tauto.
  - destruct Hs as (a & r & ->). split; discriminate.
  - destruct Hs as (a & b & r & ->). split; discriminate.
  - destruct Hs as (a & b & c & r & ->). split; discriminate.
Qed.

Lemma afterSpace_app_some x r z :
  afterSpace x = Some r -> afterSpace (x ++ z) = Some (r ++ z).
Proof.
  intros H. assert (Hw : Go.spaceWidth x <> 0%nat).
  { intros E. apply afterSpace_None in E. congruence. }
  unfold afterSpace in *. rewrite (spaceWidth_prefix x z Hw).
  destruct (Go.spaceWidth x) as [|[|[|[|k]]]]; destruct x as [|a [|b [|c x]]];
    try discriminate H; injection H as <-; reflexivity.
Qed.

Lemma afterSpace_app_none x rest :
  x <> EmptyString -> headStart rest = true ->
  afterSpace x = None -> afterSpace (x ++ rest) = None.
Proof.
  intros Hx Hr H. apply afterSpace_None. rewrite spaceWidth_app by assumption.
  now apply afterSpace_None.
Qed.

(** The functions, by the white space character at the head. *)
Lemma trimLeft_unfold s :
  Go.trimLeft s = match afterSpace s with Some r => Go.trimLeft r | None => s end.
Proof.
  destruct s as [|a r1]; [reflexivity|].
  cbn [Go.trimLeft]. unfold afterSpace.
  pose proof (width_shape (String a r1)) as Hs.
  pose proof (spaceWidth_le (String a r1)) as Hle.
  destruct (Go.spaceWidth (String a r1)) as [|[|[|[|k]]]]; try lia; try reflexivity.
  - destruct Hs as (a' & b & r & E). injection E as -> ->. reflexivity.
  - destruct Hs as (a' & b & c & r & E). injection E as -> ->. reflexivity.
Qed.

Lemma allSpaces_unfold a r1 :
  Go.allSpaces (String a r1)
  = match afterSpace (String a r1) with Some r => Go.allSpaces r | None => false end.
Proof.
  cbn [Go.allSpaces]. unfold afterSpace.
  pose proof (width_shape (String a r1)) as Hs.
  pose proof (spaceWidth_le (String a r1)) as Hle.
  destruct (Go.spaceWidth (String a r1)) as [|[|[|[|k]]]]; try lia; try reflexivity.
  - destruct Hs as (a' & b & r & E). injection E as -> ->. reflexivity.
  - destruct Hs as (a' & b & c & r & E). injection E as -> ->. reflexivity.
Qed.

Lemma fieldsFrom_unfold a r1 cur :
  Go.fieldsFrom (String a r1) cur
  = match afterSpace (String a r1) with
    | Some r => if Go.isEmpty cur then Go.fieldsFrom r EmptyString
                else cur :: Go.fieldsFrom r EmptyString
    | None => Go.fieldsFrom r1 (cur ++ String a EmptyString)
    end.
Proof.
  cbn [Go.fieldsFrom]. unfold afterSpace.
  pose proof (width_shape (String a r1)) as Hs.
  pose proof (spaceWidth_le (String a r1)) as Hle.
  destruct (Go.spaceWidth (String a r1)) as [|[|[|[|k]]]]; try lia; try reflexivity.
  - destruct Hs as (a' & b & r & E). injection E as -> ->. reflexivity.
  - destruct Hs as (a' & b & c & r & E). injection E as -> ->. reflexivity.
Qed.

Lemma by_length (P : string -> Prop) :
  (forall s, (forall r, (String.length r < String.length s)%nat -> P r) -> P s) ->
  forall s, P s.
Proof.
  intros H s. remember (String.length s) as n eqn:E. revert s E.
  induction n as [n IH] using lt_wf_ind. intros s ->.
  apply H. intros r Hr. now apply (IH (String.length r)).
Qed.

Lemma allSpaces_app rest :
  headStart rest = true ->
  forall x, Go.allSpaces (x ++ rest) = Go.allSpaces x && Go.allSpaces rest.
Proof.
  intros Hr. apply (by_length (fun x => _)). intros x IH.
  destruct x as [|a x]; [reflexivity|].
  rewrite (allSpaces_unfold a x).
  change (String a x ++ rest) with (String a (x ++ rest)).
  rewrite allSpaces_unfold.
  change (String a (x ++ rest)) with (String a x ++ rest).
  destruct (afterSpace (String a x)) as [r|] eqn:E.
  - rewrite (afterSpace_app_some _ _ rest E). apply IH.
    now apply afterSpace_length.
  - rewrite afterSpace_app_none by (assumption || discriminate). reflexivity.
Qed.

Lemma allSpaces_prefix z :
  forall u, Go.allSpaces u = true -> Go.allSpaces (u ++ z) = Go.allSpaces z.
Proof.
  apply (by_length (fun u => _ -> _)). intros u IH Hu.
  destruct u as [|a u]; [reflexivity|].
  rewrite allSpaces_unfold in Hu.
  change (String a u ++ z) with (String a (u ++ z)).
  destruct z as [|c z]; [now rewrite append_nil_r, allSpaces_unfold|].
  rewrite allSpaces_unfold.
  change (String a (u ++ String c z)) with (String a u ++ String c z).
  destruct (afterSpace (String a u)) as [r|] eqn:E; [|discriminate Hu].
  rewrite (afterSpace_app_some _ _ _ E). apply IH; [|exact Hu].
  now apply afterSpace_length.
Qed.

Lemma trimRight_allSpaces s : Go.allSpaces s = true -> Go.trimRight s = EmptyString.
Proof. destruct s as [|a s]; [reflexivity|]. cbn [Go.trimRight]. now intros ->. Qed.

Lemma trimLeft_app rest :
  headStart rest = true ->
  forall x,
    Go.trimLeft (x ++ rest)
    = if Go.isEmpty (Go.trimLeft x) then Go.trimLeft rest else Go.trimLeft x ++ rest.
Proof.
  intros Hr. apply (by_length (fun x => _)). intros x IH.
  destruct x as [|a x]; [reflexivity|].
  rewrite (trimLeft_unfold (String a x)), (trimLeft_unfold (String a x ++ rest)).
  destruct (afterSpace (String a x)) as [r|] eqn:E.
  - rewrite (afterSpace_app_some _ _ rest E). apply IH.
    now apply afterSpace_length.
  - rewrite afterSpace_app_none by (assumption || discriminate). reflexivity.
Qed.

Lemma trimRight_before rest x :
  headStart rest = true ->
  Go.trimRight (x ++ rest)
  = if Go.allSpaces rest then Go.trimRight x else x ++ Go.trimRight rest.
Proof.
  intros Hr. induction x as [|a x IH].
  - cbn [append Go.trimRight]. destruct (Go.allSpaces rest) eqn:E; [|reflexivity].
    now apply trimRight_allSpaces.
  - change (String a x ++ rest) with (String a (x ++ rest)).
    cbn [Go.trimRight]. rewrite IH.
    change (String a (x ++ rest)) with (String a x ++ rest).
    rewrite (allSpaces_app rest Hr (String a x)).
    destruct (Go.allSpaces rest); [now rewrite andb_true_r|].
    now rewrite andb_false_r.
Qed.

Lemma trimLeft_head s :
  Go.trimLeft s = EmptyString \/ afterSpace (Go.trimLeft s) = None.
Proof.
  revert s. apply (by_length (fun s => _)). intros s IH.
  rewrite (trimLeft_unfold s).
  destruct (afterSpace s) as [r|] eqn:E; [|now right].
  apply IH. now apply afterSpace_length.
Qed.

Lemma afterSpace_allChars p s r :
  afterSpace s = Some r -> allChars p s = true -> allChars p r = true.
Proof.
  unfold afterSpace.
  destruct (Go.spaceWidth s) as [|[|[|[|k]]]]; destruct s as [|a [|b [|c x]]];
    intros H; try discriminate H; injection H as <-; cbn [allChars];
    rewrite ?andb_true_iff; tauto.
Qed.

Lemma trimLeft_allChars p :
  forall s, allChars p s = true -> allChars p (Go.trimLeft s) = true.
Proof.
  apply (by_length (fun s => _ -> _)). intros s IH Hs.
  rewrite (trimLeft_unfold s).
  destruct (afterSpace s) as [r|] eqn:E; [|exact Hs].
  apply IH; [now apply afterSpace_length|].
  exact (afterSpace_allChars p s r E Hs).
Qed.

Lemma trimRight_allChars p s :
  allChars p s = true -> allChars p (Go.trimRight s) = true.
Proof.
  induction s as [|a s IH]; intros Hs; [reflexivity|].
  cbn [allChars] in Hs. apply andb_true_iff in Hs as [Ha Hs].
  cbn [Go.trimRight]. destruct (Go.allSpaces (String a s)); [reflexivity|].
  cbn [allChars]. now rewrite Ha, IH.
Qed.

Lemma trimRight_split s :
  exists z, s = Go.trimRight s ++ z /\ Go.allSpaces z = true.
Proof.
  induction s as [|a s (z & Hz & Hs)].
  - exists EmptyString. split; reflexivity.
  - cbn [Go.trimRight]. destruct (Go.allSpaces (String a s)) eqn:E.
    + exists (String a s). split; [reflexivity | exact E].
    + exists z. split; [|exact Hs]. cbn [append]. now rewrite <- Hz.
Qed.

Lemma trimRight_idem s : Go.trimRight (Go.trimRight s) = Go.trimRight s.
Proof.
  induction s as [|a s IH]; [reflexivity|].
  cbn [Go.trimRight]. destruct (Go.allSpaces (String a s)) eqn:E; [reflexivity|].
  cbn [Go.trimRight]. rewrite IH.
  destruct (Go.allSpaces (String a (Go.trimRight s))) eqn:E'; [|reflexivity].
  exfalso. destruct (trimRight_split s) as (z & Hz & Hs).
  pose proof (allSpaces_prefix z _ E') as H.
  change (String a (Go.trimRight s) ++ z) with (String a (Go.trimRight s ++ z)) in H.
  rewrite <- Hz in H. congruence.
Qed.

Lemma trimRight_head a s :
  Go.allSpaces (String a s) = false ->
  Go.trimRight (String a s) = String a (Go.trimRight s).
Proof. intros H. cbn [Go.trimRight]. now rewrite H. Qed.

Lemma hasSpace_cons a s :
  hasSpace (String a s) = false ->
  afterSpace (String a s) = None /\ hasSpace s = false.
Proof.
  cbn [hasSpace]. intros H. apply orb_false_iff in H as [H1 H2].
  split; [|exact H2]. apply afterSpace_None.
  apply negb_false_iff in H1. now apply Nat.eqb_eq in H1.
Qed.

Lemma fieldsFrom_word s : forall cur,
  hasSpace s = false ->
  Go.fieldsFrom s cur = if Go.isEmpty (cur ++ s) then [] else [cur ++ s].
Proof.
  induction s as [|c s IH]; intros cur H.
  - cbn [Go.fieldsFrom]. now rewrite append_nil_r.
  - apply hasSpace_cons in H as [Hc Hs].
    rewrite fieldsFrom_unfold, Hc, IH by exact Hs.
    rewrite append_assoc. reflexivity.
Qed.

Lemma fieldsFrom_word_then w rest : forall cur,
  hasSpace w = false -> headStart rest = true ->
  Go.fieldsFrom (w ++ rest) cur = Go.fieldsFrom rest (cur ++ w).
Proof.
  induction w as [|c w IH]; intros cur H Hr.
  - cbn [append]. now rewrite append_nil_r.
  - apply hasSpace_cons in H as [Hc Hs].
    change (String c w ++ rest) with (String c (w ++ rest)).
    rewrite fieldsFrom_unfold.
    change (String c (w ++ rest)) with (String c w ++ rest).
    rewrite afterSpace_app_none by (assumption || discriminate).
    rewrite IH by assumption. now rewrite append_assoc.
Qed.


Lemma fieldsFrom_prefix p s : forall cur,
  endsWithSpace p = true -> allChars Go.isAscii p = true ->
  Go.fieldsFrom (p ++ s) cur = (Go.fieldsFrom p cur ++ Go.fieldsFrom s EmptyString)%list.
Proof.
  induction p as [|c p IH]; intros cur H Ha; [discriminate H|].
  cbn [allChars] in Ha. apply andb_true_iff in Ha as [Hc Ha].
  change (String c p ++ s) with (String c (p ++ s)).
  rewrite !fieldsFrom_unfold, !(afterSpace_ascii c _ Hc).
  destruct p as [|c' p].
  - cbn [endsWithSpace] in H. rewrite H. cbn [append Go.fieldsFrom].
    destruct (Go.isEmpty cur); reflexivity.
  - change (endsWithSpace (String c (String c' p)))
      with (endsWithSpace (String c' p)) in H.
    destruct (Go.asciiSpace c); [destruct (Go.isEmpty cur)|];
      rewrite IH by assumption; reflexivity.
Qed.

(** A key word followed by one argument. *)
Lemma Fields_two p w :
  endsWithSpace p = true -> allChars Go.isAscii p = true ->
  hasSpace w = false -> Go.isEmpty w = false ->
  Go.Fields (p ++ w) = (Go.fieldsFrom p EmptyString ++ [w])%list.
Proof.
  intros Hp Ha Hw Hn. unfold Go.Fields.
  rewrite fieldsFrom_prefix by assumption.
  rewrite (fieldsFrom_word w) by exact Hw.
  cbn [append]. now rewrite Hn.
Qed.

Lemma trimLeft_word s :
  afterSpace s = None -> Go.trimLeft s = s.
Proof. intros H. now rewrite trimLeft_unfold, H. Qed.



Lemma SplitHead_none s : allChars notSlash s = true -> Go.SplitHead s "//" = s.
Proof.
  induction s as [|c s IH]; intros H; [reflexivity|].
  simpl in H. apply andb_true_iff in H as [Hc Hs].
  cbn [Go.SplitHead]. rewrite IH by exact Hs.
  unfold notSlash, Go.isSlash in Hc. apply negb_true_iff in Hc.
  cbn [String.prefix].
  destruct (ascii_dec "/" c) as [E|E]; [subst c; discriminate Hc | reflexivity].
Qed.

Lemma prefix_slashes c r :
  Go.isSlash c = false -> Go.HasPrefix (String c r) "//" = false.
Proof.
  unfold Go.HasPrefix, Go.isSlash. intros H. cbn [String.prefix].
  destruct (ascii_dec "/" c) as [E|E]; [subst c; discriminate H | reflexivity].
Qed.

End CommandLines.

(** ** The translator's variables along a translation *)

Section TranslatorState.

Lemma function_Ok g name nVars numVars :
  Go.Atoi nVars = Some numVars ->
  VM.function g name nVars
  = Ok (VM.set_funcStack g
          {| VM.current := name;
             VM.returnCounter := VM.returnCounter (VM.funcStack g) |},
        blockText
          (("(" ++ Go.Base (VM.pathToTranslate g) ++ "." ++ name ++ ")")
           :: List.concat
                (repeat ["@SP"; "A=M"; "M=0"; "@SP"; "M=M+1"]
                   (Z.to_nat numVars)))).
Proof. intros H. unfold VM.function. rewrite H. reflexivity. Qed.

Lemma function_state g name nVars g' out :
  VM.function g name nVars = Ok (g', out) ->
  VM.pathToTranslate g' = VM.pathToTranslate g
  /\ VM.returnCounter (VM.funcStack g') = VM.returnCounter (VM.funcStack g)
  /\ VM.current (VM.funcStack g') = name.
Proof.
  unfold VM.function. destruct (Go.Atoi nVars); [|discriminate].
  intros H. injection H as <- _. auto.
Qed.

Lemma callFunction_state g name nArgs g' out :
  VM.callFunction g name nArgs = Ok (g', out) ->
  VM.pathToTranslate g' = VM.pathToTranslate g
  /\ VM.returnCounter (VM.funcStack g')
     = Go.wrap_int (VM.returnCounter (VM.funcStack g) + 1)
  /\ VM.current (VM.funcStack g') = VM.current (VM.funcStack g).
Proof.
  unfold VM.callFunction. destruct (Go.Atoi nArgs); [|discriminate].
  intros H. injection H as <- _. auto.
Qed.

Lemma operation_state g op g' out :
  VM.operation g op = Ok (g', out) ->
  VM.pathToTranslate g' = VM.pathToTranslate g
  /\ VM.funcStack g' = VM.funcStack g.
Proof.
  unfold VM.operation, VM.eq, VM.gt, VM.lt.
  repeat match goal with
         | |- context [if ?b then _ else _] => destruct b
         end;
    intros H; try discriminate H; injection H as <- _; auto.
Qed.

(** One command keeps the path; a call adds one to the call counter, any
    other command leaves it as it is. *)
Lemma parseCommand_state g line g' out :
  VM.parseCommand g line = Ok (g', out) ->
  VM.pathToTranslate g' = VM.pathToTranslate g
  /\ (VM.returnCounter (VM.funcStack g') = VM.returnCounter (VM.funcStack g)
      \/ (Go.index (Go.Fields line) 0 = Ok "call"
          /\ VM.returnCounter (VM.funcStack g')
             = Go.wrap_int (VM.returnCounter (VM.funcStack g) + 1))).
Proof.
  unfold VM.parseCommand.
  destruct (Go.index (Go.Fields line) 0) as [first| |]; cbn [bind];
    try discriminate.
  destruct (String.eqb first "function").
  { destruct (Go.index (Go.Fields line) 1) as [name| |]; cbn [bind];
      try discriminate.
    destruct (Go.index (Go.Fields line) 2) as [nVars| |]; cbn [bind];
      try discriminate.
    intros H. apply function_state in H as (Hp & Hc & _). auto. }
  destruct (String.eqb_spec first "call") as [Hcall|_].
  { destruct (Go.index (Go.Fields line) 1) as [name| |]; cbn [bind];
      try discriminate.
    destruct (Go.index (Go.Fields line) 2) as [nArgs| |]; cbn [bind];
      try discriminate.
    intros H. apply callFunction_state in H as (Hp & Hc & _).
    subst first. auto. }
  destruct (String.eqb first "return").
  { intros H. injection H as <- _. auto. }
  destruct (String.eqb first "goto").
  { destruct (Go.index (Go.Fields line) 1) as [l| |]; cbn [bind];
      try discriminate.
    intros H. injection H as <- _. auto. }
  destruct (String.eqb first "if-goto").
  { destruct (Go.index (Go.Fields line) 1) as [l| |]; cbn [bind];
      try discriminate.
    intros H. injection H as <- _. auto. }
  destruct (String.eqb first "label").
  { destruct (Go.index (Go.Fields line) 1) as [l| |]; cbn [bind];
      try discriminate.
    intros H. injection H as <- _. auto. }
  destruct (List.length (Go.Fields line) =? 1)%nat.
  { destruct (VM.operation g first) as [[g1 o]| |] eqn:E; cbn [bind];
      try discriminate.
    intros H. injection H as <- _. cbn [fst].
    apply operation_state in E as [Hp Hs]. rewrite Hs. auto. }
  destruct (Go.index (Go.Fields line) 2) as [third| |]; cbn [bind];
    try discriminate.
  destruct (Go.Atoi third); [|discriminate].
  destruct (Go.index (Go.Fields line) 1) as [second| |]; cbn [bind];
    try discriminate.
  destruct (String.eqb first "push"); [intros H; injection H as <- _; auto|].
  destruct (String.eqb first "pop"); [intros H; injection H as <- _; auto|].
  discriminate.
Qed.

(** Over the lines of a unit the call counter grows by at most the number of
    lines, as long as it stays below the largest [int]. *)
Lemma Parse_state : forall scanned g g' outs,
  VM.Parse g scanned = Ok (g', outs) ->
  0 <= VM.returnCounter (VM.funcStack g) ->
  VM.returnCounter (VM.funcStack g) + Z.of_nat (List.length scanned) <= Go.MaxInt ->
  VM.pathToTranslate g' = VM.pathToTranslate g
  /\ VM.returnCounter (VM.funcStack g) <= VM.returnCounter (VM.funcStack g')
     <= VM.returnCounter (VM.funcStack g) + Z.of_nat (List.length scanned).
Proof.
  induction scanned as [|line rest IH]; intros g g' outs H H0 Hmax.
  - cbn [VM.Parse] in H. injection H as <- _. cbn [List.length].
    split; [reflexivity | lia].
  - cbn [VM.Parse] in H. cbn [List.length] in Hmax |- *.
    rewrite Nat2Z.inj_succ in Hmax |- *.
    destruct (Go.HasPrefix (Go.TrimSpace line) "//"
              || Go.isEmpty (Go.TrimSpace line)).
    + apply IH in H; [|lia|lia]. destruct H as [Hp Hc]. split; [exact Hp | lia].
    + destruct (VM.parseCommand g _) as [[g1 o1]| |] eqn:E1; cbn [bind] in H;
        try discriminate H.
      cbn [fst snd] in H.
      destruct (VM.Parse g1 rest) as [[g2 o2]| |] eqn:E2; cbn [bind] in H;
        try discriminate H.
      injection H as <- _. cbn [fst].
      apply parseCommand_state in E1 as [Hp1 Hc1].
      assert (Hc : VM.returnCounter (VM.funcStack g)
                   <= VM.returnCounter (VM.funcStack g1)
                   <= VM.returnCounter (VM.funcStack g) + 1).
      { destruct Hc1 as [-> | [_ ->]]; [lia|].
        rewrite wrap_int_small; unfold Go.MinInt, Go.MaxInt in *; lia. }
      apply IH in E2; [|lia|lia]. destruct E2 as [Hp2 Hc2].
      split; [congruence | lia].
Qed.

End TranslatorState.

(** ** Symbols *)

Section Symbols.

Lemma Join_cons x zs sep :
  Go.Join (x :: zs) sep
  = x ++ match zs with [] => EmptyString | _ => sep ++ Go.Join zs sep end.
Proof. destruct zs; cbn [Go.Join]; [now rewrite append_nil_r | reflexivity]. Qed.

Lemma blockText_head_inj x y zs :
  blockText (x :: zs) = blockText (y :: zs) -> x = y.
Proof.
  unfold blockText. rewrite !Join_cons, !append_assoc.
  apply append_cancel_r.
Qed.

Lemma blockText_mid_inj pre x y post :
  blockText (pre ++ x :: post) = blockText (pre ++ y :: post) -> x = y.
Proof.
  induction pre as [|p pre IH]; cbn [List.app].
  - apply blockText_head_inj.
  - unfold blockText in *. rewrite !Join_cons, !append_assoc.
    intros E. apply append_cancel_l in E.
    destruct pre; cbn [List.app] in *; apply IH;
      rewrite !append_assoc in E; apply append_cancel_l in E; exact E.
Qed.

(** Claim C2, as the translator has it: the entry label of a function is its
    name behind the base name of the translated path; the source unit does
    not enter it, and functions of different names get different labels. *)
Theorem function_entry_label (g : VM.globals) (name nVars : string) (numVars : Z) :
  Go.Atoi nVars = Some numVars ->
  exists g' locals,
    VM.function g name nVars
    = Ok (g', blockText
                (("(" ++ Go.Base (VM.pathToTranslate g) ++ "." ++ name ++ ")")
                 :: locals))
    /\ VM.current (VM.funcStack g') = name
    /\ (forall unit,
          emitted (VM.function (VM.set_currentFile g unit) name nVars)
          = emitted (VM.function g name nVars))
    /\ (forall name',
          name' <> name ->
          emitted (VM.function g name' nVars) <> emitted (VM.function g name nVars)).
Proof.
  intros H. eexists. eexists. split; [|split; [|split]].
  - apply function_Ok. exact H.
  - reflexivity.
  - intros unit. rewrite !(function_Ok _ _ _ _ H). reflexivity.
  - intros name' Hne. rewrite !(function_Ok _ _ _ _ H). cbn [emitted].
    intros E. injection E as E. apply blockText_head_inj in E.
    injection E as E. apply append_cancel_l in E. injection E as E.
    apply append_cancel_r in E. contradiction.
Qed.

Lemma function_entry_label_witness :
  exists g' locals,
    VM.function g0 "Main.f" "2"
    = Ok (g', blockText (("(" ++ Go.Base "Prog" ++ "." ++ "Main.f" ++ ")") :: locals))
    /\ VM.current (VM.funcStack g') = "Main.f"
    /\ (forall unit,
          emitted (VM.function (VM.set_currentFile g0 unit) "Main.f" "2")
          = emitted (VM.function g0 "Main.f" "2"))
    /\ (forall name',
          name' <> "Main.f" ->
          emitted (VM.function g0 name' "2") <> emitted (VM.function g0 "Main.f" "2")).
Proof. apply (function_entry_label g0 "Main.f" "2" 2). reflexivity. Defined.

(** Claim C2, as stated, fails: the function [f] of the unit [A] and the
    function [f] of the unit [B], translated together, get the same entry
    label. *)
Lemma same_function_name_in_two_units :
  emitted
    (VM.parseFiles g0
       [("Prog/A.vm", ["function f 0"]); ("Prog/B.vm", ["function f 0"])])
  = Some ["(Prog.f)" ++ Go.nl; "(Prog.f)" ++ Go.nl].
Proof. vm_compute. reflexivity. Qed.

(** Claim C5: label, goto and if-goto use the symbol [f$l], where [f] is the
    name of the enclosing function as the last function command gave it; the
    same label name in functions of different names gives different symbols
    and different emitted text. *)
Theorem label_symbol_scoped_by_function (g : VM.globals) (l : string) :
  let f := VM.current (VM.funcStack g) in
  VM.label g l = "(" ++ (f ++ "$" ++ l) ++ ")" ++ Go.nl
  /\ VM.gotoLabel g l = blockText ["@" ++ (f ++ "$" ++ l); "0;JMP"]
  /\ VM.ifGoto g l
     = blockText ["@SP"; "AM=M-1"; "D=M"; "@" ++ (f ++ "$" ++ l); "D;JNE"]
  /\ (forall name nVars g1 out,
        VM.function g name nVars = Ok (g1, out) ->
        VM.label g1 l = "(" ++ (name ++ "$" ++ l) ++ ")" ++ Go.nl)
  /\ (forall g',
        VM.current (VM.funcStack g') <> f ->
        VM.current (VM.funcStack g') ++ "$" ++ l <> f ++ "$" ++ l
        /\ VM.label g' l <> VM.label g l
        /\ VM.gotoLabel g' l <> VM.gotoLabel g l
        /\ VM.ifGoto g' l <> VM.ifGoto g l).
Proof.
  intros f. split; [reflexivity|]. split; [reflexivity|].
  split; [reflexivity|]. split.
  - intros name nVars g1 out H. apply function_state in H as (_ & _ & Hc).
    unfold VM.label. now rewrite Hc.
  - intros g' Hne.
    assert (Hsym : VM.current (VM.funcStack g') ++ "$" ++ l <> f ++ "$" ++ l).
    { intros E. apply append_cancel_r in E. contradiction. }
    split; [exact Hsym|]. unfold VM.label, VM.gotoLabel, VM.ifGoto. fold f.
    split; [|split]; intros E.
    + apply append_cancel_l in E. apply append_cancel_r in E. exact (Hsym E).
    + apply blockText_head_inj in E. apply append_cancel_l in E. exact (Hsym E).
    + apply (blockText_mid_inj ["@SP"; "AM=M-1"; "D=M"]) in E.
      apply append_cancel_l in E. exact (Hsym E).
Qed.

Lemma label_symbol_scoped_by_function_witness :
  VM.label g0 "LOOP" = "(Sys.init$LOOP)" ++ Go.nl
  /\ VM.label
       (VM.set_funcStack g0 {| VM.current := "Main.f"; VM.returnCounter := 0 |})
       "LOOP"
     <> VM.label g0 "LOOP".
Proof.
  pose proof (label_symbol_scoped_by_function g0 "LOOP") as H.
  cbv zeta in H. destruct H as (Hl & _ & _ & _ & Hd).
  split; [exact Hl|].
  refine (proj1 (proj2 (Hd (VM.set_funcStack g0
           {| VM.current := "Main.f"; VM.returnCounter := 0 |}) _))).
  vm_compute. discriminate.
Defined.

(** Claim C5, as stated, fails: the symbol of a label holds the name of the
    function as the function command gives it, without the name of the
    program that the entry label of the function and the symbols of a call
    carry. *)
Lemma label_symbol_without_program_name :
  emitted
    (VM.Parse g0 ["function Main.f 0"; "label LOOP"; "goto LOOP";
                  "if-goto LOOP"; "call Main.f 0"])
  = Some ["(Prog.Main.f)" ++ Go.nl;
          "(Main.f$LOOP)" ++ Go.nl;
          blockText ["@Main.f$LOOP"; "0;JMP"];
          blockText ["@SP"; "AM=M-1"; "D=M"; "@Main.f$LOOP"; "D;JNE"];
          blockText
            ["@Prog.Main.f"; "D=A"; "@R13"; "M=D"; "@0"; "D=A"; "@R14"; "M=D";
             "@Prog.Main.f$ret0"; "D=A"; "@CALL"; "0;JMP"; "(Prog.Main.f$ret0)"]].
Proof. vm_compute. reflexivity. Qed.

End Symbols.

(** ** Call sites *)

Section CallSites.

Lemma callFunction_Ok g name nArgs numArgs :
  Go.Atoi nArgs = Some numArgs ->
  VM.callFunction g name nArgs
  = Ok (VM.set_funcStack g
          {| VM.current := VM.current (VM.funcStack g);
             VM.returnCounter :=
               Go.wrap_int (VM.returnCounter (VM.funcStack g) + 1) |},
        blockText
          ["@" ++ VM.getFolderName g ++ "." ++ name; "D=A"; "@R13"; "M=D";
           "@" ++ Go.Itoa numArgs; "D=A"; "@R14"; "M=D";
           "@" ++ (VM.getFolderName g ++ "." ++ VM.current (VM.funcStack g)
                   ++ "$ret" ++ Go.Itoa (VM.returnCounter (VM.funcStack g)));
           "D=A"; "@CALL"; "0;JMP";
           "(" ++ (VM.getFolderName g ++ "." ++ VM.current (VM.funcStack g)
                   ++ "$ret" ++ Go.Itoa (VM.returnCounter (VM.funcStack g)))
           ++ ")"]).
Proof. intros H. unfold VM.callFunction. rewrite H. reflexivity. Qed.

(** Claim C6: the return address of a call is the symbol
    [<program>.<caller>$ret<N>] with [N] the call counter.  A call adds one
    to the counter and no other command changes it, so over the commands
    that follow [N] only grows, and a later call from the same caller gets
    a different symbol. *)
Theorem return_label_per_call
    (g : VM.globals) (name nArgs : string) (numArgs : Z) :
  Go.Atoi nArgs = Some numArgs ->
  let returnLabel := fun h : VM.globals =>
    VM.getFolderName h ++ "." ++ VM.current (VM.funcStack h) ++ "$ret"
    ++ Go.Itoa (VM.returnCounter (VM.funcStack h)) in
  exists g1,
    VM.callFunction g name nArgs
    = Ok (g1, blockText
                ["@" ++ VM.getFolderName g ++ "." ++ name; "D=A"; "@R13"; "M=D";
                 "@" ++ Go.Itoa numArgs; "D=A"; "@R14"; "M=D";
                 "@" ++ returnLabel g; "D=A"; "@CALL"; "0;JMP";
                 "(" ++ returnLabel g ++ ")"])
    /\ VM.current (VM.funcStack g1) = VM.current (VM.funcStack g)
    /\ VM.returnCounter (VM.funcStack g1)
       = Go.wrap_int (VM.returnCounter (VM.funcStack g) + 1)
    /\ (forall line g' out,
          VM.parseCommand g line = Ok (g', out) ->
          Go.index (Go.Fields line) 0 <> Ok "call" ->
          VM.returnCounter (VM.funcStack g') = VM.returnCounter (VM.funcStack g))
    /\ (forall between g2 outs,
          VM.Parse g1 between = Ok (g2, outs) ->
          0 <= VM.returnCounter (VM.funcStack g) ->
          VM.returnCounter (VM.funcStack g) + 1 + Z.of_nat (List.length between)
          <= Go.MaxInt ->
          VM.returnCounter (VM.funcStack g) < VM.returnCounter (VM.funcStack g2)
          /\ (VM.current (VM.funcStack g2) = VM.current (VM.funcStack g) ->
              returnLabel g2 <> returnLabel g)).
Proof.
  intros H returnLabel.
  pose proof (callFunction_Ok g name nArgs numArgs H) as E.
  pose proof (callFunction_state _ _ _ _ _ E) as (Hp & Hc & Hf).
  eexists. split; [exact E|]. split; [exact Hf|]. split; [exact Hc|].
  set (g1 := VM.set_funcStack g _) in *. clearbody g1. clear E.
  split.
  - intros line g' out HP Hne.
    apply parseCommand_state in HP as [_ [Hsame | [Hcall _]]];
      [exact Hsame | contradiction].
  - intros between g2 outs HP H0 Hmax.
    assert (Hc1 : VM.returnCounter (VM.funcStack g1)
                  = VM.returnCounter (VM.funcStack g) + 1).
    { rewrite Hc. apply wrap_int_small. unfold Go.MinInt, Go.MaxInt in *. lia. }
    apply Parse_state in HP as [Hp2 Hc2]; [|lia|lia].
    split; [lia|]. intros Hcur E2. unfold returnLabel, VM.getFolderName in E2.
    rewrite Hp2, Hp, Hcur in E2.
    do 4 apply append_cancel_l in E2. apply Itoa_inj in E2. lia.
Qed.

Lemma return_label_per_call_witness :
  emitted (VM.Parse g0 ["call Main.f 0"; "push constant 1"; "call Main.f 1"])
  = Some [blockText
            ["@Prog.Main.f"; "D=A"; "@R13"; "M=D"; "@0"; "D=A"; "@R14"; "M=D";
             "@Prog.Sys.init$ret0"; "D=A"; "@CALL"; "0;JMP"; "(Prog.Sys.init$ret0)"];
          blockText ["@1"; "D=A"; "@SP"; "AM=M+1"; "A=A-1"; "M=D"];
          blockText
            ["@Prog.Main.f"; "D=A"; "@R13"; "M=D"; "@1"; "D=A"; "@R14"; "M=D";
             "@Prog.Sys.init$ret1"; "D=A"; "@CALL"; "0;JMP"; "(Prog.Sys.init$ret1)"]]
  /\ exists g1,
       emitted (VM.callFunction g0 "Main.f" "0")
       = emitted (Ok (g1, blockText
            ["@Prog.Main.f"; "D=A"; "@R13"; "M=D"; "@0"; "D=A"; "@R14"; "M=D";
             "@Prog.Sys.init$ret0"; "D=A"; "@CALL"; "0;JMP"; "(Prog.Sys.init$ret0)"]))
       /\ VM.returnCounter (VM.funcStack g1) = 1.
Proof.
  split; [vm_compute; reflexivity|].
  destruct (return_label_per_call g0 "Main.f" "0" 0 eq_refl)
    as (g1 & Hcall & _ & Hc & _ & _).
  exists g1. split; [rewrite Hcall; reflexivity | exact Hc].
Defined.

(** Claim C6, as stated, fails: the counter is not kept per caller.  The
    first call of the function [Main.g] gets the number 1, because the
    function [Main.f] has made a call before it. *)
Lemma return_counter_shared_by_callers :
  emitted
    (VM.Parse g0 ["function Main.f 0"; "call Main.h 0";
                  "function Main.g 0"; "call Main.h 0"])
  = Some ["(Prog.Main.f)" ++ Go.nl;
          blockText
            ["@Prog.Main.h"; "D=A"; "@R13"; "M=D"; "@0"; "D=A"; "@R14"; "M=D";
             "@Prog.Main.f$ret0"; "D=A"; "@CALL"; "0;JMP"; "(Prog.Main.f$ret0)"];
          "(Prog.Main.g)" ++ Go.nl;
          blockText
            ["@Prog.Main.h"; "D=A"; "@R13"; "M=D"; "@0"; "D=A"; "@R14"; "M=D";
             "@Prog.Main.g$ret1"; "D=A"; "@CALL"; "0;JMP"; "(Prog.Main.g$ret1)"]].
Proof. vm_compute. reflexivity. Qed.

End CallSites.

(** ** Commands the translator does not reject *)

Section Accepted.

(** Claim C7 fails on the translator as it stands: a push or pop on an unknown
    segment, or on [pointer] with an index other than 0 and 1, yields an
    empty block and no error, and the translation goes on.  The earliest
    revision reports the error for the same commands. *)
Theorem unknown_segment_emits_empty_block (g : VM.globals) :
  VM.parseCommand g "push pointer 2" = Ok (g, Go.nl)
  /\ VM.parseCommand g "pop pointer 2" = Ok (g, Go.nl)
  /\ VM.parseCommand g "push heap 3" = Ok (g, Go.nl)
  /\ VM.parseCommand g "pop heap 3" = Ok (g, Go.nl)
  /\ emitted (VM.Parse g ["push pointer 2"; "pop heap 3"; "add"])
     = Some [Go.nl; Go.nl; VM.add ++ Go.nl]
  /\ (forall arg1 c,
        VM0.parseCommand arg1 c ["2"; "pointer"; "push"]
        = Error "invalid pointer index: 2"
        /\ VM0.parseCommand arg1 c ["3"; "heap"; "pop"]
           = Error "invalid location: heap").
Proof.
  repeat split; vm_compute; reflexivity.
Qed.

Lemma Fields_key (p w key : string) :
  endsWithSpace p = true -> allChars Go.isAscii p = true ->
  Go.fieldsFrom p EmptyString = [key] ->
  hasSpace w = false -> Go.isEmpty w = false ->
  Go.Fields (p ++ w) = [key; w].
Proof.
  intros Hp Ha Hk Hw Hn. rewrite Fields_two by assumption. now rewrite Hk.
Qed.

(** A command other than [function] leaves the name of the enclosing
    function as it is. *)
Lemma parseCommand_current g line g' out :
  VM.parseCommand g line = Ok (g', out) ->
  Go.index (Go.Fields line) 0 <> Ok "function" ->
  VM.current (VM.funcStack g') = VM.current (VM.funcStack g).
Proof.
  unfold VM.parseCommand.
  destruct (Go.index (Go.Fields line) 0) as [first| |]; cbn [bind];
    try discriminate.
  destruct (String.eqb_spec first "function") as [->|_];
    [intros _ H; now elim H|].
  destruct (String.eqb first "call").
  { destruct (Go.index (Go.Fields line) 1) as [name| |]; cbn [bind];
      try discriminate.
    destruct (Go.index (Go.Fields line) 2) as [nArgs| |]; cbn [bind];
      try discriminate.
    intros H _. now apply callFunction_state in H as (_ & _ & Hc). }
  destruct (String.eqb first "return").
  { intros H _. injection H as <- _. reflexivity. }
  destruct (String.eqb first "goto").
  { destruct (Go.index (Go.Fields line) 1) as [l| |]; cbn [bind];
      try discriminate.
    intros H _. injection H as <- _. reflexivity. }
  destruct (String.eqb first "if-goto").
  { destruct (Go.index (Go.Fields line) 1) as [l| |]; cbn [bind];
      try discriminate.
    intros H _. injection H as <- _. reflexivity. }
  destruct (String.eqb first "label").
  { destruct (Go.index (Go.Fields line) 1) as [l| |]; cbn [bind];
      try discriminate.
    intros H _. injection H as <- _. reflexivity. }
  destruct (List.length (Go.Fields line) =? 1)%nat.
  { destruct (VM.operation g first) as [[g1 o]| |] eqn:E; cbn [bind];
      try discriminate.
    intros H _. injection H as <- _. cbn [fst].
    apply operation_state in E as [_ Hs]. now rewrite Hs. }
  destruct (Go.index (Go.Fields line) 2) as [third| |]; cbn [bind];
    try discriminate.
  destruct (Go.Atoi third); [|discriminate].
  destruct (Go.index (Go.Fields line) 1) as [second| |]; cbn [bind];
    try discriminate.
  destruct (String.eqb first "push");
    [intros H _; injection H as <- _; reflexivity|].
  destruct (String.eqb first "pop");
    [intros H _; injection H as <- _; reflexivity|].
  discriminate.
Qed.

(** Claim C8, as the translator has it: label, goto and if-goto are
    translated with the name of the enclosing function as the translator
    holds it, and a return is translated to the jump to the shared routine
    wherever it stands; none of them is an error.  The name is [Sys.init]
    when the translation starts, only a function command changes it, and a
    unit is read with the name the units before it left. *)
Theorem commands_outside_function_accepted (g : VM.globals) (l : string) :
  hasSpace l = false ->
  Go.isEmpty l = false ->
  let f := VM.current (VM.funcStack g) in
  VM.parseCommand g ("label " ++ l) = Ok (g, "(" ++ (f ++ "$" ++ l) ++ ")" ++ Go.nl)
  /\ VM.parseCommand g ("goto " ++ l)
     = Ok (g, blockText ["@" ++ (f ++ "$" ++ l); "0;JMP"])
  /\ VM.parseCommand g ("if-goto " ++ l)
     = Ok (g, blockText ["@SP"; "AM=M-1"; "D=M"; "@" ++ (f ++ "$" ++ l); "D;JNE"])
  /\ VM.parseCommand g "return" = Ok (g, blockText ["@RETURN"; "0;JMP"])
  /\ (forall bootstrap setStackPointer endWithLoop path,
        VM.current
          (VM.funcStack (VM.initial bootstrap setStackPointer endWithLoop path))
        = "Sys.init")
  /\ (forall line g' out,
        VM.parseCommand g line = Ok (g', out) ->
        Go.index (Go.Fields line) 0 <> Ok "function" ->
        VM.current (VM.funcStack g') = VM.current (VM.funcStack g))
  /\ (forall file content g' outs,
        VM.parseFile g file content = Ok (g', outs) ->
        VM.Parse (VM.set_currentFile g (Go.Base file)) content = Ok (g', outs)
        /\ VM.funcStack (VM.set_currentFile g (Go.Base file)) = VM.funcStack g).
Proof.
  intros Hw Hn f. unfold VM.parseCommand.
  rewrite (Fields_key "label " l "label") by (assumption || reflexivity).
  rewrite (Fields_key "goto " l "goto") by (assumption || reflexivity).
  rewrite (Fields_key "if-goto " l "if-goto") by (assumption || reflexivity).
  split; [reflexivity|]. split; [reflexivity|]. split; [reflexivity|].
  split; [reflexivity|]. split; [reflexivity|]. split.
  - intros line g' out. apply parseCommand_current.
  - intros file content g' outs H. split; [|reflexivity].
    unfold VM.parseFile in H. destruct file as [|c r]; [discriminate H|].
    destruct (negb (Go.HasPrefix _ _)); [discriminate H|].
    destruct (negb (String.eqb _ _)); [discriminate H|]. exact H.
Qed.

Lemma commands_outside_function_accepted_witness :
  VM.parseCommand afterFunction "label LOOP"
  = Ok (afterFunction, "(Main.f$LOOP)" ++ Go.nl)
  /\ VM.parseCommand afterFunction "goto LOOP"
     = Ok (afterFunction, blockText ["@Main.f$LOOP"; "0;JMP"])
  /\ VM.parseCommand afterFunction "if-goto LOOP"
     = Ok (afterFunction,
           blockText ["@SP"; "AM=M-1"; "D=M"; "@Main.f$LOOP"; "D;JNE"])
  /\ VM.parseCommand afterFunction "return"
     = Ok (afterFunction, blockText ["@RETURN"; "0;JMP"])
  /\ emitted (VM.parseFiles g0 [("Prog/A.vm", ["function Main.f 0"]);
                                ("Prog/B.vm", ["label LOOP"; "return"])])
     = Some ["(Prog.Main.f)" ++ Go.nl; "(Main.f$LOOP)" ++ Go.nl;
             blockText ["@RETURN"; "0;JMP"]].
Proof.
  destruct (commands_outside_function_accepted afterFunction "LOOP")
    as (H1 & H2 & H3 & H4 & _); [reflexivity | reflexivity |].
  split; [exact H1|]. split; [exact H2|]. split; [exact H3|].
  split; [exact H4|]. vm_compute. reflexivity.
Defined.

(** Claim C8, as stated, fails: a unit that opens with label, goto, if-goto
    and return, outside any function, is translated without an error. *)
Lemma commands_outside_function_translated :
  emitted (VM.Parse g0 ["label LOOP"; "goto LOOP"; "if-goto LOOP"; "return"])
  = Some ["(Sys.init$LOOP)" ++ Go.nl;
          blockText ["@Sys.init$LOOP"; "0;JMP"];
          blockText ["@SP"; "AM=M-1"; "D=M"; "@Sys.init$LOOP"; "D;JNE"];
          blockText ["@RETURN"; "0;JMP"]]
  /\ is_Error (VM.Parse g0 ["label LOOP"; "goto LOOP"; "if-goto LOOP"; "return"])
     = false.
Proof. split; vm_compute; reflexivity. Qed.

(** Claim C10: popping to the constant segment is accepted, and the block
    emitted for it is one empty line, which assembles to no instruction. *)
Theorem pop_constant_emits_empty_block (g : VM.globals) (k : Z) :
  0 <= k <= Go.MaxInt ->
  VM.parseCommand g ("pop constant " ++ Go.Itoa k) = Ok (g, Go.nl)
  /\ VM.handlePop g "constant" k = Go.nl
  /\ sourceLines Go.nl = [EmptyString; EmptyString]
  /\ assemble Go.nl = Some [].
Proof.
  intros Hk. split; [|repeat split].
  unfold VM.parseCommand.
  rewrite Fields_two;
    [ | reflexivity | reflexivity | apply Itoa_notSpace; lia
      | apply Itoa_nonempty ].
  change (Go.fieldsFrom "pop constant " EmptyString) with ["pop"; "constant"].
  cbn [List.app Go.index nth_error bind].
  change (String.eqb "pop" "function") with false.
  change (String.eqb "pop" "call") with false.
  change (String.eqb "pop" "return") with false.
  change (String.eqb "pop" "goto") with false.
  change (String.eqb "pop" "if-goto") with false.
  change (String.eqb "pop" "label") with false.
  cbv iota. cbn [List.length Nat.eqb].
  rewrite Atoi_Itoa by exact Hk. reflexivity.
Qed.

Lemma pop_constant_emits_empty_block_witness :
  0 <= 7 <= Go.MaxInt
  /\ VM.parseCommand g0 "pop constant 7" = Ok (g0, Go.nl)
  /\ VM.handlePop g0 "constant" 7 = Go.nl
  /\ sourceLines Go.nl = [EmptyString; EmptyString]
  /\ assemble Go.nl = Some [].
Proof.
  split; [unfold Go.MaxInt; lia|].
  apply (pop_constant_emits_empty_block g0 7). unfold Go.MaxInt. lia.
Defined.

End Accepted.

(** ** The assembler on the translator's text *)

Section Assembler.

Lemma linesFrom_cons c r cur :
  linesFrom (String c r) cur
  = if isNewline c then cur :: linesFrom r EmptyString
    else linesFrom r (cur ++ String c EmptyString).
Proof. reflexivity. Qed.

Lemma linesFrom_nonempty s cur : linesFrom s cur <> [].
Proof.
  revert cur; induction s as [|c s IH]; intros cur; cbn [linesFrom].
  - discriminate.
  - destruct (isNewline c); [discriminate | apply IH].
Qed.

Lemma removelast_cons {T : Type} (x : T) (l : list T) :
  l <> [] -> removelast (x :: l) = x :: removelast l.
Proof. destruct l; [congruence | reflexivity]. Qed.

(** A line without a newline, followed by a newline. *)
Lemma linesFrom_line l rest cur :
  allChars notNewline l = true ->
  linesFrom (l ++ Go.nl ++ rest) cur = (cur ++ l) :: linesFrom rest EmptyString.
Proof.
  revert cur; induction l as [|c l IH]; intros cur H.
  - simpl. now rewrite append_nil_r.
  - simpl in H. apply andb_true_iff in H as [Hc Hl].
    unfold notNewline in Hc. apply negb_true_iff in Hc.
    cbn [append linesFrom]. rewrite Hc. rewrite IH by exact Hl.
    now rewrite append_assoc.
Qed.

(** A block built by an emitter is read back line by line. *)
Lemma linesFrom_block ls rest :
  forallb (allChars notNewline) ls = true ->
  linesFrom (blockText ls ++ rest) EmptyString
  = (blockLines ls ++ linesFrom rest EmptyString)%list.
Proof.
  unfold blockText.
  induction ls as [|l ls IH]; intros H.
  - reflexivity.
  - simpl in H. apply andb_true_iff in H as [Hl Hls].
    destruct ls as [|l' ls].
    + cbn [Go.Join blockLines]. rewrite append_assoc.
      now rewrite linesFrom_line.
    + specialize (IH Hls).
      change (Go.Join (l :: l' :: ls) Go.nl)
        with (l ++ Go.nl ++ Go.Join (l' :: ls) Go.nl).
      replace (((l ++ Go.nl ++ Go.Join (l' :: ls) Go.nl) ++ Go.nl) ++ rest)
        with (l ++ Go.nl ++ ((Go.Join (l' :: ls) Go.nl ++ Go.nl) ++ rest))
        by (now rewrite !append_assoc).
      rewrite linesFrom_line by exact Hl. rewrite IH. reflexivity.
Qed.

(** Text that ends a line, followed by more text. *)
Lemma linesFrom_closed p rest : forall cur,
  endsWithNewline p = true ->
  linesFrom (p ++ rest) cur
  = (removelast (linesFrom p cur) ++ linesFrom rest EmptyString)%list.
Proof.
  induction p as [|c p IH]; intros cur H; [discriminate H|].
  destruct p as [|c' p].
  - cbn [endsWithNewline] in H. cbn [append linesFrom]. rewrite H. reflexivity.
  - change (endsWithNewline (String c (String c' p)))
      with (endsWithNewline (String c' p)) in H.
    change (String c (String c' p) ++ rest) with (String c (String c' p ++ rest)).
    rewrite (linesFrom_cons c (String c' p ++ rest)).
    rewrite (linesFrom_cons c (String c' p)).
    destruct (isNewline c); rewrite IH by exact H; [|reflexivity].
    rewrite removelast_cons by apply linesFrom_nonempty. reflexivity.
Qed.

Lemma sourceLines_two ls1 ls2 :
  forallb (allChars notNewline) ls1 = true ->
  forallb (allChars notNewline) ls2 = true ->
  sourceLines ((Go.Join ls1 Go.nl ++ Go.nl) ++ (Go.Join ls2 Go.nl ++ Go.nl))
  = (blockLines ls1 ++ blockLines ls2 ++ [EmptyString])%list.
Proof.
  intros H1 H2. unfold sourceLines.
  fold (blockText ls1). fold (blockText ls2).
  rewrite linesFrom_block by exact H1.
  rewrite <- (append_nil_r (blockText ls2)).
  rewrite linesFrom_block by exact H2. reflexivity.
Qed.

Lemma sourceLines_around p ls q :
  endsWithNewline p = true ->
  forallb (allChars notNewline) ls = true ->
  sourceLines (p ++ blockText ls ++ q)
  = (removelast (sourceLines p) ++ blockLines ls ++ sourceLines q)%list.
Proof.
  intros Hp Hls. unfold sourceLines. rewrite linesFrom_closed by exact Hp.
  rewrite linesFrom_block by exact Hls. reflexivity.
Qed.

(** An address instruction with a number printed by the translator. *)
Lemma parseLine_At k : 0 <= k -> parseLine ("@" ++ Go.Itoa k) = AtNum k.
Proof.
  intros Hk.
  destruct (Itoa_uint k Hk) as (d & Hp & Hv).
  pose proof (Itoa_nonempty k) as Hn.
  change (parseLine ("@" ++ Go.Itoa k)) with
    (match Go.Itoa k with
     | EmptyString => Bad
     | _ => match NilEmpty.uint_of_string (Go.Itoa k) with
            | Some d => AtNum (Z.of_uint d)
            | None => AtSym (Go.Itoa k)
            end
     end).
  destruct (Go.Itoa k); [discriminate Hn|]. now rewrite Hp, Hv.
Qed.

Lemma At_line_ok k : 0 <= k -> allChars notNewline ("@" ++ Go.Itoa k) = true.
Proof.
  intros Hk. cbn [append allChars].
  change (notNewline "@") with true. cbn [andb].
  now apply Itoa_notNewline.
Qed.

End Assembler.

(** ** The machine *)

Section Machine.

Lemma wrap_range z : 0 <= wrap z < 65536.
Proof. unfold wrap. apply Z.mod_pos_bound. lia. Qed.

Lemma wrap_small z : 0 <= z < 65536 -> wrap z = z.
Proof. unfold wrap. apply Z.mod_small. Qed.

Lemma wrap_wrap z : wrap (wrap z) = wrap z.
Proof. apply wrap_small, wrap_range. Qed.

Lemma wrap_add_l a b : wrap (wrap a + b) = wrap (a + b).
Proof. unfold wrap. apply Zplus_mod_idemp_l. Qed.

Lemma wrap_sub_l a b : wrap (wrap a - b) = wrap (a - b).
Proof. unfold wrap. apply Zminus_mod_idemp_l. Qed.

Lemma wrap_succ_pred z : wrap (wrap (z + 1) - 1) = wrap z.
Proof. rewrite wrap_sub_l. f_equal. lia. Qed.

Lemma load_range m a : 0 <= load m a < 65536.
Proof. apply wrap_range. Qed.

Lemma wrap_load m a : wrap (load m a) = load m a.
Proof. apply wrap_wrap. Qed.

Lemma load_store_same m a v : load (store m a v) a = wrap v.
Proof. unfold load, store. now rewrite Z.eqb_refl. Qed.

Lemma load_store_eq m a v b : b = a -> load (store m a v) b = wrap v.
Proof. intros ->. apply load_store_same. Qed.

Lemma load_store_other m a v b : b <> a -> load (store m a v) b = load m b.
Proof. unfold load, store. intros H. apply Z.eqb_neq in H. now rewrite H. Qed.

Lemma run_step rom n s i :
  fetch rom (PC s) = Some i -> run rom (S n) s = run rom n (step i s).
Proof. intros H. simpl. now rewrite H. Qed.

Lemma run_app rom : forall n k s,
  run rom (n + k) s
  = match run rom n s with Some s1 => run rom k s1 | None => None end.
Proof.
  induction n as [|n IH]; intros k s; [reflexivity|].
  cbn [Nat.add run]. destruct (fetch rom (PC s)); [apply IH | reflexivity].
Qed.

Lemma codeAt_head rom p i code :
  codeAt rom p (i :: code) -> fetch rom p = Some i.
Proof.
  intros [Hp H]. unfold fetch.
  destruct (Z.ltb_spec p 0); [lia|].
  cbn [List.length] in H.
  destruct (skipn (Z.to_nat p) rom) as [|x r] eqn:E; [discriminate H|].
  cbn [firstn] in H. injection H as -> _.
  rewrite <- (Nat.add_0_r (Z.to_nat p)). rewrite <- nth_error_skipn.
  now rewrite E.
Qed.

Lemma codeAt_tail rom p i code :
  codeAt rom p (i :: code) -> codeAt rom (p + 1) code.
Proof.
  intros [Hp H]. split; [lia|].
  cbn [List.length] in H.
  destruct (skipn (Z.to_nat p) rom) as [|x r] eqn:E; [discriminate H|].
  cbn [firstn] in H. injection H as _ H.
  replace (Z.to_nat (p + 1)) with (1 + Z.to_nat p)%nat by lia.
  rewrite <- skipn_skipn. rewrite E. exact H.
Qed.

Lemma exec_cons i code s : exec (i :: code) s = exec code (step i s).
Proof. reflexivity. Qed.

Lemma exec_nil s : exec [] s = s.
Proof. reflexivity. Qed.

Lemma step_falls i s : falls i = true -> PC (step i s) = PC s + 1.
Proof.
  destruct i as [v|d c j]; simpl; [reflexivity|].
  destruct j; simpl; intros H; try discriminate H; reflexivity.
Qed.

(** Code in which only the last instruction may jump runs as [exec] says. *)
Lemma run_segment rom code : forall n s,
  codeAt rom (PC s) code -> forallb falls (removelast code) = true ->
  run rom (List.length code + n) s = run rom n (exec code s).
Proof.
  induction code as [|i code IH]; intros n s Hat Hf.
  - reflexivity.
  - pose proof (codeAt_head _ _ _ _ Hat) as Hfetch.
    cbn [List.length Nat.add]. rewrite (run_step _ _ _ _ Hfetch).
    rewrite exec_cons.
    destruct code as [|i' code].
    + reflexivity.
    + cbn [removelast forallb] in Hf.
      apply andb_true_iff in Hf as [Hi Hf].
      apply IH.
      * rewrite (step_falls i s Hi). eapply codeAt_tail; eauto.
      * exact Hf.
Qed.

Lemma run_segment_at rom code n k s :
  n = (List.length code + k)%nat ->
  codeAt rom (PC s) code -> forallb falls (removelast code) = true ->
  run rom n s = run rom k (exec code s).
Proof. intros ->. apply run_segment. Qed.

(** Code without jumps. *)
Lemma run_exec rom code s :
  codeAt rom (PC s) code -> forallb falls code = true ->
  run rom (List.length code) s = Some (exec code s)
  /\ PC (exec code s) = PC s + Z.of_nat (List.length code).
Proof.
  revert s; induction code as [|i code IH]; intros s Hat Hf.
  - simpl. split; [reflexivity | lia].
  - simpl in Hf. apply andb_true_iff in Hf as [Hi Hf].
    pose proof (codeAt_head _ _ _ _ Hat) as Hfetch.
    cbn [List.length]. rewrite (run_step _ _ _ _ Hfetch).
    rewrite exec_cons.
    pose proof (step_falls i s Hi) as Hpc.
    destruct (IH (step i s)) as [Hrun Hpc'].
    + rewrite Hpc. eapply codeAt_tail; eauto.
    + exact Hf.
    + split; [exact Hrun|]. rewrite Hpc', Hpc. lia.
Qed.

End Machine.

(** *** Symbolic execution *)

Ltac norm_wrap :=
  rewrite ?wrap_wrap, ?wrap_load, ?wrap_succ_pred, ?wrap_load;
  repeat match goal with
         | |- context [wrap ?e] => rewrite (wrap_small e) by lia
         end.

Ltac norm_load :=
  repeat match goal with
         | |- context [load (store ?m ?a ?v) ?b] =>
           first [ rewrite (load_store_eq m a v b) by lia
                 | rewrite (load_store_other m a v b) by lia ]
         end.

Ltac mem_cases :=
  repeat match goal with
         | |- context [load (store ?m ?a ?v) ?b] =>
           destruct (Z.eq_dec b a);
           [ rewrite (load_store_eq m a v b) by assumption
           | rewrite (load_store_other m a v b) by assumption ]
         end.

Ltac exec_using tac :=
  repeat (rewrite exec_cons;
          cbn [step alu taken toA toD toM A D PC RAM];
          norm_wrap; norm_load; tac; norm_wrap);
  rewrite exec_nil; cbn [RAM].

Ltac exec_all := exec_using idtac.

Ltac seg_using len tac :=
  match goal with
  | |- context [run ?rom ?n {| A := ?a; D := ?d; PC := ?pc; RAM := ?m |}] =>
    let code := eval vm_compute in (segment rom pc len) in
    let k := eval vm_compute in (n - len)%nat in
    rewrite (run_segment_at rom code n k
               {| A := a; D := d; PC := pc; RAM := m |});
    [ exec_using tac
    | vm_compute; reflexivity
    | cbn [PC]; split; [lia | vm_compute; reflexivity]
    | vm_compute; reflexivity ]
  end.

Ltac seg len := seg_using len idtac.

Ltac lines_ok :=
  cbn [forallb]; rewrite ?At_line_ok by assumption; reflexivity.

Ltac assemble_in H :=
  unfold assemble in H;
  rewrite sourceLines_two in H by lines_ok;
  cbn [blockLines List.app List.map] in H;
  rewrite ?parseLine_At in H by assumption;
  match type of H with
  | assembleLines ?l = _ =>
    let r := eval vm_compute in (assembleLines l) in
    change (assembleLines l) with r in H
  end;
  injection H as <-.

(** ** Arithmetic *)

Section Arithmetic.

(** Claim C3: the command [sub] is translated to a block that, wherever its
    code sits in a program, replaces the two topmost stack words by (second
    from top) - (top): the stack pointer drops by one, the new top word
    holds the difference cut to sixteen bits, and no other memory word
    changes. *)
Theorem sub_second_minus_top
    (g : VM.globals) (text : string) (rom code : list instr) (s : cpu) :
  emitted (VM.parseCommand g "sub") = Some text ->
  assemble text = Some code ->
  codeAt rom (PC s) code ->
  2 < load (RAM s) 0 ->
  exists s',
    run rom (List.length code) s = Some s'
    /\ PC s' = PC s + Z.of_nat (List.length code)
    /\ load (RAM s') 0 = load (RAM s) 0 - 1
    /\ load (RAM s') (load (RAM s) 0 - 2)
       = wrap (load (RAM s) (load (RAM s) 0 - 2)
               - load (RAM s) (load (RAM s) 0 - 1))
    /\ forall a, a <> 0 -> a <> load (RAM s) 0 - 2 ->
                 load (RAM s') a = load (RAM s) a.
Proof.
  intros Hcmd Hasm Hat Hsp.
  assert (Htext : text = VM.sub ++ Go.nl).
  { vm_compute in Hcmd. injection Hcmd as <-. reflexivity. }
  subst text.
  assert (Hcode : code = subCode).
  { vm_compute in Hasm. injection Hasm as <-. reflexivity. }
  subst code. clear Hasm Hcmd.
  destruct (run_exec rom subCode s Hat eq_refl) as [Hrun Hpc].
  exists (exec subCode s). split; [exact Hrun|]. split; [exact Hpc|].
  clear Hrun Hpc Hat.
  pose proof (load_range (RAM s) 0) as Hr.
  destruct s as [a d pc m]. cbn [RAM] in *.
  unfold subCode. exec_all.
  split; [|split].
  - norm_load. norm_wrap. reflexivity.
  - norm_load. norm_wrap. f_equal. f_equal. f_equal. lia.
  - intros x H0 H2. norm_load. reflexivity.
Qed.

Lemma sub_second_minus_top_witness :
  exists s',
    run subCode 5 demoState = Some s'
    /\ PC s' = 5
    /\ load (RAM s') 0 = 299
    /\ load (RAM s') 298 = 4.
Proof.
  destruct (sub_second_minus_top g0 (VM.sub ++ Go.nl) subCode subCode demoState)
    as (s' & Hrun & Hpc & Hsp & Htop & _).
  - vm_compute. reflexivity.
  - vm_compute. reflexivity.
  - split; [simpl; lia | reflexivity].
  - vm_compute. reflexivity.
  - exists s'. split; [exact Hrun|]. split; [exact Hpc|].
    split; [exact Hsp | exact Htop].
Defined.

End Arithmetic.

(** ** Memory access *)

Section MemoryAccess.

(** Claim C9: for [local], [argument], [this] and [that] and every index,
    the code emitted for a push followed by the code emitted for the pop of
    the same slot leaves the stack pointer and the slot as they were, and
    changes no memory word but the free word above the stack and the
    scratch register [R13]. *)
Theorem push_pop_roundtrip
    (g : VM.globals) (seg : string) (ptr k : Z)
    (rom code : list instr) (s : cpu) :
  In (seg, ptr) [("local", 1); ("argument", 2); ("this", 3); ("that", 4)] ->
  0 <= k ->
  assemble (VM.handlePush g seg k ++ VM.handlePop g seg k) = Some code ->
  codeAt rom (PC s) code ->
  16 <= load (RAM s) 0 ->
  exists s',
    run rom (List.length code) s = Some s'
    /\ PC s' = PC s + Z.of_nat (List.length code)
    /\ load (RAM s') 0 = load (RAM s) 0
    /\ load (RAM s') (wrap (load (RAM s) ptr + k))
       = load (RAM s) (wrap (load (RAM s) ptr + k))
    /\ forall a, a <> load (RAM s) 0 -> a <> 13 ->
                 load (RAM s') a = load (RAM s) a.
Proof.
  intros Hseg Hk Hasm Hat Hsp.
  assert (Hcode : forallb falls code = true /\
     forall a d pc m, 16 <= load m 0 ->
       let s' := exec code {| A := a; D := d; PC := pc; RAM := m |} in
       load (RAM s') 0 = load m 0
    /\ load (RAM s') (wrap (load m ptr + k))
       = load m (wrap (load m ptr + k))
    /\ forall a, a <> load m 0 -> a <> 13 ->
                 load (RAM s') a = load m a).
  { clear Hat Hsp s rom.
    destruct (Z.eqb_spec k 0) as [Hk0|Hk0].
    - subst k.
      cbn [In] in Hseg.
      destruct Hseg as [E|[E|[E|[E|[]]]]]; injection E as <- <-;
        unfold VM.handlePush, VM.handlePop in Hasm;
        cbn [String.eqb Ascii.eqb Bool.eqb Z.eqb] in Hasm;
        assemble_in Hasm.
      all: (split; [reflexivity|]).
      all: intros a d pc m Hsp s'; subst s';
        pose proof (load_range m 0) as Hr.
      all: exec_all.
      all: rewrite Z.add_0_r, wrap_load.
      all: repeat split; [ | | intros x Hx H13 ]; mem_cases; norm_wrap;
           first [ reflexivity | congruence | lia ].
    - cbn [In] in Hseg.
      apply Z.eqb_neq in Hk0.
      destruct Hseg as [E|[E|[E|[E|[]]]]]; injection E as <- <-;
        unfold VM.handlePush, VM.handlePop in Hasm;
        cbn [String.eqb Ascii.eqb Bool.eqb] in Hasm; rewrite Hk0 in Hasm;
        assemble_in Hasm.
      all: (split; [reflexivity|]).
      all: intros a d pc m Hsp s'; subst s';
        pose proof (load_range m 0) as Hr.
      all: exec_all.
      all: rewrite !wrap_add_l, !(Z.add_comm k).
      all: repeat split; [ | | intros x Hx H13 ]; mem_cases; norm_wrap;
           first [ reflexivity | congruence | lia ]. }
  destruct Hcode as [Hfalls Hexec].
  destruct (run_exec rom code s Hat Hfalls) as [Hrun Hpc].
  exists (exec code s). split; [exact Hrun|]. split; [exact Hpc|].
  destruct s as [a d pc m]. apply (Hexec a d pc m Hsp).
Qed.

Lemma push_pop_roundtrip_witness :
  exists s',
    run roundtripCode 24 demoState = Some s'
    /\ load (RAM s') 0 = 300
    /\ load (RAM s') 292 = load demoMemory 292.
Proof.
  destruct (push_pop_roundtrip g0 "local" 1 2 roundtripCode roundtripCode demoState)
    as (s' & Hrun & _ & Hsp & Hslot & _).
  - simpl. left. reflexivity.
  - lia.
  - vm_compute. reflexivity.
  - split; [simpl; lia | reflexivity].
  - vm_compute. discriminate.
  - exists s'. split; [exact Hrun|]. split; [exact Hsp | exact Hslot].
Defined.

End MemoryAccess.


(** ** Comparisons *)

Section Comparisons.




End Comparisons.

(** ** Call and return *)

Section CallReturn.












End CallReturn.

(** ** The assembler on a text in parts *)

Section AssemblerParts.

Lemma icount_nonneg ls : 0 <= icount ls.
Proof. induction ls as [|[] ls IH]; cbn [icount]; lia. Qed.

Lemma icount_app l1 l2 : icount (l1 ++ l2) = icount l1 + icount l2.
Proof. induction l1 as [|[] l1 IH]; cbn [icount List.app]; lia. Qed.

Lemma lookup_app_l {T : Type} name (t X : list (string * T)) v :
  lookup name t = Some v -> lookup name (t ++ X) = Some v.
Proof.
  induction t as [|[k w] t IH]; cbn [lookup List.app]; [discriminate|].
  destruct (String.eqb k name); [trivial | exact IH].
Qed.

Lemma lookup_app_r {T : Type} name (t X : list (string * T)) :
  lookup name t = None -> lookup name (t ++ X) = lookup name X.
Proof.
  induction t as [|[k w] t IH]; cbn [lookup List.app]; [reflexivity|].
  destruct (String.eqb k name); [discriminate | exact IH].
Qed.

Lemma collectLabels_app l1 : forall l2 a t,
  collectLabels (l1 ++ l2) a t
  = match collectLabels l1 a t with
    | Some t1 => collectLabels l2 (a + icount l1) t1
    | None => None
    end.
Proof.
  induction l1 as [|x l1 IH]; intros l2 a t.
  - cbn [List.app collectLabels icount]. now rewrite Z.add_0_r.
  - destruct x; cbn [List.app collectLabels icount]; rewrite ?IH;
      try reflexivity;
      destruct (collectLabels l1 (a + 1) t); try reflexivity;
      f_equal; lia.
Qed.

Lemma collectLabels_extends l : forall a t t',
  collectLabels l a t = Some t' -> exists X, t' = (t ++ X)%list.
Proof.
  induction l as [|x l IH]; intros a t t' H.
  - injection H as <-. exists []. now rewrite app_nil_r.
  - destruct x; cbn [collectLabels] in H; try discriminate H;
      try (apply IH in H; exact H).
    apply IH in H as [X ->]. exists ((name, a) :: X).
    now rewrite <- app_assoc.
Qed.

Lemma resolveState_extends l : forall t n t1 n1,
  resolveState l t n = (t1, n1) -> exists X, t1 = (t ++ X)%list.
Proof.
  induction l as [|x l IH]; intros t n t1 n1 H.
  - injection H as <- _. exists []. now rewrite app_nil_r.
  - destruct x; cbn [resolveState] in H; try (apply IH in H; exact H).
    destruct (lookup name t); [apply IH in H; exact H|].
    apply IH in H as [X ->]. exists ((name, n) :: X).
    now rewrite <- app_assoc.
Qed.

Lemma resolve_app l1 : forall l2 t n,
  resolve (l1 ++ l2) t n
  = (resolve l1 t n
     ++ resolve l2 (fst (resolveState l1 t n)) (snd (resolveState l1 t n)))%list.
Proof.
  induction l1 as [|x l1 IH]; intros l2 t n; [reflexivity|].
  destruct x; cbn [List.app resolve resolveState]; try (rewrite IH; reflexivity).
  destruct (lookup name t); rewrite IH; reflexivity.
Qed.

Lemma resolveState_app l1 : forall l2 t n,
  resolveState (l1 ++ l2) t n
  = resolveState l2 (fst (resolveState l1 t n)) (snd (resolveState l1 t n)).
Proof.
  induction l1 as [|x l1 IH]; intros l2 t n; [reflexivity|].
  destruct x; cbn [List.app resolveState]; try (rewrite IH; reflexivity).
  destruct (lookup name t); rewrite IH; reflexivity.
Qed.

Lemma length_resolve l : forall t n,
  Z.of_nat (List.length (resolve l t n)) = icount l.
Proof.
  induction l as [|x l IH]; intros t n; [reflexivity|].
  destruct x; cbn [resolve icount]; try apply IH;
    try (cbn [List.length]; rewrite Nat2Z.inj_succ, IH; lia).
  destruct (lookup name t); cbn [List.length]; rewrite Nat2Z.inj_succ, IH; lia.
Qed.

(** Lines whose symbols the table binds are resolved without a new
    variable, and a longer table resolves them alike. *)
Lemma resolve_bound l : forall t X n,
  bound t l = true ->
  resolve l (t ++ X) n = resolve l t n
  /\ resolveState l (t ++ X) n = ((t ++ X)%list, n).
Proof.
  induction l as [|x l IH]; intros t X n H; [split; reflexivity|].
  unfold bound in H. cbn [forallb] in H. apply andb_true_iff in H as [Hx Hl].
  destruct (IH t X n Hl) as [IH1 IH2].
  destruct x; cbn [resolve resolveState];
    try (rewrite ?IH1, ?IH2; split; reflexivity).
  destruct (lookup name t) as [v|] eqn:E; [|discriminate Hx].
  rewrite (lookup_app_l _ _ X _ E). rewrite IH1, IH2. split; reflexivity.
Qed.

(** The instructions of a part of a text sit in the program at the address
    given by the number of instructions before it. *)
Lemma codeAt_app (pre code post : list instr) :
  codeAt (pre ++ code ++ post) (Z.of_nat (List.length pre)) code.
Proof.
  split; [lia|]. rewrite Nat2Z.id.
  rewrite skipn_app, skipn_all, Nat.sub_diag. cbn [List.app skipn].
  rewrite firstn_app, firstn_all, Nat.sub_diag. cbn [firstn].
  now rewrite app_nil_r.
Qed.

Lemma codeAt_prefix (code post : list instr) : codeAt (code ++ post) 0 code.
Proof. exact (codeAt_app [] code post). Qed.

End AssemblerParts.

(** ** The layout of a program written for a folder *)

Section Layout.

Lemma sameOptions_refl g : sameOptions g g.
Proof. repeat split. Qed.

Lemma sameOptions_trans g1 g2 g3 :
  sameOptions g1 g2 -> sameOptions g2 g3 -> sameOptions g1 g3.
Proof.
  intros (A1 & A2 & A3 & A4) (B1 & B2 & B3 & B4).
  repeat split; congruence.
Qed.

Lemma operation_options g op g' out :
  VM.operation g op = Ok (g', out) -> sameOptions g g'.
Proof.
  unfold VM.operation, VM.eq, VM.gt, VM.lt.
  repeat match goal with
         | |- context [if ?b then _ else _] => destruct b
         end;
    intros H; try discriminate H; injection H as <- _; repeat split.
Qed.

Lemma parseCommand_options g line g' out :
  VM.parseCommand g line = Ok (g', out) -> sameOptions g g'.
Proof.
  unfold VM.parseCommand.
  destruct (Go.index (Go.Fields line) 0) as [first| |]; cbn [bind];
    try discriminate.
  destruct (String.eqb first "function").
  { destruct (Go.index (Go.Fields line) 1) as [name| |]; cbn [bind];
      try discriminate.
    destruct (Go.index (Go.Fields line) 2) as [nVars| |]; cbn [bind];
      try discriminate.
    unfold VM.function. destruct (Go.Atoi nVars); [|discriminate].
    intros H. injection H as <- _. repeat split. }
  destruct (String.eqb first "call").
  { destruct (Go.index (Go.Fields line) 1) as [name| |]; cbn [bind];
      try discriminate.
    destruct (Go.index (Go.Fields line) 2) as [nArgs| |]; cbn [bind];
      try discriminate.
    unfold VM.callFunction. destruct (Go.Atoi nArgs); [|discriminate].
    intros H. injection H as <- _. repeat split. }
  destruct (String.eqb first "return").
  { intros H. injection H as <- _. apply sameOptions_refl. }
  destruct (String.eqb first "goto").
  { destruct (Go.index (Go.Fields line) 1) as [l| |]; cbn [bind];
      try discriminate.
    intros H. injection H as <- _. apply sameOptions_refl. }
  destruct (String.eqb first "if-goto").
  { destruct (Go.index (Go.Fields line) 1) as [l| |]; cbn [bind];
      try discriminate.
    intros H. injection H as <- _. apply sameOptions_refl. }
  destruct (String.eqb first "label").
  { destruct (Go.index (Go.Fields line) 1) as [l| |]; cbn [bind];
      try discriminate.
    intros H. injection H as <- _. apply sameOptions_refl. }
  destruct (List.length (Go.Fields line) =? 1)%nat.
  { destruct (VM.operation g first) as [[g1 o]| |] eqn:E; cbn [bind];
      try discriminate.
    intros H. injection H as <- _. cbn [fst].
    now apply operation_options in E. }
  destruct (Go.index (Go.Fields line) 2) as [third| |]; cbn [bind];
    try discriminate.
  destruct (Go.Atoi third); [|discriminate].
  destruct (Go.index (Go.Fields line) 1) as [second| |]; cbn [bind];
    try discriminate.
  destruct (String.eqb first "push");
    [intros H; injection H as <- _; apply sameOptions_refl|].
  destruct (String.eqb first "pop");
    [intros H; injection H as <- _; apply sameOptions_refl|].
  discriminate.
Qed.

Lemma Parse_options : forall scanned g g' outs,
  VM.Parse g scanned = Ok (g', outs) -> sameOptions g g'.
Proof.
  induction scanned as [|line rest IH]; intros g g' outs H.
  - injection H as <- _. apply sameOptions_refl.
  - cbn [VM.Parse] in H.
    destruct (Go.HasPrefix (Go.TrimSpace line) "//"
              || Go.isEmpty (Go.TrimSpace line)); [now apply IH in H|].
    destruct (VM.parseCommand g _) as [[g1 o1]| |] eqn:E1; cbn [bind] in H;
      try discriminate H.
    cbn [fst snd] in H.
    destruct (VM.Parse g1 rest) as [[g2 o2]| |] eqn:E2; cbn [bind] in H;
      try discriminate H.
    injection H as <- _. cbn [fst].
    apply parseCommand_options in E1. apply IH in E2.
    eapply sameOptions_trans; eauto.
Qed.

Lemma parseFile_options g fileName content g' outs :
  VM.parseFile g fileName content = Ok (g', outs) -> sameOptions g g'.
Proof.
  unfold VM.parseFile. destruct fileName as [|c r]; [discriminate|].
  destruct (negb (Go.HasPrefix _ _)); [discriminate|].
  destruct (negb _); [discriminate|].
  intros H. apply Parse_options in H.
  eapply sameOptions_trans; [|exact H]. repeat split.
Qed.

Lemma parseFiles_options : forall files g g' outs,
  VM.parseFiles g files = Ok (g', outs) -> sameOptions g g'.
Proof.
  induction files as [|[file content] rest IH]; intros g g' outs H.
  - injection H as <- _. apply sameOptions_refl.
  - cbn [VM.parseFiles] in H.
    destruct (VM.parseFile g file content) as [[g1 o1]| |] eqn:E1;
      cbn [bind] in H; try discriminate H.
    cbn [fst snd] in H.
    destruct (VM.parseFiles g1 rest) as [[g2 o2]| |] eqn:E2; cbn [bind] in H;
      try discriminate H.
    injection H as <- _. cbn [fst].
    apply parseFile_options in E1. apply IH in E2.
    eapply sameOptions_trans; eauto.
Qed.

Lemma some_eq {T : Type} (a b : T) : Some a = Some b -> a = b.
Proof. congruence. Qed.

Lemma written_cons x xs : VM.written (x :: xs) = x ++ VM.written xs.
Proof.
  unfold VM.written. destruct xs as [|y ys].
  - cbn [String.concat]. now rewrite append_nil_r.
  - reflexivity.
Qed.

Lemma written_app l1 l2 : VM.written (l1 ++ l2) = VM.written l1 ++ VM.written l2.
Proof.
  induction l1 as [|x l1 IH]; [reflexivity|].
  cbn [List.app]. rewrite !written_cons, IH. now rewrite append_assoc.
Qed.

Lemma prependFunctions_app instructions :
  VM.prependFunctions instructions = (VM.prependFunctions [] ++ instructions)%list.
Proof.
  unfold VM.prependFunctions. now rewrite app_nil_r.
Qed.

Lemma prependStartInstructions_app g instructions :
  VM.prependStartInstructions g instructions
  = (VM.prependStartInstructions g [] ++ instructions)%list.
Proof.
  unfold VM.prependStartInstructions.
  destruct (VM.shouldSetStackPointer g); now rewrite app_nil_r.
Qed.

Lemma prependStartInstructions_options g g' :
  VM.shouldSetStackPointer g' = VM.shouldSetStackPointer g ->
  VM.prependStartInstructions g' [] = VM.prependStartInstructions g [].
Proof. unfold VM.prependStartInstructions. now intros ->. Qed.

Lemma startAndRoutines_eq g :
  startAndRoutines (VM.shouldSetStackPointer g)
  = VM.written (VM.prependStartInstructions g [])
    ++ VM.written (VM.prependFunctions []) ++ "(START)" ++ Go.nl.
Proof.
  unfold startAndRoutines.
  rewrite prependStartInstructions_app, (prependFunctions_app [_]).
  rewrite !written_app, written_cons.
  rewrite (prependStartInstructions_options g) by reflexivity.
  change (VM.written []) with EmptyString. now rewrite append_nil_r.
Qed.

(** Every program written for a folder begins with the same text. *)
Lemma program_head g files text :
  program g files = Some text ->
  exists rest, text = startAndRoutines (VM.shouldSetStackPointer g) ++ rest.
Proof.
  unfold program, VM.loadFolder. destruct files as [|f files]; [discriminate|].
  set (fs := f :: files). clearbody fs.
  destruct (if VM.shouldBootstrap g then _ else _) as [[g1 i1]| |] eqn:E0;
    cbn [bind]; try discriminate.
  cbn [fst snd].
  destruct (VM.parseFiles g1 fs) as [[g2 i2]| |] eqn:E1; cbn [bind];
    try discriminate.
  cbn [fst snd].
  assert (H1 : sameOptions g g1 /\ exists boot, i1 = ("(START)" ++ Go.nl) :: boot).
  { destruct (VM.shouldBootstrap g).
    - unfold VM.callFunction in E0. cbn [bind] in E0.
      change (Go.Atoi "0") with (Some 0) in E0. cbn [bind fst snd] in E0.
      injection E0 as <- <-. split; [repeat split | eexists; reflexivity].
    - injection E0 as <- <-. split; [apply sameOptions_refl | now exists []]. }
  destruct H1 as [Ho1 [boot ->]].
  apply parseFiles_options in E1.
  destruct (sameOptions_trans _ _ _ Ho1 E1) as (_ & _ & Hsp & _).
  rewrite startAndRoutines_eq.
  rewrite prependStartInstructions_app, prependFunctions_app.
  rewrite (prependStartInstructions_options g g2 Hsp).
  set (S := VM.prependStartInstructions g []).
  set (F := VM.prependFunctions []).
  set (start := "(START)" ++ Go.nl).
  set (loop := Go.Join _ Go.nl ++ Go.nl).
  intros H. apply some_eq in H. subst text.
  destruct (VM.shouldEndWithLoop g2);
    rewrite ?written_app, ?written_cons, ?written_app;
    eexists; rewrite !append_assoc; reflexivity.
Qed.

Lemma startLines_eq b :
  endsWithNewline (startAndRoutines b) = true
  /\ map parseLine (removelast (sourceLines (startAndRoutines b))) = startLines b
  /\ collectLabels (startLines b) 0 predefined = Some (startLabels b)
  /\ bound (startLabels b) (startLines b) = true
  /\ resolve (startLines b) (startLabels b) 16 = startCode b.
Proof. destruct b; repeat split; vm_compute; reflexivity. Qed.

(** The program assembled from it begins with the same instructions, and the
    labels of the shared routines and [START] stand for the same addresses. *)
Lemma program_layout g files text rom :
  program g files = Some text ->
  assemble text = Some rom ->
  (exists tail, rom = (startCode (VM.shouldSetStackPointer g) ++ tail)%list)
  /\ forall name v,
       lookup name (startLabels (VM.shouldSetStackPointer g)) = Some v ->
       labelAddress text name = Some v.
Proof.
  intros Hprog Hasm.
  destruct (program_head _ _ _ Hprog) as [rest ->]. clear Hprog.
  set (b := VM.shouldSetStackPointer g) in *. clearbody b.
  destruct (startLines_eq b) as (Hnl & Hlines & Hlabels & Hbound & Hcode).
  unfold labelAddress. unfold assemble in Hasm.
  unfold sourceLines in *. rewrite linesFrom_closed in * by exact Hnl.
  rewrite map_app in *. rewrite Hlines in *.
  set (R := map parseLine (linesFrom rest EmptyString)) in *. clearbody R.
  unfold assembleLines in Hasm.
  rewrite collectLabels_app in *. rewrite Hlabels in *.
  destruct (collectLabels R _ _) as [T|] eqn:E; [|discriminate Hasm].
  apply collectLabels_extends in E as [X ->].
  apply some_eq in Hasm. subst rom.
  split.
  - rewrite resolve_app.
    destruct (resolve_bound _ _ X 16 Hbound) as [-> _]. rewrite Hcode.
    eexists; reflexivity.
  - intros name v H. now apply lookup_app_l.
Qed.

Lemma codeAt_weaken (rom tail code : list instr) p :
  codeAt rom p code -> codeAt (rom ++ tail) p code.
Proof.
  intros [Hp H]. split; [exact Hp|].
  rewrite skipn_app, firstn_app.
  assert (Hl : (List.length code <= List.length (skipn (Z.to_nat p) rom))%nat).
  { rewrite <- H at 1. rewrite length_firstn. lia. }
  replace (List.length code - List.length (skipn (Z.to_nat p) rom))%nat
    with 0%nat by lia.
  cbn [firstn]. now rewrite app_nil_r.
Qed.

End Layout.

(** Symbolic execution inside the instructions [C] a program begins with. *)
Ltac seg_in C len tac :=
  match goal with
  | |- context [run (C ++ ?tail)%list ?n
                  {| A := ?a; D := ?d; PC := ?pc; RAM := ?m |}] =>
    let code := eval vm_compute in (segment C pc len) in
    let k := eval vm_compute in (n - len)%nat in
    rewrite (run_segment_at (C ++ tail) code n k
               {| A := a; D := d; PC := pc; RAM := m |});
    [ exec_using tac
    | vm_compute; reflexivity
    | apply codeAt_weaken; cbn [PC]; split; [lia | vm_compute; reflexivity]
    | vm_compute; reflexivity ]
  end.

(** ** Where a program starts *)

Section Start.

(** X1: every program written for a folder starts by jumping over the shared
    routines.  From address 0 the machine arrives at the label [START] in two
    instructions with the memory as it was; with the option
    [setStackPointer] it arrives there in six, with 256 in the stack pointer
    and no other memory word changed. *)
Theorem program_starts_at_START
    (g : VM.globals) (files : list (string * list string)) (text : string)
    (rom : list instr) (s : cpu) :
  program g files = Some text ->
  assemble text = Some rom ->
  PC s = 0 ->
  exists start s',
    labelAddress text "START" = Some start
    /\ run rom (if VM.shouldSetStackPointer g then 6 else 2) s = Some s'
    /\ PC s' = start
    /\ load (RAM s') 0
       = (if VM.shouldSetStackPointer g then 256 else load (RAM s) 0)
    /\ forall a, a <> 0 -> load (RAM s') a = load (RAM s) a.
Proof.
  intros Hprog Hasm Hpc.
  destruct (program_layout _ _ _ _ Hprog Hasm) as [[tail ->] Hlab].
  destruct s as [a d pc m]. cbn [PC RAM] in *. subst pc.
  destruct (VM.shouldSetStackPointer g); unfold startCode.
  - exists 161. eexists. split; [apply Hlab; reflexivity|]. split.
    + seg_in startCode1 6%nat idtac. reflexivity.
    + cbn [PC RAM]. split; [reflexivity|]. split.
      * norm_load. reflexivity.
      * intros x Hx. norm_load. reflexivity.
  - exists 157. eexists. split; [apply Hlab; reflexivity|]. split.
    + seg_in startCode0 2%nat idtac. reflexivity.
    + cbn [PC RAM]. repeat split.
Qed.

Lemma program_starts_at_START_witness :
  exists start s',
    labelAddress eqText "START" = Some start
    /\ run eqRom 2 demoState = Some s'
    /\ PC s' = start
    /\ load (RAM s') 0 = 300
    /\ forall a, a <> 0 -> load (RAM s') a = load (RAM demoState) a.
Proof.
  apply (program_starts_at_START g0 (unit1 "eq") eqText eqRom demoState).
  - vm_compute. reflexivity.
  - vm_compute. reflexivity.
  - reflexivity.
Defined.

End Start.

(** ** The shared comparison routines *)

Section Routines.

Lemma signed_zero w : 0 <= w < 65536 -> (signed w =? 0) = (w =? 0).
Proof.
  intros H. unfold signed. destruct (Z.ltb_spec w 32768); [reflexivity|].
  destruct (Z.eqb_spec (w - 65536) 0), (Z.eqb_spec w 0); try reflexivity; lia.
Qed.

Lemma wrap_sub_zero x y :
  0 <= x < 65536 -> 0 <= y < 65536 -> (wrap (x - y) =? 0) = (x =? y).
Proof.
  intros Hx Hy. unfold wrap.
  destruct (Z.eqb_spec x y) as [->|Hne].
  - rewrite Z.sub_diag. reflexivity.
  - apply Z.eqb_neq. intros H.
    apply Z.mod_divide in H; [|lia]. destruct H as [q Hq].
    assert (q = 0) by nia. subst q. lia.
Qed.

Lemma signed_sub x y :
  0 <= x < 65536 -> 0 <= y < 65536 ->
  -32768 <= signed x - signed y <= 32767 ->
  signed (wrap (x - y)) = signed x - signed y.
Proof.
  unfold signed, wrap. intros Hx Hy Hs.
  assert (Hm : forall z, 0 <= z < 65536 -> (x - y) mod 65536 = z ->
                (if z <? 32768 then z else z - 65536)
                = (if x <? 32768 then x else x - 65536)
                  - (if y <? 32768 then y else y - 65536) ->
                (if (x - y) mod 65536 <? 32768 then (x - y) mod 65536
                 else (x - y) mod 65536 - 65536)
                = (if x <? 32768 then x else x - 65536)
                  - (if y <? 32768 then y else y - 65536)).
  { intros z _ -> H. exact H. }
  destruct (Z.ltb_spec x 32768) as [Hx'|Hx'], (Z.ltb_spec y 32768) as [Hy'|Hy'].
  - destruct (Z.ltb_spec (x - y) 0) as [Hd|Hd].
    + apply (Hm (x - y + 65536)); [lia| |].
      * symmetry. apply (Z.mod_unique _ _ (-1)); lia.
      * destruct (Z.ltb_spec (x - y + 65536) 32768); lia.
    + apply (Hm (x - y)); [lia | apply Z.mod_small; lia|].
      destruct (Z.ltb_spec (x - y) 32768); lia.
  - apply (Hm (x - y + 65536)); [lia| |].
    + symmetry. apply (Z.mod_unique _ _ (-1)); lia.
    + destruct (Z.ltb_spec (x - y + 65536) 32768); lia.
  - apply (Hm (x - y)); [lia | apply Z.mod_small; lia|].
    destruct (Z.ltb_spec (x - y) 32768); lia.
  - destruct (Z.ltb_spec (x - y) 0) as [Hd|Hd].
    + apply (Hm (x - y + 65536)); [lia| |].
      * symmetry. apply (Z.mod_unique _ _ (-1)); lia.
      * destruct (Z.ltb_spec (x - y + 65536) 32768); lia.
    + apply (Hm (x - y)); [lia | apply Z.mod_small; lia|].
      destruct (Z.ltb_spec (x - y) 32768); lia.
Qed.

(** What a comparison routine leaves, relative to the state [s] it was
    entered in: execution is at the address that was in [D], the two
    topmost words are replaced by [v], and apart from them, the stack
    pointer and [R15] the memory is as it was. *)
Lemma routine_run (b : bool) (tail : list instr) (s : cpu) (entry : Z)
    (cond : Z -> bool) :
  In (entry, cond)
     [((if b then 142 else 138), fun d => negb (signed d =? 0));
      ((if b then 123 else 119), fun d => signed d <=? 0);
      ((if b then 104 else 100), fun d => 0 <=? signed d)] ->
  PC s = entry ->
  18 <= load (RAM s) 0 ->
  let sp := load (RAM s) 0 in
  let d := wrap (load (RAM s) (sp - 2) - load (RAM s) (sp - 1)) in
  exists n s',
    run (startCode b ++ tail) n s = Some s'
    /\ PC s' = wrap (D s)
    /\ load (RAM s') 0 = sp - 1
    /\ load (RAM s') (sp - 2) = (if cond d then 0 else 65535)
    /\ forall a, a <> 0 -> a <> 15 -> a <> sp - 2 ->
                 load (RAM s') a = load (RAM s) a.
Proof.
  intros Hin Hpc Hsp sp d. subst sp d.
  destruct s as [a d pc m]. cbn [PC RAM D] in *.
  pose proof (load_range m 0) as Hr.
  cbn [In] in Hin.
  destruct Hin as [E|[E|[E|[]]]]; injection E as <- <-; subst pc;
    destruct b; unfold startCode;
    match goal with
    | |- context [run (?C ++ _)%list _ _] => set (R := C)
    end.
  all: replace (load m 0 - 2) with (load m 0 - 1 - 1) in * by lia.
  all: match goal with
       | |- context [if ?c then 0 else 65535] => destruct c eqn:Hc
       end.
  all: match type of Hc with
       | _ = true =>
         exists 16%nat; eexists; split;
         [ subst R;
           first [ seg_in startCode1 11%nat idtac; rewrite Hc;
                   seg_in startCode1 5%nat idtac
                 | seg_in startCode0 11%nat idtac; rewrite Hc;
                   seg_in startCode0 5%nat idtac ];
           reflexivity | ]
       | _ = false =>
         exists 19%nat; eexists; split;
         [ subst R;
           first [ seg_in startCode1 11%nat idtac; rewrite Hc;
                   seg_in startCode1 8%nat idtac
                 | seg_in startCode0 11%nat idtac; rewrite Hc;
                   seg_in startCode0 8%nat idtac ];
           reflexivity | ]
       end.
  all: cbn [PC RAM]; split; [reflexivity|]; split; [|split];
    [ norm_load; norm_wrap; lia
    | norm_load; norm_wrap; reflexivity
    | intros x H0 H15 Hx; norm_load; reflexivity ].
Qed.

End Routines.

(** ** A block of the translator inside a text *)

Section Blocks.

Lemma linesFrom_last p : forall cur,
  endsWithNewline p = true ->
  linesFrom p cur = (removelast (linesFrom p cur) ++ [EmptyString])%list.
Proof.
  intros cur H. rewrite <- (append_nil_r p) at 1.
  now rewrite linesFrom_closed.
Qed.

Lemma codeLength_closed p :
  endsWithNewline p = true ->
  codeLength p = icount (map parseLine (removelast (sourceLines p))).
Proof.
  intros H. unfold codeLength, sourceLines.
  rewrite (linesFrom_last p EmptyString H) at 1.
  rewrite map_app, icount_app. cbn [List.map parseLine icount]. lia.
Qed.

(** The symbol table of the first pass serves every later line: the second
    pass only adds to it. *)
Lemma lookup_resolveState l t n name v :
  lookup name t = Some v ->
  lookup name (fst (resolveState l t n)) = Some v.
Proof.
  intros H. destruct (resolveState l t n) as [t1 n1] eqn:E.
  apply resolveState_extends in E as [X ->]. cbn [fst].
  now apply lookup_app_l.
Qed.

(** A block of lines [ls] that stands in a text after [pre]: its
    instructions sit at the address [codeLength pre], resolved with a table
    that has every label of the text. *)
Lemma block_in_text pre ls post rom :
  endsWithNewline pre = true ->
  forallb (allChars notNewline) ls = true ->
  assemble (pre ++ blockText ls ++ post) = Some rom ->
  exists table next,
    codeAt rom (codeLength pre) (resolve (map parseLine (blockLines ls)) table next)
    /\ forall name v,
         labelAddress (pre ++ blockText ls ++ post) name = Some v ->
         lookup name table = Some v.
Proof.
  intros Hpre Hls Hasm. unfold labelAddress.
  unfold assemble in Hasm. rewrite sourceLines_around in * by assumption.
  rewrite codeLength_closed by exact Hpre.
  rewrite !map_app in *.
  set (P := map parseLine (removelast (sourceLines pre))) in *.
  set (B := map parseLine (blockLines ls)) in *.
  set (Q := map parseLine (sourceLines post)) in *.
  unfold assembleLines in Hasm.
  destruct (collectLabels (P ++ B ++ Q) 0 predefined) as [T|]; [|discriminate].
  apply some_eq in Hasm. subst rom.
  rewrite !resolve_app.
  exists (fst (resolveState P T 16)), (snd (resolveState P T 16)). split.
  - rewrite <- (length_resolve P T 16). apply codeAt_app.
  - intros name v H. now apply lookup_resolveState.
Qed.

(** In a text that assembles the predefined symbols keep their addresses. *)
Lemma labelAddress_predefined text rom name v :
  assemble text = Some rom ->
  lookup name predefined = Some v ->
  labelAddress text name = Some v.
Proof.
  unfold assemble, assembleLines, labelAddress. intros Hasm H.
  destruct (collectLabels _ 0 predefined) as [T|] eqn:E; [|discriminate Hasm].
  apply collectLabels_extends in E as [X ->]. now apply lookup_app_l.
Qed.

End Blocks.

(** ** Symbols in the translator's text *)

Section SymbolLines.

Lemma uint_of_string_nondigit a c b :
  isDigit c = false -> NilEmpty.uint_of_string (a ++ String c b) = None.
Proof.
  intros Hc. induction a as [|x a IH].
  - cbn [append NilEmpty.uint_of_string].
    destruct (NilEmpty.uint_of_string b); [|reflexivity].
    destruct c as [[|] [|] [|] [|] [|] [|] [|] [|]];
      try reflexivity; discriminate Hc.
  - cbn [append NilEmpty.uint_of_string]. rewrite IH. reflexivity.
Qed.

Lemma parseLine_AtSym name :
  NilEmpty.uint_of_string name = None -> parseLine ("@" ++ name) = AtSym name.
Proof.
  intros H. destruct name as [|c r]; [discriminate H|].
  change (parseLine ("@" ++ String c r)) with
    (match NilEmpty.uint_of_string (String c r) with
     | Some d => AtNum (Z.of_uint d)
     | None => AtSym (String c r)
     end).
  now rewrite H.
Qed.

Lemma dropLast_app name : dropLast (name ++ ")") = Some name.
Proof.
  induction name as [|c r IH]; [reflexivity|].
  cbn [append]. destruct (r ++ ")") as [|c' r'] eqn:E.
  - destruct r; discriminate E.
  - change (dropLast (String c (String c' r')))
      with (option_map (String c) (dropLast (String c' r'))).
    now rewrite IH.
Qed.

Lemma parseLine_Label name : parseLine ("(" ++ name ++ ")") = Label name.
Proof.
  change (parseLine ("(" ++ name ++ ")")) with
    (match dropLast (name ++ ")") with
     | Some n => Label n
     | None => Bad
     end).
  now rewrite dropLast_app.
Qed.

End SymbolLines.

(** ** Comparison commands in a program *)

Section ComparisonCommands.

(** X2: in every program written for a folder, the block emitted for [eq],
    [gt] or [lt], entered at its first instruction on a stack of at least
    two words, ends at the instruction after the block with the two topmost
    words replaced by one: 65535 (all bits set) when the word below the top
    is equal to, greater than or less than the top word as signed numbers,
    and 0 otherwise.  For [gt] and [lt] this holds when the difference of the
    two fits a signed word; for [eq] always.  ([ret] is the block's return
    label, which stands for the address after the block.) *)
Theorem comparison_command_compares
    (g : VM.globals) (files : list (string * list string))
    (text pre block post : string) (rom : list instr)
    (g1 : VM.globals) (op ret : string) (count : Z) (holds : Z -> Z -> bool)
    (s : cpu) :
  In (op, ret, count, holds)
     [("eq", "RET_ADDRESS_EQ", VM.eqCount g1, fun x y => x =? y);
      ("gt", "RET_ADDRESS_GT", VM.gtCount g1, fun x y => signed y <? signed x);
      ("lt", "RET_ADDRESS_LT", VM.ltCount g1, fun x y => signed x <? signed y)] ->
  program g files = Some text ->
  assemble text = Some rom ->
  emitted (VM.parseCommand g1 op) = Some block ->
  text = pre ++ block ++ post ->
  endsWithNewline pre = true ->
  0 <= count ->
  labelAddress text (ret ++ Go.Itoa count) = Some (codeLength pre + 4) ->
  codeLength pre + 4 < 32768 ->
  PC s = codeLength pre ->
  18 <= load (RAM s) 0 ->
  let sp := load (RAM s) 0 in
  let x := load (RAM s) (sp - 2) in
  let y := load (RAM s) (sp - 1) in
  op = "eq" \/ -32768 <= signed x - signed y <= 32767 ->
  exists n s',
    run rom n s = Some s'
    /\ PC s' = codeLength pre + 4
    /\ load (RAM s') 0 = sp - 1
    /\ load (RAM s') (sp - 2) = (if holds x y then 65535 else 0)
    /\ forall a, a <> 0 -> a <> 15 -> a <> sp - 2 ->
                 load (RAM s') a = load (RAM s) a.
Proof.
  intros Hin Hprog Hasm Hblock Htext Hpre Hcount Hret Hfit Hpc Hsp sp x y Hov.
  destruct (program_layout _ _ _ _ Hprog Hasm) as [[tail Hrom] Hlab].
  set (b := VM.shouldSetStackPointer g) in *. clearbody b.
  assert (Hlines : exists routine entry cond,
             block = blockText ["@" ++ ret ++ Go.Itoa count; "D=A"; "@" ++ routine;
                                "0;JMP"; "(" ++ (ret ++ Go.Itoa count) ++ ")"]
             /\ NilEmpty.uint_of_string (ret ++ Go.Itoa count) = None
             /\ allChars notNewline ret = true
             /\ parseLine ("@" ++ routine) = AtSym routine
             /\ allChars notNewline routine = true
             /\ lookup routine (startLabels b) = Some entry
             /\ In (entry, cond)
                  [((if b then 142 else 138), fun d => negb (signed d =? 0));
                   ((if b then 123 else 119), fun d => signed d <=? 0);
                   ((if b then 104 else 100), fun d => 0 <=? signed d)]
             /\ cond (wrap (x - y)) = negb (holds x y)).
  { pose proof (load_range (RAM s) (sp - 2)) as Hx.
    pose proof (load_range (RAM s) (sp - 1)) as Hy.
    fold x in Hx. fold y in Hy.
    cbn [In] in Hin. destruct Hin as [E|[E|[E|[]]]];
      injection E as <- <- <- <-.
    - exists "EQ", (if b then 142 else 138), (fun d => negb (signed d =? 0)).
      apply some_eq in Hblock. subst block.
      split; [reflexivity|].
      split; [apply (uint_of_string_nondigit EmptyString "R"); reflexivity|].
      split; [reflexivity|]. split; [reflexivity|]. split; [reflexivity|].
      split; [destruct b; reflexivity|].
      split; [cbn [In]; auto|].
      cbv beta. rewrite signed_zero by apply wrap_range.
      now rewrite wrap_sub_zero.
    - exists "GT", (if b then 123 else 119), (fun d => signed d <=? 0).
      apply some_eq in Hblock. subst block.
      split; [reflexivity|].
      split; [apply (uint_of_string_nondigit EmptyString "R"); reflexivity|].
      split; [reflexivity|]. split; [reflexivity|]. split; [reflexivity|].
      split; [destruct b; reflexivity|].
      split; [cbn [In]; auto|].
      destruct Hov as [Hov|Hov]; [discriminate Hov|].
      cbv beta. rewrite signed_sub by assumption.
      destruct (Z.leb_spec (signed x - signed y) 0),
        (Z.ltb_spec (signed y) (signed x)); try reflexivity; lia.
    - exists "LT", (if b then 104 else 100), (fun d => 0 <=? signed d).
      apply some_eq in Hblock. subst block.
      split; [reflexivity|].
      split; [apply (uint_of_string_nondigit EmptyString "R"); reflexivity|].
      split; [reflexivity|]. split; [reflexivity|]. split; [reflexivity|].
      split; [destruct b; reflexivity|].
      split; [cbn [In]; auto|].
      destruct Hov as [Hov|Hov]; [discriminate Hov|].
      cbv beta. rewrite signed_sub by assumption.
      destruct (Z.leb_spec 0 (signed x - signed y)),
        (Z.ltb_spec (signed x) (signed y)); try reflexivity; lia. }
  destruct Hlines as (routine & entry & cond & -> & Hsym & Hnl & Hroutine
                      & Hrnl & Hentry & Hcase & Hcond).
  clear Hblock Hin Hov.
  set (label := ret ++ Go.Itoa count) in *.
  assert (Hlabel_nl : allChars notNewline label = true).
  { unfold label. rewrite allChars_append, Hnl. now apply Itoa_notNewline. }
  assert (Hls : forallb (allChars notNewline)
                  ["@" ++ label; "D=A"; "@" ++ routine; "0;JMP";
                   "(" ++ label ++ ")"] = true).
  { cbn [forallb]. rewrite (allChars_append _ "(" (label ++ ")")).
    rewrite (allChars_append _ label ")").
    rewrite (allChars_append _ "@" label), (allChars_append _ "@" routine).
    rewrite Hlabel_nl, Hrnl. reflexivity. }
  subst text.
  destruct (block_in_text _ _ _ _ Hpre Hls Hasm) as (table & next & Hat & Htable).
  apply Htable in Hret. apply Hlab in Hentry. apply Htable in Hentry.
  clear Htable Hlab Hasm Hprog Hls.
  cbn [blockLines List.map] in Hat.
  rewrite parseLine_Label, Hroutine, (parseLine_AtSym label Hsym) in Hat.
  change (parseLine "D=A") with
    (CLine {| toA := false; toD := true; toM := false |} c_A j_none) in Hat.
  change (parseLine "0;JMP") with
    (CLine {| toA := false; toD := false; toM := false |} c_0 JMP) in Hat.
  cbn [resolve] in Hat. rewrite Hret, Hentry in Hat.
  pose proof (icount_nonneg (map parseLine (sourceLines pre))) as Hlen.
  fold (codeLength pre) in Hlen.
  set (p := codeLength pre) in *. clearbody p.
  subst sp x y.
  destruct s as [a d pc m]. cbn [PC RAM] in *. subst pc.
  destruct (routine_run b tail
              {| A := entry; D := p + 4; PC := entry; RAM := m |}
              entry cond Hcase eq_refl Hsp)
    as (n & s' & Hrun & Hpc' & Hsp' & Htop & Hframe).
  cbn [PC RAM D] in *.
  exists (4 + n)%nat, s'. split.
  - match type of Hat with
    | codeAt _ _ ?code =>
      rewrite (run_segment_at rom code (4 + n) n
                 {| A := a; D := d; PC := p; RAM := m |} eq_refl Hat eq_refl)
    end.
    rewrite !exec_cons, exec_nil.
    cbn [step alu taken toA toD toM A D PC RAM].
    assert (He : 0 <= entry < 65536).
    { cbn [In] in Hcase. destruct Hcase as [E|[E|[E|[]]]];
        injection E as <- _; destruct b; lia. }
    rewrite !(wrap_small entry) by exact He.
    rewrite (wrap_small (p + 4)) by lia. rewrite (wrap_small (p + 4)) by lia.
    rewrite Hrom. exact Hrun.
  - split; [rewrite Hpc'; apply wrap_small; lia|].
    split; [exact Hsp'|]. split; [|exact Hframe].
    rewrite Htop, Hcond.
    destruct (holds _ _); reflexivity.
Qed.

Lemma comparison_command_compares_witness :
  exists n s',
    run eqRom n (demoStateAt 157) = Some s'
    /\ PC s' = 161
    /\ load (RAM s') 0 = 299
    /\ load (RAM s') 298 = 0.
Proof.
  destruct (comparison_command_compares
              g0 (unit1 "eq") eqText (startAndRoutines false)
              (blockText ["@RET_ADDRESS_EQ0"; "D=A"; "@EQ"; "0;JMP";
                          "(RET_ADDRESS_EQ0)"])
              EmptyString eqRom g0 "eq" "RET_ADDRESS_EQ" 0 (fun x y => x =? y)
              (demoStateAt 157))
    as (n & s' & Hrun & Hpc & Hsp & Htop & _).
  - simpl. left. reflexivity.
  - vm_compute. reflexivity.
  - vm_compute. reflexivity.
  - vm_compute. reflexivity.
  - vm_compute. reflexivity.
  - vm_compute. reflexivity.
  - lia.
  - vm_compute. reflexivity.
  - vm_compute. reflexivity.
  - vm_compute. reflexivity.
  - vm_compute. discriminate.
  - left. reflexivity.
  - exists n, s'. split; [exact Hrun|]. split; [exact Hpc|].
    split; [exact Hsp | exact Htop].
Defined.

End ComparisonCommands.

(** ** Blocks without jumps *)

Section StraightLine.

Lemma straight_line rom code s (P : cpu -> Prop) :
  codeAt rom (PC s) code ->
  forallb falls code = true ->
  P (exec code s) ->
  exists s',
    run rom (List.length code) s = Some s'
    /\ PC s' = PC s + Z.of_nat (List.length code)
    /\ P s'.
Proof.
  intros Hat Hf HP. destruct (run_exec rom code s Hat Hf) as [Hrun Hpc].
  exists (exec code s). auto.
Qed.

Lemma sourceLines_block ls :
  forallb (allChars notNewline) ls = true ->
  sourceLines (blockText ls) = (blockLines ls ++ [EmptyString])%list.
Proof.
  intros H. unfold sourceLines.
  rewrite <- (append_nil_r (blockText ls)).
  now rewrite linesFrom_block.
Qed.

End StraightLine.

(** ** Arithmetic and logical commands *)

Section Operations.

(** X3: wherever the block emitted for [add], [and] or [or] sits in a
    program, running it replaces the two topmost stack words by their sum,
    their bitwise conjunction or their bitwise disjunction (cut to sixteen
    bits): the stack pointer drops by one and no other memory word
    changes. *)
Theorem binary_operation_combines_two_topmost
    (g : VM.globals) (op : string) (f : Z -> Z -> Z) (text : string)
    (rom code : list instr) (s : cpu) :
  In (op, f) [("add", Z.add); ("and", Z.land); ("or", Z.lor)] ->
  emitted (VM.parseCommand g op) = Some text ->
  assemble text = Some code ->
  codeAt rom (PC s) code ->
  2 < load (RAM s) 0 ->
  let sp := load (RAM s) 0 in
  exists s',
    run rom (List.length code) s = Some s'
    /\ PC s' = PC s + Z.of_nat (List.length code)
    /\ load (RAM s') 0 = sp - 1
    /\ load (RAM s') (sp - 2)
       = wrap (f (load (RAM s) (sp - 2)) (load (RAM s) (sp - 1)))
    /\ forall a, a <> 0 -> a <> sp - 2 -> load (RAM s') a = load (RAM s) a.
Proof.
  intros Hop Htext Hasm Hat Hsp sp. subst sp.
  apply straight_line; [exact Hat | |].
  - cbn [In] in Hop. destruct Hop as [E|[E|[E|[]]]]; injection E as <- <-;
      vm_compute in Htext; injection Htext as <-;
      vm_compute in Hasm; injection Hasm as <-; reflexivity.
  - clear Hat. pose proof (load_range (RAM s) 0) as Hr.
    destruct s as [a d pc m]. cbn [RAM] in *.
    cbn [In] in Hop. destruct Hop as [E|[E|[E|[]]]]; injection E as <- <-;
      vm_compute in Htext; injection Htext as <-;
      vm_compute in Hasm; injection Hasm as <-.
    all: exec_all.
    all: split; [|split];
      [ norm_load; norm_wrap; reflexivity
      | norm_load; norm_wrap
      | intros x H0 H2; norm_load; reflexivity ].
    + f_equal. rewrite Z.add_comm. f_equal. f_equal. lia.
    + f_equal. rewrite Z.land_comm. f_equal. f_equal. lia.
    + f_equal. rewrite Z.lor_comm. f_equal. f_equal. lia.
Qed.

Lemma binary_operation_combines_two_topmost_witness :
  exists s',
    run (blockCode (VM.add ++ Go.nl)) 5 demoState = Some s'
    /\ PC s' = 5
    /\ load (RAM s') 0 = 299
    /\ load (RAM s') 298 = 10.
Proof.
  destruct (binary_operation_combines_two_topmost
              g0 "add" Z.add (VM.add ++ Go.nl)
              (blockCode (VM.add ++ Go.nl)) (blockCode (VM.add ++ Go.nl))
              demoState)
    as (s' & Hrun & Hpc & Hsp & Htop & _).
  - simpl. left. reflexivity.
  - vm_compute. reflexivity.
  - vm_compute. reflexivity.
  - split; [simpl; lia | reflexivity].
  - vm_compute. reflexivity.
  - exists s'. split; [exact Hrun|]. split; [exact Hpc|].
    split; [exact Hsp | exact Htop].
Defined.

(** X4: wherever the block emitted for [neg] or [not] sits in a program,
    running it replaces the topmost stack word by its two's complement
    negation or by its bitwise complement (cut to sixteen bits); the stack
    pointer and every other memory word are as before. *)
Theorem unary_operation_replaces_topmost
    (g : VM.globals) (op : string) (f : Z -> Z) (text : string)
    (rom code : list instr) (s : cpu) :
  In (op, f) [("neg", Z.opp); ("not", Z.lnot)] ->
  emitted (VM.parseCommand g op) = Some text ->
  assemble text = Some code ->
  codeAt rom (PC s) code ->
  1 < load (RAM s) 0 ->
  let sp := load (RAM s) 0 in
  exists s',
    run rom (List.length code) s = Some s'
    /\ PC s' = PC s + Z.of_nat (List.length code)
    /\ load (RAM s') 0 = sp
    /\ load (RAM s') (sp - 1) = wrap (f (load (RAM s) (sp - 1)))
    /\ forall a, a <> sp - 1 -> load (RAM s') a = load (RAM s) a.
Proof.
  intros Hop Htext Hasm Hat Hsp sp. subst sp.
  apply straight_line; [exact Hat | |].
  - cbn [In] in Hop. destruct Hop as [E|[E|[]]]; injection E as <- <-;
      vm_compute in Htext; injection Htext as <-;
      vm_compute in Hasm; injection Hasm as <-; reflexivity.
  - clear Hat. pose proof (load_range (RAM s) 0) as Hr.
    destruct s as [a d pc m]. cbn [RAM] in *.
    cbn [In] in Hop. destruct Hop as [E|[E|[]]]; injection E as <- <-;
      vm_compute in Htext; injection Htext as <-;
      vm_compute in Hasm; injection Hasm as <-.
    all: exec_all.
    all: split; [|split];
      [ norm_load; norm_wrap; lia
      | norm_load; norm_wrap; reflexivity
      | intros x Hx; mem_cases; norm_wrap;
        first [reflexivity | lia | subst x; lia] ].
Qed.

Lemma unary_operation_replaces_topmost_witness :
  exists s',
    run (blockCode (VM.not ++ Go.nl)) 5 demoState = Some s'
    /\ PC s' = 5
    /\ load (RAM s') 0 = 300
    /\ load (RAM s') 299 = 65532.
Proof.
  destruct (unary_operation_replaces_topmost
              g0 "not" Z.lnot (VM.not ++ Go.nl)
              (blockCode (VM.not ++ Go.nl)) (blockCode (VM.not ++ Go.nl))
              demoState)
    as (s' & Hrun & Hpc & Hsp & Htop & _).
  - simpl. right. left. reflexivity.
  - vm_compute. reflexivity.
  - vm_compute. reflexivity.
  - split; [simpl; lia | reflexivity].
  - vm_compute. reflexivity.
  - exists s'. split; [exact Hrun|]. split; [exact Hpc|].
    split; [exact Hsp | exact Htop].
Defined.

End Operations.

(** ** Memory access commands on the machine *)

Lemma sourceLines_one ls :
  forallb (allChars notNewline) ls = true ->
  sourceLines (Go.Join ls Go.nl ++ Go.nl) = (blockLines ls ++ [EmptyString])%list.
Proof. apply sourceLines_block. Qed.

Ltac assemble_one H :=
  unfold assemble in H;
  rewrite sourceLines_one in H by lines_ok;
  cbn [blockLines List.app List.map] in H;
  rewrite ?parseLine_At in H by assumption;
  match type of H with
  | assembleLines ?l = _ =>
    let r := eval vm_compute in (assembleLines l) in
    change (assembleLines l) with r in H
  end;
  injection H as <-.

Section PushPop.

(** X5: wherever the block emitted for [push constant k] sits in a program,
    running it stores [k] in the word the stack pointer addresses and adds
    one to the stack pointer; no other memory word changes. *)
Theorem push_constant_pushes_the_constant
    (g : VM.globals) (k : Z) (rom code : list instr) (s : cpu) :
  0 <= k < 32768 ->
  assemble (VM.handlePush g "constant" k) = Some code ->
  codeAt rom (PC s) code ->
  0 < load (RAM s) 0 < 65535 ->
  let sp := load (RAM s) 0 in
  exists s',
    run rom (List.length code) s = Some s'
    /\ PC s' = PC s + Z.of_nat (List.length code)
    /\ load (RAM s') 0 = sp + 1
    /\ load (RAM s') sp = k
    /\ forall a, a <> 0 -> a <> sp -> load (RAM s') a = load (RAM s) a.
Proof.
  intros Hk Hasm Hat Hsp sp. subst sp.
  assert (Hk0 : 0 <= k) by lia.
  unfold VM.handlePush in Hasm.
  cbn [String.eqb Ascii.eqb Bool.eqb] in Hasm.
  assemble_one Hasm.
  apply straight_line; [exact Hat | reflexivity |].
  clear Hat. destruct s as [a d pc m]. cbn [RAM] in *.
  exec_all.
  split; [|split].
  - norm_load. norm_wrap. reflexivity.
  - norm_load. norm_wrap. reflexivity.
  - intros x H0 Hx. norm_load. reflexivity.
Qed.

Lemma push_constant_pushes_the_constant_witness :
  exists s',
    run (blockCode (VM.handlePush g0 "constant" 17)) 6 demoState = Some s'
    /\ load (RAM s') 0 = 301
    /\ load (RAM s') 300 = 17.
Proof.
  destruct (push_constant_pushes_the_constant
              g0 17 (blockCode (VM.handlePush g0 "constant" 17))
              (blockCode (VM.handlePush g0 "constant" 17)) demoState)
    as (s' & Hrun & _ & Hsp & Htop & _).
  - lia.
  - vm_compute. reflexivity.
  - split; [simpl; lia | reflexivity].
  - vm_compute. split; reflexivity.
  - exists s'. split; [exact Hrun|]. split; [exact Hsp | exact Htop].
Defined.

(** X6: wherever the block emitted for [push local k], [push argument k],
    [push this k] or [push that k] sits in a program, running it copies the
    word at (base of the segment) + k to the word the stack pointer
    addresses and adds one to the stack pointer; no other memory word
    changes.  The base is the content of [LCL], [ARG], [THIS] or [THAT]. *)
Theorem push_segment_pushes_the_slot
    (g : VM.globals) (seg : string) (ptr k : Z)
    (rom code : list instr) (s : cpu) :
  In (seg, ptr) [("local", 1); ("argument", 2); ("this", 3); ("that", 4)] ->
  0 <= k ->
  assemble (VM.handlePush g seg k) = Some code ->
  codeAt rom (PC s) code ->
  0 < load (RAM s) 0 < 65535 ->
  let sp := load (RAM s) 0 in
  exists s',
    run rom (List.length code) s = Some s'
    /\ PC s' = PC s + Z.of_nat (List.length code)
    /\ load (RAM s') 0 = sp + 1
    /\ load (RAM s') sp = load (RAM s) (wrap (load (RAM s) ptr + k))
    /\ forall a, a <> 0 -> a <> sp -> load (RAM s') a = load (RAM s) a.
Proof.
  intros Hseg Hk Hasm Hat Hsp sp. subst sp.
  assert (Hcode : forallb falls code = true /\
     forall a d pc m, 0 < load m 0 < 65535 ->
       let s' := exec code {| A := a; D := d; PC := pc; RAM := m |} in
       load (RAM s') 0 = load m 0 + 1
    /\ load (RAM s') (load m 0) = load m (wrap (load m ptr + k))
    /\ forall a, a <> 0 -> a <> load m 0 -> load (RAM s') a = load m a).
  { clear Hat Hsp s rom.
    destruct (Z.eqb_spec k 0) as [Hk0|Hk0].
    - subst k. cbn [In] in Hseg.
      destruct Hseg as [E|[E|[E|[E|[]]]]]; injection E as <- <-;
        unfold VM.handlePush in Hasm;
        cbn [String.eqb Ascii.eqb Bool.eqb Z.eqb] in Hasm;
        assemble_one Hasm.
      all: (split; [reflexivity|]).
      all: intros a d pc m Hsp s'; subst s'.
      all: exec_all.
      all: rewrite Z.add_0_r, wrap_load.
      all: split; [|split];
        [ norm_load; norm_wrap; reflexivity
        | norm_load; norm_wrap; reflexivity
        | intros x H0 Hx; norm_load; reflexivity ].
    - cbn [In] in Hseg. apply Z.eqb_neq in Hk0.
      destruct Hseg as [E|[E|[E|[E|[]]]]]; injection E as <- <-;
        unfold VM.handlePush in Hasm;
        cbn [String.eqb Ascii.eqb Bool.eqb] in Hasm; rewrite Hk0 in Hasm;
        assemble_one Hasm.
      all: (split; [reflexivity|]).
      all: intros a d pc m Hsp s'; subst s'.
      all: exec_all.
      all: rewrite ?wrap_add_l, ?(Z.add_comm k).
      all: split; [|split];
        [ norm_load; norm_wrap; reflexivity
        | norm_load; norm_wrap; reflexivity
        | intros x H0 Hx; norm_load; reflexivity ]. }
  destruct Hcode as [Hfalls Hexec].
  apply straight_line; [exact Hat | exact Hfalls |].
  destruct s as [a d pc m]. apply (Hexec a d pc m Hsp).
Qed.

Lemma push_segment_pushes_the_slot_witness :
  exists s',
    run (blockCode (VM.handlePush g0 "argument" 18)) 11 demoState = Some s'
    /\ load (RAM s') 0 = 301
    /\ load (RAM s') 300 = 7.
Proof.
  destruct (push_segment_pushes_the_slot
              g0 "argument" 2 18 (blockCode (VM.handlePush g0 "argument" 18))
              (blockCode (VM.handlePush g0 "argument" 18)) demoState)
    as (s' & Hrun & _ & Hsp & Htop & _).
  - simpl. right. left. reflexivity.
  - lia.
  - vm_compute. reflexivity.
  - split; [simpl; lia | reflexivity].
  - vm_compute. split; reflexivity.
  - exists s'. split; [exact Hrun|]. split; [exact Hsp | exact Htop].
Defined.

(** X7: wherever the block emitted for [pop local k], [pop argument k],
    [pop this k] or [pop that k] sits in a program, running it moves the
    topmost stack word to the word at (base of the segment) + k and takes
    one from the stack pointer; apart from [R13] no other memory word
    changes. *)
Theorem pop_segment_stores_the_top
    (g : VM.globals) (seg : string) (ptr k : Z)
    (rom code : list instr) (s : cpu) :
  In (seg, ptr) [("local", 1); ("argument", 2); ("this", 3); ("that", 4)] ->
  0 <= k ->
  assemble (VM.handlePop g seg k) = Some code ->
  codeAt rom (PC s) code ->
  16 <= load (RAM s) 0 ->
  let sp := load (RAM s) 0 in
  let slot := wrap (load (RAM s) ptr + k) in
  exists s',
    run rom (List.length code) s = Some s'
    /\ PC s' = PC s + Z.of_nat (List.length code)
    /\ load (RAM s') slot = load (RAM s) (sp - 1)
    /\ (slot <> 0 -> load (RAM s') 0 = sp - 1)
    /\ forall a, a <> 0 -> a <> 13 -> a <> slot ->
                 load (RAM s') a = load (RAM s) a.
Proof.
  intros Hseg Hk Hasm Hat Hsp sp slot. subst sp slot.
  assert (Hcode : forallb falls code = true /\
     forall a d pc m, 16 <= load m 0 ->
       let s' := exec code {| A := a; D := d; PC := pc; RAM := m |} in
       load (RAM s') (wrap (load m ptr + k)) = load m (load m 0 - 1)
    /\ (wrap (load m ptr + k) <> 0 -> load (RAM s') 0 = load m 0 - 1)
    /\ forall a, a <> 0 -> a <> 13 -> a <> wrap (load m ptr + k) ->
                 load (RAM s') a = load m a).
  { clear Hat Hsp s rom.
    destruct (Z.eqb_spec k 0) as [Hk0|Hk0].
    - subst k. cbn [In] in Hseg.
      destruct Hseg as [E|[E|[E|[E|[]]]]]; injection E as <- <-;
        unfold VM.handlePop in Hasm;
        cbn [String.eqb Ascii.eqb Bool.eqb Z.eqb] in Hasm;
        assemble_one Hasm.
      all: (split; [reflexivity|]).
      all: intros a d pc m Hsp s'; subst s';
        pose proof (load_range m 0) as Hr.
      all: exec_all.
      all: rewrite Z.add_0_r, wrap_load.
      all: split; [|split];
        [ norm_load; norm_wrap; reflexivity
        | intros Hs; norm_load; norm_wrap; reflexivity
        | intros x H0 H13 Hx; norm_load; reflexivity ].
    - cbn [In] in Hseg. apply Z.eqb_neq in Hk0.
      destruct Hseg as [E|[E|[E|[E|[]]]]]; injection E as <- <-;
        unfold VM.handlePop in Hasm;
        cbn [String.eqb Ascii.eqb Bool.eqb] in Hasm; rewrite Hk0 in Hasm;
        unfold VM.locRegister in Hasm;
        assemble_one Hasm.
      all: (split; [reflexivity|]).
      all: intros a d pc m Hsp s'; subst s';
        pose proof (load_range m 0) as Hr.
      all: exec_all.
      all: rewrite ?wrap_add_l, ?(Z.add_comm k).
      all: split; [|split];
        [ norm_load; norm_wrap; reflexivity
        | intros Hs; norm_load; norm_wrap; reflexivity
        | intros x H0 H13 Hx; norm_load; reflexivity ]. }
  destruct Hcode as [Hfalls Hexec].
  apply straight_line; [exact Hat | exact Hfalls |].
  destruct s as [a d pc m]. apply (Hexec a d pc m Hsp).
Qed.

Lemma pop_segment_stores_the_top_witness :
  exists s',
    run (blockCode (VM.handlePop g0 "local" 2)) 13 demoState = Some s'
    /\ load (RAM s') 292 = 3
    /\ load (RAM s') 0 = 299.
Proof.
  destruct (pop_segment_stores_the_top
              g0 "local" 1 2 (blockCode (VM.handlePop g0 "local" 2))
              (blockCode (VM.handlePop g0 "local" 2)) demoState)
    as (s' & Hrun & _ & Hslot & Hsp & _).
  - simpl. left. reflexivity.
  - lia.
  - vm_compute. reflexivity.
  - split; [simpl; lia | reflexivity].
  - vm_compute. discriminate.
  - exists s'. split; [exact Hrun|]. split; [exact Hslot|].
    apply Hsp. vm_compute. discriminate.
Defined.

Lemma wrap_int_add5 i : 0 <= i < 32763 -> Go.wrap_int (i + 5) = i + 5.
Proof. intros H. apply wrap_int_small. unfold Go.MinInt, Go.MaxInt. lia. Qed.

(** X8: the segments with a fixed place.  Wherever the block emitted for
    [push temp i] or [push pointer i] sits in a program, running it copies
    the word at address 5 + i (temp) or the word [THIS] or [THAT]
    (pointer 0 or 1) to the word the stack pointer addresses and adds one to
    the stack pointer; no other memory word changes. *)
Theorem push_fixed_segment_pushes_the_word
    (g : VM.globals) (seg : string) (i addr : Z)
    (rom code : list instr) (s : cpu) :
  (seg = "temp" /\ 0 <= i < 32763 /\ addr = 5 + i)
  \/ (seg = "pointer" /\ (i = 0 \/ i = 1) /\ addr = 3 + i) ->
  assemble (VM.handlePush g seg i) = Some code ->
  codeAt rom (PC s) code ->
  0 < load (RAM s) 0 < 65535 ->
  let sp := load (RAM s) 0 in
  exists s',
    run rom (List.length code) s = Some s'
    /\ PC s' = PC s + Z.of_nat (List.length code)
    /\ load (RAM s') 0 = sp + 1
    /\ load (RAM s') sp = load (RAM s) addr
    /\ forall a, a <> 0 -> a <> sp -> load (RAM s') a = load (RAM s) a.
Proof.
  intros Hseg Hasm Hat Hsp sp. subst sp.
  assert (Hcode : code = [At addr;
                          Cmd {| toA := false; toD := true; toM := false |}
                            c_M j_none;
                          At 0;
                          Cmd {| toA := true; toD := false; toM := true |}
                            c_Mp1 j_none;
                          Cmd {| toA := true; toD := false; toM := false |}
                            c_Am1 j_none;
                          Cmd {| toA := false; toD := false; toM := true |}
                            c_D j_none]
                  /\ 0 <= addr < 32768).
  { destruct Hseg as [(-> & Hi & ->) | (-> & [-> | ->] & ->)].
    - unfold VM.handlePush in Hasm.
      cbn [String.eqb Ascii.eqb Bool.eqb] in Hasm.
      rewrite wrap_int_add5 in Hasm by exact Hi.
      assert (H5 : 0 <= i + 5) by lia.
      assemble_one Hasm. rewrite (Z.add_comm 5 i). split; [reflexivity | lia].
    - vm_compute in Hasm. injection Hasm as <-. split; [reflexivity | lia].
    - vm_compute in Hasm. injection Hasm as <-. split; [reflexivity | lia]. }
  destruct Hcode as [-> Haddr]. clear Hasm Hseg.
  apply straight_line; [exact Hat | reflexivity |].
  clear Hat. destruct s as [a d pc m]. cbn [RAM] in *.
  exec_all.
  split; [|split].
  - norm_load. norm_wrap. reflexivity.
  - norm_load. norm_wrap. reflexivity.
  - intros x H0 Hx. norm_load. reflexivity.
Qed.

Lemma push_fixed_segment_pushes_the_word_witness :
  exists s',
    run (blockCode (VM.handlePush g0 "pointer" 1)) 6 demoState = Some s'
    /\ load (RAM s') 0 = 301
    /\ load (RAM s') 300 = 4000.
Proof.
  destruct (push_fixed_segment_pushes_the_word
              g0 "pointer" 1 4 (blockCode (VM.handlePush g0 "pointer" 1))
              (blockCode (VM.handlePush g0 "pointer" 1)) demoState)
    as (s' & Hrun & _ & Hsp & Htop & _).
  - right. split; [reflexivity|]. split; [right; reflexivity | reflexivity].
  - vm_compute. reflexivity.
  - split; [simpl; lia | reflexivity].
  - vm_compute. split; reflexivity.
  - exists s'. split; [exact Hrun|]. split; [exact Hsp | exact Htop].
Defined.

(** X9: wherever the block emitted for [pop temp i] or [pop pointer i] sits
    in a program, running it moves the topmost stack word to the word at
    address 5 + i (temp) or to [THIS] or [THAT] (pointer 0 or 1) and takes
    one from the stack pointer; no other memory word changes. *)
Theorem pop_fixed_segment_stores_the_top
    (g : VM.globals) (seg : string) (i addr : Z)
    (rom code : list instr) (s : cpu) :
  (seg = "temp" /\ 0 <= i < 32763 /\ addr = 5 + i)
  \/ (seg = "pointer" /\ (i = 0 \/ i = 1) /\ addr = 3 + i) ->
  assemble (VM.handlePop g seg i) = Some code ->
  codeAt rom (PC s) code ->
  1 < load (RAM s) 0 ->
  let sp := load (RAM s) 0 in
  exists s',
    run rom (List.length code) s = Some s'
    /\ PC s' = PC s + Z.of_nat (List.length code)
    /\ load (RAM s') 0 = sp - 1
    /\ load (RAM s') addr = load (RAM s) (sp - 1)
    /\ forall a, a <> 0 -> a <> addr -> load (RAM s') a = load (RAM s) a.
Proof.
  intros Hseg Hasm Hat Hsp sp. subst sp.
  assert (Hcode : code = [At 0;
                          Cmd {| toA := true; toD := false; toM := true |}
                            c_Mm1 j_none;
                          Cmd {| toA := false; toD := true; toM := false |}
                            c_M j_none;
                          At addr;
                          Cmd {| toA := false; toD := false; toM := true |}
                            c_D j_none]
                  /\ 3 <= addr < 32768).
  { destruct Hseg as [(-> & Hi & ->) | (-> & [-> | ->] & ->)].
    - unfold VM.handlePop in Hasm.
      cbn [String.eqb Ascii.eqb Bool.eqb] in Hasm.
      rewrite wrap_int_add5 in Hasm by exact Hi.
      assert (H5 : 0 <= i + 5) by lia.
      assemble_one Hasm. rewrite (Z.add_comm 5 i). split; [reflexivity | lia].
    - vm_compute in Hasm. injection Hasm as <-. split; [reflexivity | lia].
    - vm_compute in Hasm. injection Hasm as <-. split; [reflexivity | lia]. }
  destruct Hcode as [-> Haddr]. clear Hasm Hseg.
  apply straight_line; [exact Hat | reflexivity |].
  clear Hat. pose proof (load_range (RAM s) 0) as Hr.
  destruct s as [a d pc m]. cbn [RAM] in *.
  exec_all.
  split; [|split].
  - norm_load. norm_wrap. reflexivity.
  - norm_load. norm_wrap. reflexivity.
  - intros x H0 Hx. norm_load. reflexivity.
Qed.

Lemma pop_fixed_segment_stores_the_top_witness :
  exists s',
    run (blockCode (VM.handlePop g0 "temp" 6)) 5 demoState = Some s'
    /\ load (RAM s') 0 = 299
    /\ load (RAM s') 11 = 3.
Proof.
  destruct (pop_fixed_segment_stores_the_top
              g0 "temp" 6 11 (blockCode (VM.handlePop g0 "temp" 6))
              (blockCode (VM.handlePop g0 "temp" 6)) demoState)
    as (s' & Hrun & _ & Hsp & Htop & _).
  - left. split; [reflexivity|]. split; [lia | reflexivity].
  - vm_compute. reflexivity.
  - split; [simpl; lia | reflexivity].
  - vm_compute. reflexivity.
  - exists s'. split; [exact Hrun|]. split; [exact Hsp | exact Htop].
Defined.

End PushPop.

(** ** The entry of a function *)

Section FunctionEntry.

Lemma exec_app c1 c2 s : exec (c1 ++ c2) s = exec c2 (exec c1 s).
Proof. unfold exec. apply fold_left_app. Qed.

Lemma forallb_concat_repeat {T : Type} (p : T -> bool) (l : list T) n :
  forallb p l = true -> forallb p (List.concat (repeat l n)) = true.
Proof.
  intros H. induction n as [|n IH]; [reflexivity|].
  cbn [repeat List.concat]. now rewrite forallb_app, H, IH.
Qed.

Lemma map_concat_repeat {S T : Type} (f : S -> T) (l : list S) n :
  map f (List.concat (repeat l n)) = List.concat (repeat (map f l) n).
Proof.
  induction n as [|n IH]; [reflexivity|].
  cbn [repeat List.concat]. now rewrite map_app, IH.
Qed.

Lemma length_concat_repeat {T : Type} (l : list T) n :
  List.length (List.concat (repeat l n)) = (n * List.length l)%nat.
Proof.
  induction n as [|n IH]; [reflexivity|].
  cbn [repeat List.concat]. rewrite length_app, IH. lia.
Qed.

(** The lines of a function block: the label, then the same five lines for
    each local variable. *)
Lemma assembleLines_function name n :
  assembleLines
    (Label name
     :: List.concat
          (repeat (map parseLine ["@SP"; "A=M"; "M=0"; "@SP"; "M=M+1"]) n)
        ++ [Blank])
  = Some (List.concat (repeat initLocalCode n)).
Proof.
  set (P := map parseLine ["@SP"; "A=M"; "M=0"; "@SP"; "M=M+1"]).
  unfold assembleLines. cbn [collectLabels].
  assert (Hc : forall a t, collectLabels (List.concat (repeat P n) ++ [Blank]) a t
                           = Some t).
  { induction n as [|k IH]; intros a t; [reflexivity|].
    cbn [repeat List.concat]. rewrite <- app_assoc.
    rewrite collectLabels_app.
    change (collectLabels P a t) with (Some t). apply IH. }
  rewrite Hc. f_equal. cbn [resolve]. clear Hc.
  induction n as [|k IH]; [reflexivity|].
  cbn [repeat List.concat]. rewrite <- app_assoc, resolve_app.
  destruct (resolve_bound P predefined [(name, 0)] 16 eq_refl) as [-> ->].
  cbn [fst snd]. rewrite IH. reflexivity.
Qed.

(** Running the code that sets [n] local variables to 0. *)
Lemma exec_initLocals n : forall a d pc m,
  0 < load m 0 -> load m 0 + Z.of_nat n < 65536 ->
  let s' := exec (List.concat (repeat initLocalCode n))
              {| A := a; D := d; PC := pc; RAM := m |} in
  load (RAM s') 0 = load m 0 + Z.of_nat n
  /\ (forall i, 0 <= i < Z.of_nat n -> load (RAM s') (load m 0 + i) = 0)
  /\ (forall x, x <> 0 -> ~ (load m 0 <= x < load m 0 + Z.of_nat n) ->
                load (RAM s') x = load m x).
Proof.
  induction n as [|n IH]; intros a d pc m Hsp Hmax s'; subst s'.
  - cbn [repeat List.concat]. rewrite exec_nil. cbn [RAM].
    split; [lia|]. split; [intros; lia | reflexivity].
  - cbn [repeat List.concat]. rewrite exec_app.
    pose proof (load_range m 0) as Hr.
    assert (E : exec initLocalCode {| A := a; D := d; PC := pc; RAM := m |}
                = {| A := 0; D := d; PC := pc + 1 + 1 + 1 + 1 + 1;
                     RAM := store (store m (load m 0) 0) 0 (load m 0 + 1) |}).
    { unfold initLocalCode. exec_all. reflexivity. }
    rewrite E. clear E.
    specialize (IH 0 d (pc + 1 + 1 + 1 + 1 + 1)
                  (store (store m (load m 0) 0) 0 (load m 0 + 1))).
    assert (H0 : load (store (store m (load m 0) 0) 0 (load m 0 + 1)) 0
                 = load m 0 + 1).
    { norm_load. norm_wrap. reflexivity. }
    rewrite H0 in IH.
    destruct IH as (IH1 & IH2 & IH3); [lia | lia |].
    split; [rewrite IH1; lia|]. split.
    + intros i Hi. destruct (Z.eq_dec i 0) as [->|Hi0].
      * rewrite Z.add_0_r. rewrite IH3 by lia. norm_load. reflexivity.
      * replace (load m 0 + i) with (load m 0 + 1 + (i - 1)) by lia.
        apply IH2. lia.
    + intros x Hx Hout. rewrite IH3 by lia. norm_load. reflexivity.
Qed.

(** X10: wherever the block emitted for [function name n] sits in a
    program, running it pushes [n] zeros: the [n] words from the stack
    pointer on are set to 0, the stack pointer rises by [n], and no other
    memory word changes.  The block has five instructions for each local
    variable. *)
Theorem function_entry_zeroes_locals
    (g g' : VM.globals) (name nVars text : string) (n : Z)
    (rom code : list instr) (s : cpu) :
  Go.Atoi nVars = Some n ->
  0 <= n ->
  VM.function g name nVars = Ok (g', text) ->
  allChars notNewline (VM.getFolderName g ++ "." ++ name) = true ->
  assemble text = Some code ->
  codeAt rom (PC s) code ->
  0 < load (RAM s) 0 ->
  load (RAM s) 0 + n < 65536 ->
  let sp := load (RAM s) 0 in
  exists s',
    run rom (List.length code) s = Some s'
    /\ Z.of_nat (List.length code) = 5 * n
    /\ PC s' = PC s + 5 * n
    /\ load (RAM s') 0 = sp + n
    /\ (forall i, 0 <= i < n -> load (RAM s') (sp + i) = 0)
    /\ (forall a, a <> 0 -> ~ (sp <= a < sp + n) ->
                  load (RAM s') a = load (RAM s) a).
Proof.
  intros Hatoi Hn Hfun Hnl Hasm Hat Hsp Hmax sp. subst sp.
  rewrite (function_Ok _ _ _ _ Hatoi) in Hfun.
  assert (Htext : text = blockText
            (("(" ++ (VM.getFolderName g ++ "." ++ name) ++ ")")
             :: List.concat (repeat ["@SP"; "A=M"; "M=0"; "@SP"; "M=M+1"]
                               (Z.to_nat n)))).
  { unfold VM.getFolderName. rewrite !append_assoc. congruence. }
  clear Hfun. subst text.
  set (label := VM.getFolderName g ++ "." ++ name) in *.
  unfold assemble in Hasm. rewrite sourceLines_block in Hasm.
  2:{ cbn [forallb]. rewrite forallb_concat_repeat by reflexivity.
      rewrite (allChars_append _ "(" (label ++ ")")).
      rewrite (allChars_append _ label ")"), Hnl. reflexivity. }
  cbn [blockLines] in Hasm.
  change ((?x :: ?l) ++ [EmptyString])%list with (x :: l ++ [EmptyString])%list
    in Hasm.
  rewrite map_cons, map_app, map_concat_repeat, parseLine_Label in Hasm.
  change (map parseLine [EmptyString]) with [Blank] in Hasm.
  rewrite assembleLines_function in Hasm. apply some_eq in Hasm. subst code.
  assert (Hlen : Z.of_nat (List.length
                   (List.concat (repeat initLocalCode (Z.to_nat n)))) = 5 * n).
  { rewrite length_concat_repeat. change (List.length initLocalCode) with 5%nat.
    lia. }
  destruct (run_exec rom _ s Hat) as [Hrun Hpc].
  { apply forallb_concat_repeat. reflexivity. }
  eexists. split; [exact Hrun|]. split; [exact Hlen|].
  split; [rewrite Hpc, Hlen; reflexivity|].
  destruct s as [a d pc m]. cbn [RAM] in Hsp, Hmax |- *.
  destruct (exec_initLocals (Z.to_nat n) a d pc m Hsp) as (H1 & H2 & H3);
    [lia|].
  rewrite Z2Nat.id in * by exact Hn.
  split; [exact H1|]. split; [exact H2 | exact H3].
Qed.

Lemma function_entry_zeroes_locals_witness :
  exists s',
    run (blockCode (blockText ("(Prog.Main.f)" :: List.concat
                                 (repeat ["@SP"; "A=M"; "M=0"; "@SP"; "M=M+1"] 2))))
        10 demoState = Some s'
    /\ load (RAM s') 0 = 302
    /\ load (RAM s') 300 = 0
    /\ load (RAM s') 301 = 0
    /\ load (RAM s') 299 = 3.
Proof.
  set (text := blockText ("(Prog.Main.f)" :: List.concat
                 (repeat ["@SP"; "A=M"; "M=0"; "@SP"; "M=M+1"] 2))).
  destruct (function_entry_zeroes_locals
              g0 (VM.set_funcStack g0 {| VM.current := "Main.f";
                                         VM.returnCounter := 0 |})
              "Main.f" "2" text 2 (blockCode text) (blockCode text) demoState)
    as (s' & Hrun & _ & _ & Hsp & Hzero & Hframe).
  - reflexivity.
  - lia.
  - vm_compute. reflexivity.
  - vm_compute. reflexivity.
  - vm_compute. reflexivity.
  - split; [simpl; lia | reflexivity].
  - vm_compute. reflexivity.
  - vm_compute. reflexivity.
  - exists s'. split; [exact Hrun|]. split; [exact Hsp|].
    split; [apply (Hzero 0); lia|]. split; [apply (Hzero 1); lia|].
    apply Hframe; [lia|]. vm_compute. intros [H _]. apply H. reflexivity.
Defined.

End FunctionEntry.

(** ** Branching commands in a program *)

Section Branching.

(** X11: the block emitted for [label l] holds no instruction.  In a text
    that assembles, and in which the symbol of the label (the enclosing
    function, a dollar sign, [l]) is not defined before the block, the
    symbol stands for the address of the instruction that follows the
    block. *)
Theorem label_stands_for_next_instruction
    (g : VM.globals) (l pre post : string) (rom : list instr) :
  let symbol := VM.current (VM.funcStack g) ++ "$" ++ l in
  allChars notNewline symbol = true ->
  endsWithNewline pre = true ->
  labelAddress pre symbol = None ->
  assemble (pre ++ VM.label g l ++ post) = Some rom ->
  labelAddress (pre ++ VM.label g l ++ post) symbol = Some (codeLength pre)
  /\ codeLength (VM.label g l) = 0.
Proof.
  intros symbol Hnl Hpre Hnew Hasm.
  assert (Hblock : VM.label g l = blockText ["(" ++ symbol ++ ")"]).
  { unfold VM.label, blockText, symbol. cbn [Go.Join].
    now rewrite !append_assoc. }
  assert (Hls : forallb (allChars notNewline) ["(" ++ symbol ++ ")"] = true).
  { cbn [forallb]. rewrite (allChars_append _ "(" (symbol ++ ")")).
    rewrite (allChars_append _ symbol ")"), Hnl. reflexivity. }
  rewrite Hblock in *. split.
  - unfold labelAddress in *. unfold assemble, assembleLines in Hasm.
    rewrite sourceLines_around in * by assumption.
    unfold sourceLines in Hnew.
    rewrite (linesFrom_last pre EmptyString Hpre) in Hnew.
    rewrite codeLength_closed by exact Hpre.
    fold (sourceLines pre) in Hnew.
    rewrite !map_app in *.
    set (P := map parseLine (removelast (sourceLines pre))) in *.
    set (Q := map parseLine (sourceLines post)) in *.
    cbn [blockLines List.map] in *. rewrite parseLine_Label in *.
    rewrite collectLabels_app in *.
    destruct (collectLabels P 0 predefined) as [t1|]; [|discriminate Hasm].
    cbn [List.app collectLabels parseLine] in *.
    destruct (collectLabels Q _ _) as [T|] eqn:E; [|discriminate Hasm].
    apply collectLabels_extends in E as [X ->].
    rewrite <- app_assoc. rewrite lookup_app_r by exact Hnew.
    cbn [List.app lookup]. now rewrite String.eqb_refl.
  - unfold codeLength. rewrite sourceLines_block by exact Hls.
    cbn [blockLines List.app List.map]. now rewrite parseLine_Label.
Qed.

Lemma label_stands_for_next_instruction_witness :
  labelAddress (startAndRoutines false ++ VM.label g0 "LOOP" ++ "@0")
    "Sys.init$LOOP" = Some 157
  /\ codeLength (VM.label g0 "LOOP") = 0.
Proof.
  apply (label_stands_for_next_instruction g0 "LOOP" (startAndRoutines false)
           "@0" (blockCode (startAndRoutines false ++ VM.label g0 "LOOP" ++ "@0"))).
  - reflexivity.
  - vm_compute. reflexivity.
  - vm_compute. reflexivity.
  - vm_compute. reflexivity.
Defined.

(** The two lines of a jump to a symbol that the table binds. *)
Lemma symbol_line cur l :
  NilEmpty.uint_of_string (cur ++ "$" ++ l) = None.
Proof. apply uint_of_string_nondigit. reflexivity. Qed.

(** X12: in a text that assembles, the block emitted for [goto l] is two
    instructions that continue at the address the symbol of the label (the
    enclosing function, a dollar sign, [l]) stands for; the memory and [D]
    are as before. *)
Theorem goto_continues_at_label
    (g : VM.globals) (l pre post : string) (rom : list instr) (t : Z) (s : cpu) :
  let symbol := VM.current (VM.funcStack g) ++ "$" ++ l in
  allChars notNewline symbol = true ->
  endsWithNewline pre = true ->
  assemble (pre ++ VM.gotoLabel g l ++ post) = Some rom ->
  labelAddress (pre ++ VM.gotoLabel g l ++ post) symbol = Some t ->
  0 <= t < 32768 ->
  PC s = codeLength pre ->
  exists s',
    run rom 2 s = Some s'
    /\ PC s' = t
    /\ D s' = D s
    /\ forall a, load (RAM s') a = load (RAM s) a.
Proof.
  intros symbol Hnl Hpre Hasm Hlabel Ht Hpc.
  assert (Hblock : VM.gotoLabel g l = blockText ["@" ++ symbol; "0;JMP"])
    by reflexivity.
  assert (Hls : forallb (allChars notNewline) ["@" ++ symbol; "0;JMP"] = true).
  { cbn [forallb]. rewrite (allChars_append _ "@" symbol), Hnl. reflexivity. }
  rewrite Hblock in *.
  destruct (block_in_text _ _ _ _ Hpre Hls Hasm) as (table & next & Hat & Htable).
  apply Htable in Hlabel. clear Htable.
  cbn [blockLines List.map] in Hat.
  rewrite (parseLine_AtSym symbol (symbol_line _ _)) in Hat.
  change (parseLine "0;JMP") with
    (CLine {| toA := false; toD := false; toM := false |} c_0 JMP) in Hat.
  cbn [resolve] in Hat. rewrite Hlabel in Hat.
  destruct s as [a d pc m]. cbn [PC RAM D] in *. subst pc.
  eexists. split.
  - match type of Hat with
    | codeAt _ _ ?code =>
      rewrite (run_segment_at rom code 2 0
                 {| A := a; D := d; PC := codeLength pre; RAM := m |}
                 eq_refl Hat eq_refl)
    end.
    rewrite !exec_cons, exec_nil.
    cbn [step alu taken toA toD toM A D PC RAM run].
    reflexivity.
  - cbn [PC D RAM]. split; [apply wrap_small; lia|]. split; reflexivity.
Qed.

Lemma goto_continues_at_label_witness :
  exists s',
    run (blockCode (startAndRoutines false ++ VM.label g0 "LOOP"
                    ++ VM.gotoLabel g0 "LOOP"))
        2 (demoStateAt 157) = Some s'
    /\ PC s' = 157.
Proof.
  destruct (goto_continues_at_label
              g0 "LOOP" (startAndRoutines false ++ VM.label g0 "LOOP")
              EmptyString
              (blockCode (startAndRoutines false ++ VM.label g0 "LOOP"
                          ++ VM.gotoLabel g0 "LOOP"))
              157 (demoStateAt 157))
    as (s' & Hrun & Hpc & _).
  - reflexivity.
  - vm_compute. reflexivity.
  - vm_compute. reflexivity.
  - vm_compute. reflexivity.
  - lia.
  - vm_compute. reflexivity.
  - exists s'. split; [exact Hrun | exact Hpc].
Defined.

(** X13: in a text that assembles, the block emitted for [if-goto l] is five
    instructions that take the topmost word off the stack and continue at
    the address the symbol of the label stands for when that word is not 0,
    and at the instruction after the block when it is 0; no memory word but
    the stack pointer changes. *)
Theorem if_goto_pops_and_branches
    (g : VM.globals) (l pre post : string) (rom : list instr) (t : Z) (s : cpu) :
  let symbol := VM.current (VM.funcStack g) ++ "$" ++ l in
  allChars notNewline symbol = true ->
  endsWithNewline pre = true ->
  assemble (pre ++ VM.ifGoto g l ++ post) = Some rom ->
  labelAddress (pre ++ VM.ifGoto g l ++ post) symbol = Some t ->
  0 <= t < 32768 ->
  PC s = codeLength pre ->
  1 < load (RAM s) 0 ->
  let sp := load (RAM s) 0 in
  exists s',
    run rom 5 s = Some s'
    /\ PC s' = (if load (RAM s) (sp - 1) =? 0 then codeLength pre + 5 else t)
    /\ load (RAM s') 0 = sp - 1
    /\ forall a, a <> 0 -> load (RAM s') a = load (RAM s) a.
Proof.
  intros symbol Hnl Hpre Hasm Hlabel Ht Hpc Hsp sp. subst sp.
  assert (Hblock : VM.ifGoto g l
                   = blockText ["@SP"; "AM=M-1"; "D=M"; "@" ++ symbol; "D;JNE"])
    by reflexivity.
  assert (Hls : forallb (allChars notNewline)
                  ["@SP"; "AM=M-1"; "D=M"; "@" ++ symbol; "D;JNE"] = true).
  { cbn [forallb]. rewrite (allChars_append _ "@" symbol), Hnl. reflexivity. }
  rewrite Hblock in *.
  destruct (block_in_text _ _ _ _ Hpre Hls Hasm) as (table & next & Hat & Htable).
  pose proof (Htable "SP" 0 (labelAddress_predefined _ _ "SP" 0 Hasm eq_refl))
    as Hsp0.
  apply Htable in Hlabel. clear Htable.
  cbn [blockLines List.map] in Hat.
  rewrite (parseLine_AtSym symbol (symbol_line _ _)) in Hat.
  change (parseLine "@SP") with (AtSym "SP") in Hat.
  change (parseLine "AM=M-1") with
    (CLine {| toA := true; toD := false; toM := true |} c_Mm1 j_none) in Hat.
  change (parseLine "D=M") with
    (CLine {| toA := false; toD := true; toM := false |} c_M j_none) in Hat.
  change (parseLine "D;JNE") with
    (CLine {| toA := false; toD := false; toM := false |} c_D JNE) in Hat.
  cbn [resolve] in Hat. rewrite Hsp0 in Hat. rewrite Hlabel in Hat.
  pose proof (load_range (RAM s) 0) as Hr.
  pose proof (load_range (RAM s) (load (RAM s) 0 - 1)) as Hv.
  destruct s as [a d pc m]. cbn [PC RAM D] in *. subst pc.
  eexists. split.
  - match type of Hat with
    | codeAt _ _ ?code =>
      rewrite (run_segment_at rom code 5 0
                 {| A := a; D := d; PC := codeLength pre; RAM := m |}
                 eq_refl Hat eq_refl)
    end.
    exec_all. cbn [run]. reflexivity.
  - cbn [PC D RAM]. split; [|split].
    + rewrite signed_zero by exact Hv.
      destruct (load m (load m 0 - 1) =? 0); cbn [negb]; [lia | reflexivity].
    + norm_load. norm_wrap. reflexivity.
    + intros x Hx. norm_load. reflexivity.
Qed.

Lemma if_goto_pops_and_branches_witness :
  exists s',
    run (blockCode (startAndRoutines false ++ VM.label g0 "LOOP"
                    ++ VM.ifGoto g0 "LOOP"))
        5 (demoStateAt 157) = Some s'
    /\ PC s' = 157
    /\ load (RAM s') 0 = 299.
Proof.
  destruct (if_goto_pops_and_branches
              g0 "LOOP" (startAndRoutines false ++ VM.label g0 "LOOP")
              EmptyString
              (blockCode (startAndRoutines false ++ VM.label g0 "LOOP"
                          ++ VM.ifGoto g0 "LOOP"))
              157 (demoStateAt 157))
    as (s' & Hrun & Hpc & Hsp & _).
  - reflexivity.
  - vm_compute. reflexivity.
  - vm_compute. reflexivity.
  - vm_compute. reflexivity.
  - lia.
  - vm_compute. reflexivity.
  - vm_compute. reflexivity.
  - exists s'. split; [exact Hrun|]. split; [exact Hpc | exact Hsp].
Defined.

End Branching.

(** ** Reading the lines of a unit *)

Section Lines.

(** X14: translating the lines of a unit is compositional.  The lines
    [l1 ++ l2] translate to the blocks of [l1] followed by the blocks of
    [l2], the second part read in the state the first part leaves; an error
    in the first part is the error of the whole. *)
Theorem Parse_of_two_parts (g : VM.globals) (l1 l2 : list string) :
  VM.Parse g (l1 ++ l2)
  = (r1 <- VM.Parse g l1 ;;
     r2 <- VM.Parse (fst r1) l2 ;;
     Ok (fst r2, (snd r1 ++ snd r2)%list)).
Proof.
  revert g. induction l1 as [|line l1 IH]; intros g.
  - cbn [List.app VM.Parse bind fst snd].
    destruct (VM.Parse g l2) as [[g2 o2]| |]; reflexivity.
  - cbn [List.app VM.Parse].
    destruct (Go.HasPrefix (Go.TrimSpace line) "//"
              || Go.isEmpty (Go.TrimSpace line)); [apply IH|].
    destruct (VM.parseCommand g _) as [[g1 o1]| |]; cbn [bind fst snd];
      try reflexivity.
    rewrite IH.
    destruct (VM.Parse g1 l1) as [[g2 o2]| |]; cbn [bind fst snd];
      try reflexivity.
    destruct (VM.Parse g2 l2) as [[g3 o3]| |]; reflexivity.
Qed.

Lemma asciiSpace_RuneStart c : Go.asciiSpace c = true -> Go.RuneStart c = true.
Proof.
  destruct c as [[|] [|] [|] [|] [|] [|] [|] [|]]; intros H;
    try discriminate H; reflexivity.
Qed.

(** A white space character begins with a byte that is no continuation
    byte, and holds no slash. *)
Lemma afterSpace_head c r x :
  afterSpace (String c r) = Some x -> Go.RuneStart c = true.
Proof.
  intros H. assert (W : Go.spaceWidth (String c r) <> 0%nat).
  { intros E. apply afterSpace_None in E. congruence. }
  unfold Go.spaceWidth in W.
  destruct (Go.asciiSpace c) eqn:E; [now apply asciiSpace_RuneStart|].
  destruct (Ascii.eqb_spec c "194") as [->|_]; [reflexivity|].
  destruct (Ascii.eqb_spec c "225") as [->|_]; [reflexivity|].
  destruct (Ascii.eqb_spec c "226") as [->|_]; [reflexivity|].
  destruct (Ascii.eqb_spec c "227") as [->|_]; [reflexivity|].
  now elim W.
Qed.

Lemma allSpaces_headStart s : Go.allSpaces s = true -> headStart s = true.
Proof.
  destruct s as [|c r]; [reflexivity|]. rewrite allSpaces_unfold.
  destruct (afterSpace (String c r)) as [x|] eqn:E; [|discriminate].
  intros _. exact (afterSpace_head c r x E).
Qed.

Lemma slash_is_no_space r : Go.spaceWidth (String "/" r) = 0%nat.
Proof. reflexivity. Qed.

Lemma afterSpace_notSlash s r :
  afterSpace s = Some r -> allChars notSlash r = true ->
  allChars notSlash s = true.
Proof.
  intros H Hr.
  assert (Hstep : forall c x y,
            afterSpace (String c x) = Some y -> notSlash c = true).
  { intros c x y E. unfold notSlash, Go.isSlash.
    destruct (Ascii.eqb_spec c "/") as [->|]; [|reflexivity].
    unfold afterSpace in E. rewrite slash_is_no_space in E. discriminate E. }
  assert (Hin : forall d, Go.RuneStart d = false -> notSlash d = true).
  { intros d Hd. unfold notSlash, Go.isSlash.
    destruct (Ascii.eqb_spec d "/") as [->|]; [discriminate Hd | reflexivity]. }
  assert (H2 : forall a b x, Go.spaceWidth (String a (String b x)) = 2%nat ->
                             Go.RuneStart b = false).
  { intros a b x W. unfold Go.spaceWidth in W.
    destruct (Go.asciiSpace a); [discriminate W|].
    destruct (Ascii.eqb a "194").
    - destruct (Ascii.eqb_spec b "133") as [->|_]; [reflexivity|].
      destruct (Ascii.eqb_spec b "160") as [->|_]; [reflexivity|].
      discriminate W.
    - destruct x as [|e x]; split_ifs_in W; discriminate W. }
  assert (H3 : forall a b c x,
            Go.spaceWidth (String a (String b (String c x))) = 3%nat ->
            Go.RuneStart b = false /\ Go.RuneStart c = false).
  { intros a b c x W. unfold Go.spaceWidth in W.
    destruct (Go.asciiSpace a); [discriminate W|].
    destruct (Ascii.eqb a "194"); [split_ifs_in W; discriminate W|].
    destruct (Ascii.eqb a "225").
    { destruct (Ascii.eqb_spec b "154") as [->|_]; [|discriminate W].
      destruct (Ascii.eqb_spec c "128") as [->|_]; [|discriminate W].
      split; reflexivity. }
    destruct (Ascii.eqb a "226").
    { destruct (Ascii.eqb_spec b "128") as [->|_].
      - split; [reflexivity|]. cbn [andb] in W.
        unfold Go.RuneStart, Go.byteIn in *.
        destruct (Ascii.eqb_spec c "168") as [->|_]; [reflexivity|].
        destruct (Ascii.eqb_spec c "169") as [->|_]; [reflexivity|].
        destruct (Ascii.eqb_spec c "175") as [->|_]; [reflexivity|].
        rewrite !orb_false_r in W.
        destruct (Nat.leb_spec 128 (nat_of_ascii c)) as [L1|L1];
          [|discriminate W].
        destruct (Nat.leb_spec (nat_of_ascii c) 138) as [L2|L2].
        + destruct (Nat.leb_spec (nat_of_ascii c) 191); [reflexivity | lia].
        + change (Ascii.eqb "128" "129") with false in W.
          cbn [andb] in W. discriminate W.
      - cbn [andb] in W.
        destruct (Ascii.eqb_spec b "129") as [->|_]; [|discriminate W].
        destruct (Ascii.eqb_spec c "159") as [->|_]; [|discriminate W].
        split; reflexivity. }
    destruct (Ascii.eqb a "227"); [|discriminate W].
    destruct (Ascii.eqb_spec b "128") as [->|_]; [|discriminate W].
    destruct (Ascii.eqb_spec c "128") as [->|_]; [|discriminate W].
    split; reflexivity. }
  unfold afterSpace in H.
  destruct (Go.spaceWidth s) as [|[|[|[|k]]]] eqn:W;
    destruct s as [|a [|b [|c x]]]; try discriminate H;
    injection H as <-; cbn [allChars] in Hr |- *.
  - rewrite andb_true_r. apply (Hstep a EmptyString EmptyString).
    unfold afterSpace. now rewrite W.
  - rewrite Hr, andb_true_r.
    apply (Hstep a (String b EmptyString) (String b EmptyString)).
    unfold afterSpace. now rewrite W.
  - rewrite Hr, andb_true_r.
    apply (Hstep a (String b (String c x)) (String b (String c x))).
    unfold afterSpace. now rewrite W.
  - rewrite (Hin b (H2 _ _ _ W)), !andb_true_r.
    apply (Hstep a (String b EmptyString) EmptyString).
    unfold afterSpace. now rewrite W.
  - rewrite (Hin b (H2 _ _ _ W)), Hr, andb_true_r.
    apply (Hstep a (String b (String c x)) (String c x)).
    unfold afterSpace. now rewrite W.
  - destruct (H3 _ _ _ _ W) as [Hb Hc].
    rewrite (Hin b Hb), (Hin c Hc), Hr, andb_true_r.
    apply (Hstep a (String b (String c x)) x).
    unfold afterSpace. now rewrite W.
Qed.

Lemma allSpaces_notSlash :
  forall s, Go.allSpaces s = true -> allChars notSlash s = true.
Proof.
  apply (by_length (fun s => _ -> _)). intros s IH H.
  destruct s as [|c r]; [reflexivity|]. rewrite allSpaces_unfold in H.
  destruct (afterSpace (String c r)) as [x|] eqn:E; [|discriminate H].
  apply (afterSpace_notSlash _ x E). apply IH; [|exact H].
  now apply afterSpace_length.
Qed.

Lemma trimLeft_spaces_app s :
  forall ws, Go.allSpaces ws = true -> Go.trimLeft (ws ++ s) = Go.trimLeft s.
Proof.
  apply (by_length (fun ws => _ -> _)). intros ws IH H.
  destruct ws as [|c r]; [reflexivity|]. rewrite allSpaces_unfold in H.
  destruct (afterSpace (String c r)) as [x|] eqn:E; [|discriminate H].
  rewrite trimLeft_unfold, (afterSpace_app_some _ _ s E).
  apply IH; [now apply afterSpace_length | exact H].
Qed.

Lemma trimLeft_only_spaces ws :
  Go.allSpaces ws = true -> Go.trimLeft ws = EmptyString.
Proof.
  intros H. rewrite <- (append_nil_r ws). now rewrite trimLeft_spaces_app.
Qed.

(** White space around a text does not change what [TrimSpace] leaves of
    it. *)
Lemma TrimSpace_around indent x gap :
  Go.allSpaces indent = true ->
  Go.allSpaces gap = true ->
  Go.TrimSpace (indent ++ x ++ gap) = Go.TrimSpace x.
Proof.
  intros Hi Hg. unfold Go.TrimSpace. rewrite trimLeft_spaces_app by exact Hi.
  rewrite (trimLeft_app gap (allSpaces_headStart gap Hg) x).
  destruct (Go.trimLeft x) as [|c y] eqn:E; cbn [Go.isEmpty].
  - now rewrite trimLeft_only_spaces.
  - rewrite trimRight_before by now apply allSpaces_headStart.
    now rewrite Hg.
Qed.

Lemma trimRight_slash r : Go.trimRight (String "/" r) = String "/" (Go.trimRight r).
Proof. reflexivity. Qed.

Lemma prefix_two_slashes r : Go.HasPrefix (String "/" (String "/" r)) "//" = true.
Proof. unfold Go.HasPrefix. cbn. destruct r; reflexivity. Qed.

(** A line that holds only white space, or white space and a comment, is
    skipped. *)
Lemma Parse_skips_blank_line
    (g : VM.globals) (indent comment : string) (rest : list string) :
  Go.allSpaces indent = true ->
  VM.Parse g (indent :: rest) = VM.Parse g rest
  /\ VM.Parse g ((indent ++ "//" ++ comment) :: rest) = VM.Parse g rest.
Proof.
  intros Hws. split.
  - cbn [VM.Parse]. unfold Go.TrimSpace.
    rewrite trimLeft_only_spaces by exact Hws. reflexivity.
  - cbn [VM.Parse]. unfold Go.TrimSpace.
    rewrite trimLeft_spaces_app by exact Hws.
    change (Go.trimLeft ("//" ++ comment)) with ("//" ++ comment).
    change ("//" ++ comment) with (String "/" (String "/" comment)).
    rewrite !trimRight_slash, prefix_two_slashes. reflexivity.
Qed.

Lemma SplitHead_cons c r sep :
  Go.SplitHead (String c r) sep
  = if Go.HasPrefix (String c r) sep then EmptyString
    else String c (Go.SplitHead r sep).
Proof. reflexivity. Qed.

Lemma SplitHead_comment a x :
  allChars notSlash a = true ->
  Go.SplitHead (a ++ String "/" (String "/" x)) "//" = a.
Proof.
  induction a as [|c a IH]; intros H.
  - cbn [append]. now rewrite SplitHead_cons, prefix_two_slashes.
  - cbn [allChars] in H. apply andb_true_iff in H as [Hc Ha].
    cbn [append]. rewrite SplitHead_cons, IH by exact Ha.
    unfold notSlash in Hc. apply negb_true_iff in Hc.
    now rewrite prefix_slashes.
Qed.

(** A line is read as the command that is left of it when the white space
    around it and the comment after it are taken off. *)
Lemma Parse_line g line rest c l K :
  Go.TrimSpace line = String c l ->
  Go.isSlash c = false ->
  Go.TrimSpace (Go.SplitHead (String c l) "//") = K ->
  VM.Parse g (line :: rest)
  = (x <- VM.parseCommand g K ;;
     y <- VM.Parse (fst x) rest ;;
     Ok (fst y, snd x :: snd y)).
Proof.
  intros E Hc EK. cbn [VM.Parse]. rewrite E, EK.
  rewrite prefix_slashes by exact Hc. reflexivity.
Qed.

Lemma afterSpace_of_prefix t z :
  afterSpace (t ++ z) = None -> afterSpace t = None.
Proof.
  intros H. destruct (afterSpace t) as [r|] eqn:E; [|reflexivity].
  rewrite (afterSpace_app_some t r z E) in H. discriminate H.
Qed.

(** What [TrimSpace] leaves is left as it is by [TrimSpace]. *)
Lemma TrimSpace_trimRight y :
  afterSpace y = None -> Go.TrimSpace (Go.trimRight y) = Go.trimRight y.
Proof.
  intros H. unfold Go.TrimSpace.
  destruct (trimRight_split y) as (z & Hz & _).
  rewrite trimLeft_word; [apply trimRight_idem|].
  apply (afterSpace_of_prefix _ z). now rewrite <- Hz.
Qed.

Lemma comment_not_spaces gap comment :
  Go.allSpaces gap = true ->
  headStart (gap ++ "//" ++ comment) = true
  /\ Go.allSpaces (gap ++ "//" ++ comment) = false
  /\ Go.trimLeft (gap ++ "//" ++ comment) = "//" ++ comment
  /\ Go.trimRight (gap ++ "//" ++ comment)
     = gap ++ "//" ++ Go.trimRight comment.
Proof.
  intros Hg. split; [|split; [|split]].
  - destruct gap as [|c gap]; [reflexivity|].
    now apply (allSpaces_headStart _ Hg).
  - rewrite allSpaces_app by reflexivity. apply andb_false_r.
  - now rewrite trimLeft_spaces_app.
  - rewrite trimRight_before by reflexivity.
    change (Go.allSpaces ("//" ++ comment)) with false. cbv iota.
    reflexivity.
Qed.

(** White space around a command and a comment after it do not change its
    translation. *)
Lemma Parse_cleans_command_line
    (g : VM.globals) (indent gap comment : string) (c : ascii) (r : string)
    (rest : list string) :
  Go.allSpaces indent = true ->
  Go.allSpaces gap = true ->
  allChars notSlash (String c r) = true ->
  VM.Parse g ((indent ++ String c r ++ gap) :: rest)
  = VM.Parse g (String c r :: rest)
  /\ VM.Parse g ((indent ++ String c r ++ gap ++ "//" ++ comment) :: rest)
     = VM.Parse g (String c r :: rest).
Proof.
  intros Hindent Hgap Hs. set (cmd := String c r) in *. split.
  - cbn [VM.Parse]. now rewrite TrimSpace_around.
  - destruct (comment_not_spaces gap comment Hgap) as (Ha & Hn & Hl & Hr).
    assert (Hline : Go.TrimSpace (indent ++ cmd ++ gap ++ "//" ++ comment)
                    = Go.trimRight
                        (if Go.isEmpty (Go.trimLeft cmd) then "//" ++ comment
                         else Go.trimLeft cmd ++ gap ++ "//" ++ comment)).
    { unfold Go.TrimSpace. rewrite trimLeft_spaces_app by exact Hindent.
      now rewrite (trimLeft_app _ Ha cmd), Hl. }
    pose proof (trimLeft_head cmd) as Hhead.
    pose proof (trimLeft_allChars notSlash cmd Hs) as Hy.
    assert (Hbare : Go.TrimSpace cmd = Go.trimRight (Go.trimLeft cmd))
      by reflexivity.
    destruct (Go.trimLeft cmd) as [|c' r'] eqn:E; cbn [Go.isEmpty] in Hline.
    + cbn [VM.Parse]. rewrite Hline, Hbare.
      change ("//" ++ comment) with (String "/" (String "/" comment)).
      rewrite !trimRight_slash, prefix_two_slashes. reflexivity.
    + destruct Hhead as [Hhead|Hhead]; [discriminate Hhead|].
      set (y := String c' r') in *.
      assert (Hc' : Go.isSlash c' = false).
      { cbn [allChars] in Hy. apply andb_true_iff in Hy as [Hc' _].
        unfold notSlash in Hc'. now apply negb_true_iff in Hc'. }
      assert (Hyr : Go.trimRight y = String c' (Go.trimRight r')).
      { apply trimRight_head. rewrite allSpaces_unfold. fold y. now rewrite Hhead. }
      assert (Hright : VM.Parse g (cmd :: rest)
                       = (x <- VM.parseCommand g (Go.trimRight y) ;;
                          z <- VM.Parse (fst x) rest ;;
                          Ok (fst z, snd x :: snd z))).
      { apply (Parse_line g _ rest c' (Go.trimRight r')); [|exact Hc'|].
        - now rewrite Hbare.
        - rewrite <- Hyr. rewrite SplitHead_none.
          + now apply TrimSpace_trimRight.
          + now apply trimRight_allChars. }
      rewrite Hright.
      apply (Parse_line g _ rest c'
               ((r' ++ gap) ++ String "/" (String "/" (Go.trimRight comment))));
        [|exact Hc'|].
      * rewrite Hline. rewrite trimRight_before by exact Ha.
        rewrite Hn, Hr. unfold y. cbn [append]. now rewrite append_assoc.
      * change (String c' ((r' ++ gap)
                           ++ String "/" (String "/" (Go.trimRight comment))))
          with ((y ++ gap) ++ String "/" (String "/" (Go.trimRight comment))).
        rewrite SplitHead_comment.
        -- change (y ++ gap) with (EmptyString ++ y ++ gap).
           rewrite (TrimSpace_around EmptyString y gap eq_refl Hgap).
           unfold Go.TrimSpace. now rewrite (trimLeft_word y Hhead).
        -- rewrite allChars_append, Hy.
           now apply allSpaces_notSlash.
Qed.

(** X15: white space and comments do not reach the translation.  A line
    that holds only white space, or white space and a comment, is skipped:
    the unit translates as its other lines do.  A line made of an
    indentation, a command that holds no slash, white space and possibly a
    comment translates as the command alone.  White space is that of
    Unicode, as [strings.TrimSpace] takes it. *)
Theorem white_space_and_comments_are_ignored
    (g : VM.globals) (indent gap comment : string) (c : ascii) (r : string)
    (rest : list string) :
  Go.allSpaces indent = true ->
  Go.allSpaces gap = true ->
  allChars notSlash (String c r) = true ->
  VM.Parse g (indent :: rest) = VM.Parse g rest
  /\ VM.Parse g ((indent ++ "//" ++ comment) :: rest) = VM.Parse g rest
  /\ VM.Parse g ((indent ++ String c r ++ gap) :: rest)
     = VM.Parse g (String c r :: rest)
  /\ VM.Parse g ((indent ++ String c r ++ gap ++ "//" ++ comment) :: rest)
     = VM.Parse g (String c r :: rest).
Proof.
  intros Hi Hg Hr.
  destruct (Parse_skips_blank_line g indent comment rest Hi) as [H1 H2].
  destruct (Parse_cleans_command_line g indent gap comment c r rest Hi Hg Hr)
    as [H3 H4].
  repeat split; assumption.
Qed.

Lemma white_space_and_comments_are_ignored_witness :
  VM.Parse g0 ["  "; "add"] = VM.Parse g0 ["add"]
  /\ VM.Parse g0 ["  // seven"; "add"] = VM.Parse g0 ["add"]
  /\ VM.Parse g0 ["  push constant 7 "; "add"]
     = VM.Parse g0 ["push constant 7"; "add"]
  /\ VM.Parse g0 ["  push constant 7 // seven"; "add"]
     = VM.Parse g0 ["push constant 7"; "add"].
Proof.
  apply (white_space_and_comments_are_ignored
           g0 "  " " " " seven" "p" "ush constant 7" ["add"]); reflexivity.
Defined.

End Lines.

(** ** Lines the translator does not accept *)

Section Malformed.

Lemma eqb_false_of_ne a b : a <> b -> String.eqb a b = false.
Proof. intros H. now apply String.eqb_neq. Qed.

(** X16: a command that lacks an operand makes the translator fail with an
    index out of range, not with an error of its own: [function], [call],
    [goto], [if-goto] or [label] alone on a line, and any line of two fields
    that does not begin with [return], [goto], [if-goto] or [label] (so
    [push local], [function f], [call f]). *)
Theorem missing_operand_panics
    (g : VM.globals) (line first second : string) :
  (Go.Fields line = [first]
   /\ In first ["function"; "call"; "goto"; "if-goto"; "label"])
  \/ (Go.Fields line = [first; second]
      /\ ~ In first ["return"; "goto"; "if-goto"; "label"]) ->
  VM.parseCommand g line = Panic.
Proof.
  intros [[HF Hin] | [HF Hnot]]; unfold VM.parseCommand; rewrite HF;
    cbn [Go.index nth_error bind].
  - cbn [In] in Hin.
    destruct Hin as [<-|[<-|[<-|[<-|[<-|[]]]]]]; reflexivity.
  - cbn [In] in Hnot.
    destruct (String.eqb_spec first "function"); [reflexivity|].
    destruct (String.eqb_spec first "call"); [reflexivity|].
    destruct (String.eqb_spec first "return"); [exfalso; auto|].
    destruct (String.eqb_spec first "goto"); [exfalso; auto|].
    destruct (String.eqb_spec first "if-goto"); [exfalso; auto 6|].
    destruct (String.eqb_spec first "label"); [exfalso; auto 6|].
    reflexivity.
Qed.

Lemma missing_operand_panics_witness :
  VM.parseCommand g0 "push local" = Panic.
Proof.
  apply (missing_operand_panics g0 "push local" "push" "local").
  right. split; [reflexivity|].
  cbn [In]. intros [H|[H|[H|[H|[]]]]]; discriminate H.
Defined.

(** X17: a line of one word that is none of the commands is refused with
    the error [invalid operation: <word>]. *)
Theorem unknown_word_is_invalid_operation (g : VM.globals) (line word : string) :
  Go.Fields line = [word] ->
  ~ In word ["function"; "call"; "return"; "goto"; "if-goto"; "label";
             "add"; "sub"; "neg"; "eq"; "gt"; "lt"; "and"; "or"; "not"] ->
  VM.parseCommand g line = Error ("invalid operation: " ++ word).
Proof.
  intros HF Hnot. unfold VM.parseCommand. rewrite HF.
  cbn [Go.index nth_error bind List.length Nat.eqb].
  cbn [In] in Hnot.
  repeat match goal with
         | |- context [String.eqb word ?k] =>
           rewrite (eqb_false_of_ne word k) by (intros E; apply Hnot; auto 20)
         end.
  unfold VM.operation.
  repeat match goal with
         | |- context [String.eqb word ?k] =>
           rewrite (eqb_false_of_ne word k) by (intros E; apply Hnot; auto 20)
         end.
  reflexivity.
Qed.

Lemma unknown_word_is_invalid_operation_witness :
  VM.parseCommand g0 "mul" = Error "invalid operation: mul".
Proof.
  apply (unknown_word_is_invalid_operation g0 "mul" "mul"); [reflexivity|].
  cbn [In]. intros H.
  repeat (destruct H as [H|H]; [discriminate H|]). exact H.
Defined.

(** X18: a line of three or more fields that begins with none of
    [function], [call], [return], [goto], [if-goto] and [label] is refused
    with the error [invalid command: [<fields>]] when its third field is not
    a number, and also when it is one but the line begins with neither
    [push] nor [pop]. *)
Theorem malformed_access_is_invalid_command
    (g : VM.globals) (line first second third : string) (more : list string) :
  Go.Fields line = first :: second :: third :: more ->
  ~ In first ["function"; "call"; "return"; "goto"; "if-goto"; "label"] ->
  Go.Atoi third = None \/ ~ In first ["push"; "pop"] ->
  VM.parseCommand g line
  = Error ("invalid command: ["
           ++ Go.Join (first :: second :: third :: more) " " ++ "]").
Proof.
  intros HF Hnot Hbad. unfold VM.parseCommand. rewrite HF.
  cbn [Go.index nth_error bind List.length Nat.eqb].
  cbn [In] in Hnot.
  repeat match goal with
         | |- context [String.eqb first ?k] =>
           rewrite (eqb_false_of_ne first k) by (intros E; apply Hnot; auto 20)
         end.
  destruct (Go.Atoi third) as [num|] eqn:E; [|reflexivity].
  destruct Hbad as [Hbad|Hbad]; [discriminate Hbad|].
  cbn [In] in Hbad.
  rewrite (eqb_false_of_ne first "push") by (intros E'; apply Hbad; auto).
  rewrite (eqb_false_of_ne first "pop") by (intros E'; apply Hbad; auto).
  reflexivity.
Qed.

Lemma malformed_access_is_invalid_command_witness :
  VM.parseCommand g0 "push local x"
  = Error "invalid command: [push local x]".
Proof.
  apply (malformed_access_is_invalid_command
           g0 "push local x" "push" "local" "x" []).
  - reflexivity.
  - cbn [In]. intros H.
    repeat (destruct H as [H|H]; [discriminate H|]). exact H.
  - left. reflexivity.
Defined.

End Malformed.

(** ** Memory access lines *)

Section AccessLines.

(** The fields of a key word, a segment and an index. *)
Lemma Fields_access key seg k :
  endsWithSpace (key ++ " ") = true ->
  allChars Go.isAscii (key ++ " ") = true ->
  Go.fieldsFrom (key ++ " ") EmptyString = [key] ->
  hasSpace seg = false -> Go.isEmpty seg = false ->
  0 <= k ->
  Go.Fields ((key ++ " ") ++ seg ++ " " ++ Go.Itoa k) = [key; seg; Go.Itoa k].
Proof.
  intros Hend Hascii Hkey Hseg Hne Hk. unfold Go.Fields.
  rewrite fieldsFrom_prefix by assumption. rewrite Hkey.
  rewrite fieldsFrom_word_then by (assumption || reflexivity).
  cbn [append]. rewrite fieldsFrom_unfold.
  change (afterSpace (String " " (Go.Itoa k))) with (Some (Go.Itoa k)).
  cbv iota. rewrite Hne.
  rewrite (fieldsFrom_word (Go.Itoa k)) by (now apply Itoa_notSpace).
  cbn [append]. rewrite Itoa_nonempty. reflexivity.
Qed.

(** X19: a line [push <segment> <k>] or [pop <segment> <k>], where the
    segment is any word that holds no white space character (of ASCII or of
    Unicode) and [k] is written in decimal, is translated by [handlePush] or
    [handlePop] at that segment and the number [k], and leaves the
    translator's variables as they are. *)
Theorem access_line_dispatches (g : VM.globals) (seg : string) (k : Z) :
  hasSpace seg = false ->
  Go.isEmpty seg = false ->
  0 <= k <= Go.MaxInt ->
  VM.parseCommand g ("push " ++ seg ++ " " ++ Go.Itoa k)
  = Ok (g, VM.handlePush g seg k)
  /\ VM.parseCommand g ("pop " ++ seg ++ " " ++ Go.Itoa k)
     = Ok (g, VM.handlePop g seg k).
Proof.
  intros Hseg Hne Hk. unfold VM.parseCommand.
  change ("push " ++ seg ++ " " ++ Go.Itoa k)
    with (("push" ++ " ") ++ seg ++ " " ++ Go.Itoa k).
  change ("pop " ++ seg ++ " " ++ Go.Itoa k)
    with (("pop" ++ " ") ++ seg ++ " " ++ Go.Itoa k).
  rewrite !Fields_access by (reflexivity || assumption || lia).
  cbn [Go.index nth_error bind List.length Nat.eqb].
  change (String.eqb "push" "function") with false.
  change (String.eqb "push" "call") with false.
  change (String.eqb "push" "return") with false.
  change (String.eqb "push" "goto") with false.
  change (String.eqb "push" "if-goto") with false.
  change (String.eqb "push" "label") with false.
  change (String.eqb "push" "push") with true.
  change (String.eqb "pop" "function") with false.
  change (String.eqb "pop" "call") with false.
  change (String.eqb "pop" "return") with false.
  change (String.eqb "pop" "goto") with false.
  change (String.eqb "pop" "if-goto") with false.
  change (String.eqb "pop" "label") with false.
  change (String.eqb "pop" "push") with false.
  change (String.eqb "pop" "pop") with true.
  cbv iota. rewrite Atoi_Itoa by exact Hk. split; reflexivity.
Qed.

Lemma access_line_dispatches_witness :
  VM.parseCommand g0 "push local 2" = Ok (g0, VM.handlePush g0 "local" 2)
  /\ VM.parseCommand g0 "pop local 2" = Ok (g0, VM.handlePop g0 "local" 2).
Proof.
  apply (access_line_dispatches g0 "local" 2); [reflexivity | reflexivity |].
  unfold Go.MaxInt. lia.
Defined.

End AccessLines.

(** ** Static variables *)

Section Statics.

Lemma digit_notDot c : isDigit c = true -> notDot c = true.
Proof.
  destruct c as [[|] [|] [|] [|] [|] [|] [|] [|]]; intros H;
    try discriminate H; reflexivity.
Qed.

Lemma Itoa_notDot k : allChars notDot (Go.Itoa k) = true.
Proof.
  unfold Go.Itoa. destruct k as [|p|p]; cbn [Z.to_int NilEmpty.string_of_int].
  - reflexivity.
  - apply (allChars_weaken _ _ _ digit_notDot), digits_of_uint.
  - cbn [allChars]. change (notDot "-") with true. cbn [andb].
    apply (allChars_weaken _ _ _ digit_notDot), digits_of_uint.
Qed.

Lemma dot_in_middle a x : allChars notDot (a ++ "." ++ x) = false.
Proof.
  rewrite allChars_append. cbn [append allChars].
  change (notDot ".") with false. cbn [andb]. apply andb_false_r.
Qed.

(** The text before the last dot and the text after it. *)
Lemma split_at_last_dot a : forall b x y,
  allChars notDot x = true -> allChars notDot y = true ->
  a ++ "." ++ x = b ++ "." ++ y -> a = b /\ x = y.
Proof.
  induction a as [|c a IH]; intros b x y Hx Hy E.
  - destruct b as [|c' b]; cbn [append] in E.
    + injection E as E. auto.
    + injection E as _ E. rewrite E in Hx.
      change (b ++ String "." y) with (b ++ "." ++ y) in Hx.
      now rewrite dot_in_middle in Hx.
  - destruct b as [|c' b]; cbn [append] in E.
    + injection E as _ E. rewrite <- E in Hy.
      change (a ++ String "." x) with (a ++ "." ++ x) in Hy.
      now rewrite dot_in_middle in Hy.
    + injection E as -> E.
      destruct (IH b x y Hx Hy E) as [-> ->]. auto.
Qed.

(** X20: the symbol of a static variable is the name of the unit that is
    being translated, a dot, and the index; the blocks emitted for two
    static accesses name the same symbol only if both the unit and the
    index are the same. *)
Theorem static_symbol_per_unit_and_index (g1 g2 : VM.globals) (i j : Z) :
  VM.handlePush g1 "static" i
  = blockText ["@" ++ VM.currentFile g1 ++ "." ++ Go.Itoa i; "D=M";
               "@SP"; "AM=M+1"; "A=A-1"; "M=D"]
  /\ VM.handlePop g1 "static" i
     = blockText ["@SP"; "AM=M-1"; "D=M";
                  "@" ++ VM.currentFile g1 ++ "." ++ Go.Itoa i; "M=D"]
  /\ (VM.currentFile g1 ++ "." ++ Go.Itoa i = VM.currentFile g2 ++ "." ++ Go.Itoa j ->
      VM.currentFile g1 = VM.currentFile g2 /\ i = j)
  /\ (VM.handlePush g1 "static" i = VM.handlePush g2 "static" j ->
      VM.currentFile g1 = VM.currentFile g2 /\ i = j)
  /\ (VM.handlePop g1 "static" i = VM.handlePop g2 "static" j ->
      VM.currentFile g1 = VM.currentFile g2 /\ i = j).
Proof.
  assert (Hsym : VM.currentFile g1 ++ "." ++ Go.Itoa i
                 = VM.currentFile g2 ++ "." ++ Go.Itoa j ->
                 VM.currentFile g1 = VM.currentFile g2 /\ i = j).
  { intros E. apply split_at_last_dot in E; try apply Itoa_notDot.
    destruct E as [E1 E2]. apply Itoa_inj in E2. auto. }
  split; [reflexivity|]. split; [reflexivity|]. split; [exact Hsym|].
  split; intros E; apply Hsym.
  - change (VM.handlePush g1 "static" i)
      with ((("@" ++ VM.currentFile g1 ++ "." ++ Go.Itoa i)
             ++ (Go.nl ++ Go.Join ["D=M"; "@SP"; "AM=M+1"; "A=A-1"; "M=D"] Go.nl))
            ++ Go.nl) in E.
    change (VM.handlePush g2 "static" j)
      with ((("@" ++ VM.currentFile g2 ++ "." ++ Go.Itoa j)
             ++ (Go.nl ++ Go.Join ["D=M"; "@SP"; "AM=M+1"; "A=A-1"; "M=D"] Go.nl))
            ++ Go.nl) in E.
    apply append_cancel_r in E. apply append_cancel_r in E.
    now apply (append_cancel_l "@") in E.
  - change (VM.handlePop g1 "static" i)
      with ((("@SP" ++ Go.nl ++ "AM=M-1" ++ Go.nl ++ "D=M" ++ Go.nl ++ "@")
             ++ (VM.currentFile g1 ++ "." ++ Go.Itoa i) ++ (Go.nl ++ "M=D"))
            ++ Go.nl) in E.
    change (VM.handlePop g2 "static" j)
      with ((("@SP" ++ Go.nl ++ "AM=M-1" ++ Go.nl ++ "D=M" ++ Go.nl ++ "@")
             ++ (VM.currentFile g2 ++ "." ++ Go.Itoa j) ++ (Go.nl ++ "M=D"))
            ++ Go.nl) in E.
    apply append_cancel_r in E. apply append_cancel_l in E.
    now apply append_cancel_r in E.
Qed.

End Statics.

(** ** The return labels of the comparison commands *)

Section ComparisonLabels.

Lemma operation_counts g op g' out :
  VM.operation g op = Ok (g', out) ->
  (VM.eqCount g' = VM.eqCount g
   \/ (op = "eq" /\ VM.eqCount g' = Go.wrap_int (VM.eqCount g + 1)))
  /\ (VM.gtCount g' = VM.gtCount g
      \/ (op = "gt" /\ VM.gtCount g' = Go.wrap_int (VM.gtCount g + 1)))
  /\ (VM.ltCount g' = VM.ltCount g
      \/ (op = "lt" /\ VM.ltCount g' = Go.wrap_int (VM.ltCount g + 1))).
Proof.
  unfold VM.operation, VM.eq, VM.gt, VM.lt.
  destruct (String.eqb op "add"); [intros H; injection H as <- _; auto|].
  destruct (String.eqb op "sub"); [intros H; injection H as <- _; auto|].
  destruct (String.eqb op "neg"); [intros H; injection H as <- _; auto|].
  destruct (String.eqb_spec op "eq"); [intros H; injection H as <- _; auto|].
  destruct (String.eqb_spec op "gt"); [intros H; injection H as <- _; auto|].
  destruct (String.eqb_spec op "lt"); [intros H; injection H as <- _; auto|].
  destruct (String.eqb op "and"); [intros H; injection H as <- _; auto|].
  destruct (String.eqb op "or"); [intros H; injection H as <- _; auto|].
  destruct (String.eqb op "not"); [intros H; injection H as <- _; auto|].
  discriminate.
Qed.

(** One command adds one to the counter of its own kind if it is a
    comparison, and leaves the three counters as they are otherwise. *)
Lemma parseCommand_counts g line g' out :
  VM.parseCommand g line = Ok (g', out) ->
  (VM.eqCount g' = VM.eqCount g
   \/ (Go.Fields line = ["eq"]
       /\ VM.eqCount g' = Go.wrap_int (VM.eqCount g + 1)))
  /\ (VM.gtCount g' = VM.gtCount g
      \/ (Go.Fields line = ["gt"]
          /\ VM.gtCount g' = Go.wrap_int (VM.gtCount g + 1)))
  /\ (VM.ltCount g' = VM.ltCount g
      \/ (Go.Fields line = ["lt"]
          /\ VM.ltCount g' = Go.wrap_int (VM.ltCount g + 1))).
Proof.
  unfold VM.parseCommand.
  destruct (Go.Fields line) as [|first fields] eqn:HF; [discriminate|].
  cbn [Go.index nth_error bind].
  destruct (String.eqb first "function").
  { destruct (Go.index (first :: fields) 1) as [name| |]; cbn [bind];
      try discriminate.
    destruct (Go.index (first :: fields) 2) as [nVars| |]; cbn [bind];
      try discriminate.
    unfold VM.function. destruct (Go.Atoi nVars); [|discriminate].
    intros H. injection H as <- _. auto. }
  destruct (String.eqb first "call").
  { destruct (Go.index (first :: fields) 1) as [name| |]; cbn [bind];
      try discriminate.
    destruct (Go.index (first :: fields) 2) as [nArgs| |]; cbn [bind];
      try discriminate.
    unfold VM.callFunction. destruct (Go.Atoi nArgs); [|discriminate].
    intros H. injection H as <- _. auto. }
  destruct (String.eqb first "return").
  { intros H. injection H as <- _. auto. }
  destruct (String.eqb first "goto").
  { destruct (Go.index (first :: fields) 1) as [l| |]; cbn [bind];
      try discriminate.
    intros H. injection H as <- _. auto. }
  destruct (String.eqb first "if-goto").
  { destruct (Go.index (first :: fields) 1) as [l| |]; cbn [bind];
      try discriminate.
    intros H. injection H as <- _. auto. }
  destruct (String.eqb first "label").
  { destruct (Go.index (first :: fields) 1) as [l| |]; cbn [bind];
      try discriminate.
    intros H. injection H as <- _. auto. }
  destruct fields as [|second fields].
  { cbn [List.length Nat.eqb].
    destruct (VM.operation g first) as [[g1 o]| |] eqn:E; cbn [bind];
      try discriminate.
    intros H. injection H as <- _. cbn [fst].
    apply operation_counts in E as (H1 & H2 & H3).
    split; [|split].
    - destruct H1 as [H1|[-> H1]]; [left; exact H1 | right; split; [reflexivity | exact H1]].
    - destruct H2 as [H2|[-> H2]]; [left; exact H2 | right; split; [reflexivity | exact H2]].
    - destruct H3 as [H3|[-> H3]]; [left; exact H3 | right; split; [reflexivity | exact H3]]. }
  cbn [List.length Nat.eqb].
  destruct (Go.index (first :: second :: fields) 2) as [third| |]; cbn [bind];
    try discriminate.
  destruct (Go.Atoi third); [|discriminate].
  cbn [Go.index nth_error bind].
  destruct (String.eqb first "push"); [intros H; injection H as <- _; auto|].
  destruct (String.eqb first "pop"); [intros H; injection H as <- _; auto|].
  discriminate.
Qed.

(** Over the lines of a unit each counter grows by at most the number of
    lines, as long as it stays below the largest [int]. *)
Lemma Parse_counts (count : VM.globals -> Z) :
  In count [VM.eqCount; VM.gtCount; VM.ltCount] ->
  forall scanned g g' outs,
    VM.Parse g scanned = Ok (g', outs) ->
    0 <= count g ->
    count g + Z.of_nat (List.length scanned) <= Go.MaxInt ->
    count g <= count g' <= count g + Z.of_nat (List.length scanned).
Proof.
  intros Hin.
  induction scanned as [|line rest IH]; intros g g' outs H H0 Hmax.
  - cbn [VM.Parse] in H. injection H as <- _. cbn [List.length]. lia.
  - cbn [VM.Parse] in H. cbn [List.length] in Hmax |- *.
    rewrite Nat2Z.inj_succ in Hmax |- *.
    destruct (Go.HasPrefix (Go.TrimSpace line) "//"
              || Go.isEmpty (Go.TrimSpace line)).
    + apply IH in H; lia.
    + destruct (VM.parseCommand g _) as [[g1 o1]| |] eqn:E1; cbn [bind] in H;
        try discriminate H.
      cbn [fst snd] in H.
      destruct (VM.Parse g1 rest) as [[g2 o2]| |] eqn:E2; cbn [bind] in H;
        try discriminate H.
      injection H as <- _.
      apply parseCommand_counts in E1 as (H1 & H2 & H3).
      assert (Hc : count g <= count g1 <= count g + 1).
      { cbn [In] in Hin. destruct Hin as [<-|[<-|[<-|[]]]].
        - destruct H1 as [->|[_ ->]]; [lia|].
          rewrite wrap_int_small; unfold Go.MinInt, Go.MaxInt in *; lia.
        - destruct H2 as [->|[_ ->]]; [lia|].
          rewrite wrap_int_small; unfold Go.MinInt, Go.MaxInt in *; lia.
        - destruct H3 as [->|[_ ->]]; [lia|].
          rewrite wrap_int_small; unfold Go.MinInt, Go.MaxInt in *; lia. }
      apply IH in E2; lia.
Qed.

(** X21: the return label of a comparison is [RET_ADDRESS_EQ<n>],
    [RET_ADDRESS_GT<n>] or [RET_ADDRESS_LT<n>] with [n] the counter of that
    kind of comparison.  A comparison adds one to its counter and no other
    command changes it, so over the commands that follow the counter only
    grows and a later comparison of the same kind gets a different label. *)
Theorem comparison_label_per_use
    (g : VM.globals) (op ret routine : string) (count : VM.globals -> Z) :
  In (op, ret, routine, count)
     [("eq", "RET_ADDRESS_EQ", "EQ", VM.eqCount);
      ("gt", "RET_ADDRESS_GT", "GT", VM.gtCount);
      ("lt", "RET_ADDRESS_LT", "LT", VM.ltCount)] ->
  0 <= count g ->
  exists g1,
    VM.parseCommand g op
    = Ok (g1, blockText ["@" ++ ret ++ Go.Itoa (count g); "D=A";
                         "@" ++ routine; "0;JMP";
                         "(" ++ (ret ++ Go.Itoa (count g)) ++ ")"])
    /\ count g1 = Go.wrap_int (count g + 1)
    /\ (forall line g' out,
          VM.parseCommand g line = Ok (g', out) ->
          Go.Fields line <> [op] -> count g' = count g)
    /\ (forall between g2 outs,
          VM.Parse g1 between = Ok (g2, outs) ->
          count g + 1 + Z.of_nat (List.length between) <= Go.MaxInt ->
          count g < count g2
          /\ ret ++ Go.Itoa (count g2) <> ret ++ Go.Itoa (count g)).
Proof.
  intros Hin H0.
  assert (Hcount : In count [VM.eqCount; VM.gtCount; VM.ltCount]).
  { cbn [In] in *.
    destruct Hin as [E|[E|[E|[]]]]; injection E as _ _ _ <-; auto. }
  assert (Hstep : exists g1,
             VM.parseCommand g op
             = Ok (g1, blockText ["@" ++ ret ++ Go.Itoa (count g); "D=A";
                                  "@" ++ routine; "0;JMP";
                                  "(" ++ (ret ++ Go.Itoa (count g)) ++ ")"])
             /\ count g1 = Go.wrap_int (count g + 1)).
  { cbn [In] in Hin.
    destruct Hin as [E|[E|[E|[]]]]; injection E as <- <- <- <-.
    - exists (fst (VM.eq g)). split; reflexivity.
    - exists (fst (VM.gt g)). split; reflexivity.
    - exists (fst (VM.lt g)). split; reflexivity. }
  destruct Hstep as (g1 & Hcmd & Hc1). exists g1.
  split; [exact Hcmd|]. split; [exact Hc1|]. split.
  - intros line g' out H Hne.
    apply parseCommand_counts in H as (H1 & H2 & H3).
    cbn [In] in Hin.
    destruct Hin as [E|[E|[E|[]]]]; injection E as <- <- <- <-.
    + destruct H1 as [H1|[HF _]]; [exact H1 | contradiction].
    + destruct H2 as [H2|[HF _]]; [exact H2 | contradiction].
    + destruct H3 as [H3|[HF _]]; [exact H3 | contradiction].
  - intros between g2 outs HP Hmax.
    assert (Hc1' : count g1 = count g + 1).
    { rewrite Hc1. apply wrap_int_small. unfold Go.MinInt, Go.MaxInt in *. lia. }
    apply (Parse_counts count Hcount) in HP; [|lia|lia].
    split; [lia|]. intros E. apply append_cancel_l, Itoa_inj in E. lia.
Qed.

Lemma comparison_label_per_use_witness :
  exists g1,
    VM.parseCommand g0 "gt"
    = Ok (g1, blockText ["@RET_ADDRESS_GT0"; "D=A"; "@GT"; "0;JMP";
                         "(RET_ADDRESS_GT0)"])
    /\ VM.gtCount g1 = 1.
Proof.
  destruct (comparison_label_per_use g0 "gt" "RET_ADDRESS_GT" "GT" VM.gtCount)
    as (g1 & Hcmd & Hc & _).
  - simpl. right. left. reflexivity.
  - simpl. lia.
  - exists g1. split; [exact Hcmd | exact Hc].
Defined.

End ComparisonLabels.

(** ** The file that is written *)

Section Output.

Lemma extFrom_asm x : forall cur, Go.extFrom (x ++ ".asm") cur = ".asm".
Proof.
  induction x as [|c x IH]; intros cur.
  - destruct cur; reflexivity.
  - cbn [append Go.extFrom].
    destruct (Go.isSlash c); [apply IH|].
    destruct (Ascii.eqb c "."); apply IH.
Qed.

Lemma Ext_asm x : Go.Ext (x ++ ".asm") = ".asm".
Proof. apply extFrom_asm. Qed.

Lemma length_app_sub x s :
  (String.length (x ++ s) - String.length s)%nat = String.length x.
Proof. rewrite length_append. lia. Qed.

Lemma substring_prefix x s : substring 0 (String.length x) (x ++ s) = x.
Proof.
  induction x as [|c x IH]; cbn [append String.length substring].
  - destruct s; reflexivity.
  - now rewrite IH.
Qed.

Lemma substring_suffix x s :
  substring (String.length x) (String.length s) (x ++ s) = s.
Proof.
  induction x as [|c x IH]; cbn [append String.length substring].
  - clear. induction s as [|c s IH]; cbn [String.length substring];
      [reflexivity | now rewrite IH].
  - exact IH.
Qed.

Lemma TrimSuffix_app x s : Go.TrimSuffix (x ++ s) s = x.
Proof.
  unfold Go.TrimSuffix, Go.HasSuffix.
  rewrite length_app_sub, substring_suffix, String.eqb_refl.
  assert (H : (String.length s <=? String.length (x ++ s))%nat = true).
  { apply Nat.leb_le. rewrite length_append. lia. }
  rewrite H. cbn [andb]. apply substring_prefix.
Qed.

Lemma loadFolder_options g files g' instructions :
  VM.loadFolder g files = Ok (g', instructions) -> sameOptions g g'.
Proof.
  unfold VM.loadFolder. destruct files as [|f files]; [discriminate|].
  set (fs := f :: files). clearbody fs.
  destruct (if VM.shouldBootstrap g then _ else _) as [[g1 i1]| |] eqn:E0;
    cbn [bind]; try discriminate.
  cbn [fst snd].
  destruct (VM.parseFiles g1 fs) as [[g2 i2]| |] eqn:E1; cbn [bind];
    try discriminate.
  cbn [fst snd]. intros H.
  assert (g' = g2) by congruence. subst g'. clear H.
  apply parseFiles_options in E1.
  eapply sameOptions_trans; [|exact E1].
  destruct (VM.shouldBootstrap g).
  - unfold VM.callFunction in E0. cbn [bind] in E0.
    change (Go.Atoi "0") with (Some 0) in E0. cbn [bind fst snd] in E0.
    assert (g1 = VM.set_funcStack g
                   {| VM.current := VM.current (VM.funcStack g);
                      VM.returnCounter :=
                        Go.wrap_int (VM.returnCounter (VM.funcStack g) + 1) |})
      by congruence.
    subst g1. repeat split.
  - assert (g1 = g) by congruence. subst g1. apply sameOptions_refl.
Qed.

(** X22: for a path to a folder, the program is written to the file
    [<path>/<last element of the path>.asm]. *)
Theorem folder_program_is_written_inside_the_folder
    (bootstrap setStackPointer endWithLoop : bool) (path text : string)
    (content : list string) (files : list (string * list string)) :
  Go.isEmpty path = false ->
  Go.Ext path = EmptyString ->
  program (VM.initial bootstrap setStackPointer endWithLoop path) files
  = Some text ->
  VM.main bootstrap setStackPointer endWithLoop path (Some true) content files
  = Ok (Some (path ++ "/" ++ Go.Base path ++ ".asm", text)).
Proof.
  intros Hne Hext Hprog. unfold VM.main. rewrite Hne, Hext.
  change (String.eqb EmptyString ".vm") with false.
  change (String.eqb EmptyString EmptyString) with true. cbv iota.
  unfold program in Hprog.
  destruct (VM.loadFolder _ files) as [[g' instructions]| |] eqn:E;
    try discriminate Hprog.
  apply some_eq in Hprog. subst text.
  apply loadFolder_options in E as (_ & _ & _ & Hp).
  cbn [bind fst snd]. unfold VM.save, VM.getFolderName. rewrite Hp.
  change (VM.pathToTranslate (VM.initial _ _ _ path)) with path.
  now rewrite Ext_asm, TrimSuffix_app.
Qed.

Lemma folder_program_is_written_inside_the_folder_witness :
  VM.main false false false "Prog" (Some true) [] (unit1 "eq")
  = Ok (Some ("Prog/Prog.asm", eqText)).
Proof.
  apply (folder_program_is_written_inside_the_folder
           false false false "Prog" eqText [] (unit1 "eq")).
  - reflexivity.
  - reflexivity.
  - vm_compute. reflexivity.
Defined.

Lemma extFrom_vm x : forall cur, Go.extFrom (x ++ ".vm") cur = ".vm".
Proof.
  induction x as [|c x IH]; intros cur.
  - destruct cur; reflexivity.
  - cbn [append Go.extFrom].
    destruct (Go.isSlash c); [apply IH|].
    destruct (Ascii.eqb c "."); apply IH.
Qed.

Lemma upToLastSlash_word w :
  allChars notSlash w = true -> Go.upToLastSlash w = EmptyString.
Proof.
  induction w as [|c w IH]; intros H; [reflexivity|].
  cbn [allChars] in H. apply andb_true_iff in H as [Hc Hw].
  cbn [Go.upToLastSlash]. rewrite IH by exact Hw.
  unfold notSlash in Hc. now rewrite Hc.
Qed.

Lemma upToLastSlash_cons c r :
  Go.upToLastSlash (String c r)
  = if Go.isEmpty (Go.upToLastSlash r) && negb (Go.isSlash c)
    then EmptyString else String c (Go.upToLastSlash r).
Proof. reflexivity. Qed.

Lemma upToLastSlash_app a w :
  allChars notSlash w = true ->
  Go.upToLastSlash (a ++ "/" ++ w) = a ++ "/".
Proof.
  intros Hw. induction a as [|c a IH].
  - change (EmptyString ++ "/" ++ w) with (String "/" w).
    rewrite upToLastSlash_cons, upToLastSlash_word by exact Hw. reflexivity.
  - change (String c a ++ "/" ++ w) with (String c (a ++ "/" ++ w)).
    rewrite upToLastSlash_cons, IH.
    destruct (a ++ "/") eqn:E; [destruct a; discriminate E|].
    cbn [Go.isEmpty andb append]. now rewrite E.
Qed.

Lemma elementsFrom_word w : forall cur,
  allChars notSlash w = true ->
  Go.elementsFrom (w ++ "/") cur = [cur ++ w; EmptyString].
Proof.
  induction w as [|c w IH]; intros cur H.
  - cbn [append Go.elementsFrom]. change (Go.isSlash "/") with true.
    cbv iota. now rewrite append_nil_r.
  - cbn [allChars] in H. apply andb_true_iff in H as [Hc Hw].
    unfold notSlash in Hc. apply negb_true_iff in Hc.
    cbn [append Go.elementsFrom]. rewrite Hc, IH by exact Hw.
    now rewrite append_assoc.
Qed.

Lemma cleanElement_plain rooted out e :
  Go.isEmpty e = false -> e <> "." -> e <> ".." ->
  Go.cleanElement rooted out e = e :: out.
Proof.
  intros Hne Hdot Hdots. unfold Go.cleanElement.
  now rewrite Hne, (eqb_false_of_ne _ _ Hdot), (eqb_false_of_ne _ _ Hdots).
Qed.

(** The directory of a path made of one plain element and a file name. *)
Lemma Dir_plain dir name :
  allChars notSlash dir = true -> Go.isEmpty dir = false ->
  dir <> "." -> dir <> ".." ->
  allChars notSlash name = true ->
  Go.Dir (dir ++ "/" ++ name) = dir.
Proof.
  intros Hdir Hne Hdot Hdots Hname. unfold Go.Dir.
  rewrite upToLastSlash_app by exact Hname.
  destruct dir as [|c dir]; [discriminate Hne|].
  unfold Go.Clean. cbn [append].
  change (String c (dir ++ "/")) with (String c dir ++ "/").
  rewrite elementsFrom_word by exact Hdir.
  change (EmptyString ++ String c dir) with (String c dir).
  cbn [fold_left]. rewrite (cleanElement_plain _ [] (String c dir)) by assumption.
  change (Go.cleanElement (Go.isSlash c) [String c dir] EmptyString)
    with [String c dir].
  cbn [List.rev List.app Go.Join].
  cbn [allChars] in Hdir. apply andb_true_iff in Hdir as [Hc _].
  unfold notSlash in Hc. apply negb_true_iff in Hc. rewrite Hc.
  reflexivity.
Qed.

(** X23: for a path to a file, [<stem>.vm], the text that is written is the
    translation of the lines of the file and nothing else, and the file that
    is created is [<directory of the path>/<stem>.asm], where the stem
    still holds the directories of the path: for [<dir>/<name>.vm] it is
    [<dir>/<dir>/<name>.asm], and [./<name>.asm] for a bare file name. *)
Theorem file_translation_is_written_beside_the_path
    (bootstrap setStackPointer endWithLoop : bool) (stem : string)
    (content : list string) (files : list (string * list string))
    (g' : VM.globals) (instructions : list string) :
  let path := stem ++ ".vm" in
  let g := VM.initial bootstrap setStackPointer endWithLoop path in
  VM.parseFile g path content = Ok (g', instructions) ->
  VM.main bootstrap setStackPointer endWithLoop path (Some false) content files
  = Ok (Some (Go.Dir path ++ "/" ++ stem ++ ".asm", VM.written instructions))
  /\ VM.Parse (VM.set_currentFile g (Go.Base path)) content
     = Ok (g', instructions)
  /\ (allChars notSlash stem = true -> Go.Dir path = ".")
  /\ (forall dir name,
        stem = dir ++ "/" ++ name ->
        allChars notSlash dir = true -> Go.isEmpty dir = false ->
        dir <> "." -> dir <> ".." -> allChars notSlash name = true ->
        Go.Dir path = dir).
Proof.
  intros path g Hparse.
  assert (Hext : Go.Ext path = ".vm") by apply extFrom_vm.
  assert (Hne : Go.isEmpty path = false).
  { unfold path. destruct stem; reflexivity. }
  split; [|split; [|split]].
  - unfold VM.main. fold g. rewrite Hne, Hext.
    change (String.eqb ".vm" ".vm") with true. cbv iota.
    rewrite Hparse. cbn [bind fst snd].
    apply parseFile_options in Hparse as (_ & _ & _ & Hp).
    unfold VM.save. rewrite Hp.
    change (VM.pathToTranslate g) with path.
    unfold path at 2. rewrite TrimSuffix_app, Ext_asm, TrimSuffix_app.
    reflexivity.
  - unfold VM.parseFile in Hparse.
    destruct path as [|c r] eqn:Epath; [discriminate Hparse|].
    destruct (negb (Go.HasPrefix _ _)); [discriminate Hparse|].
    rewrite Hext in Hparse. exact Hparse.
  - intros Hstem. unfold Go.Dir, path.
    rewrite upToLastSlash_word; [reflexivity|].
    rewrite allChars_append, Hstem. reflexivity.
  - intros dir name -> Hdir Hdne Hdot Hdots Hname. unfold path.
    rewrite !append_assoc.
    change (("/" ++ name) ++ ".vm") with ("/" ++ (name ++ ".vm")).
    apply Dir_plain; try assumption.
    rewrite allChars_append, Hname. reflexivity.
Qed.

Lemma file_translation_is_written_beside_the_path_witness :
  VM.main false false false "Dir/Main.vm" (Some false) ["add"] []
  = Ok (Some ("Dir/Dir/Main.asm", VM.add ++ Go.nl)).
Proof.
  destruct (file_translation_is_written_beside_the_path
              false false false "Dir/Main" ["add"] []
              (VM.set_currentFile
                 (VM.initial false false false "Dir/Main.vm") "Main.vm")
              [VM.add ++ Go.nl])
    as (Hmain & _ & _ & _).
  - vm_compute. reflexivity.
  - exact Hmain.
Defined.

(** The test for the capital fails on a lower-case letter, and on a byte
    that is not ASCII unless the text begins with the character U+FFFD. *)
Lemma not_capital c r :
  Go.isLower c = true
  \/ (Go.isAscii c = false
      /\ Go.HasPrefix (String c r)
           (String "239" (String "191" (String "189" EmptyString))) = false) ->
  Go.HasPrefix (String c r) (Go.ToUpper1 c) = false.
Proof.
  intros [Hc | [Hc H]].
  - destruct c as [[|] [|] [|] [|] [|] [|] [|] [|]];
      try discriminate Hc; reflexivity.
  - unfold Go.ToUpper1. now rewrite Hc.
Qed.

(** X24: a file whose path does not begin with a capital is refused.  The
    path is the one passed for a single file, and for a folder the path of
    the file that is listed first; it is refused when it begins with a
    lower-case letter, and when it begins with a byte that is not ASCII
    (unless it begins with the character U+FFFD).  The test reads the path,
    not the name of the file. *)
Theorem path_with_lower_case_start_is_refused
    (bootstrap setStackPointer endWithLoop : bool) (path : string)
    (c : ascii) (r : string)
    (isDir : option bool) (content : list string)
    (files others : list (string * list string)) :
  Go.isLower c = true
  \/ (Go.isAscii c = false
      /\ Go.HasPrefix (String c r)
           (String "239" (String "191" (String "189" EmptyString))) = false) ->
  (Go.Ext path = ".vm" /\ path = String c r)
  \/ (Go.isEmpty path = false /\ Go.Ext path = EmptyString
      /\ files = (String c r, content) :: others) ->
  VM.main bootstrap setStackPointer endWithLoop path isDir content files
  = Error "file must start with an uppercase letter".
Proof.
  intros Hc Hcase. apply not_capital in Hc. unfold VM.main.
  destruct Hcase as [[Hext ->] | (Hne & Hext & ->)]; rewrite Hext.
  - cbn [Go.isEmpty].
    change (String.eqb ".vm" ".vm") with true. cbv iota.
    unfold VM.parseFile. now rewrite Hc.
  - rewrite Hne.
    change (String.eqb EmptyString ".vm") with false.
    change (String.eqb EmptyString EmptyString) with true. cbv iota.
    unfold VM.loadFolder.
    assert (Hfirst : forall g,
              VM.parseFiles g ((String c r, content) :: others)
              = Error "file must start with an uppercase letter").
    { intros g. cbn [VM.parseFiles]. unfold VM.parseFile. now rewrite Hc. }
    destruct bootstrap.
    + change (VM.shouldBootstrap (VM.initial true _ _ _)) with true. cbv iota.
      unfold VM.callFunction. change (Go.Atoi "0") with (Some 0).
      cbn [bind fst snd]. rewrite Hfirst. reflexivity.
    + change (VM.shouldBootstrap (VM.initial false _ _ _)) with false. cbv iota.
      cbn [bind fst snd]. rewrite Hfirst. reflexivity.
Qed.

Lemma path_with_lower_case_start_is_refused_witness :
  VM.main false false false "projects/Prog" (Some true) ["add"]
    [("projects/Prog/Main.vm", ["add"])]
  = Error "file must start with an uppercase letter"
  /\ VM.main false false false "main.vm" (Some false) ["add"] []
     = Error "file must start with an uppercase letter".
Proof.
  split.
  - apply (path_with_lower_case_start_is_refused
             false false false "projects/Prog" "p" "rojects/Prog/Main.vm"
             (Some true) ["add"] [("projects/Prog/Main.vm", ["add"])] []).
    + left. reflexivity.
    + right. repeat split.
  - apply (path_with_lower_case_start_is_refused
             false false false "main.vm" "m" "ain.vm"
             (Some false) ["add"] [] []).
    + left. reflexivity.
    + left. split; reflexivity.
Defined.

End Output.

(** ** Call and return in any program *)

Section CallReturnAnywhere.

(** The twelve instructions of a call site and the shared [CALL] routine. *)
Lemma call_run (b : bool) (tail : list instr) (entry n ret : Z) (s : cpu) :
  codeAt (startCode b ++ tail) (PC s)
    [At entry; Cmd {| toA := false; toD := true; toM := false |} c_A j_none;
     At 13; Cmd {| toA := false; toD := false; toM := true |} c_D j_none;
     At n; Cmd {| toA := false; toD := true; toM := false |} c_A j_none;
     At 14; Cmd {| toA := false; toD := false; toM := true |} c_D j_none;
     At ret; Cmd {| toA := false; toD := true; toM := false |} c_A j_none;
     At (if b then 56 else 52);
     Cmd {| toA := false; toD := false; toM := false |} c_0 JMP] ->
  0 <= entry < 65536 -> 0 <= n ->
  16 <= load (RAM s) 0 - n -> load (RAM s) 0 + 5 < 65536 ->
  exists s1,
    run (startCode b ++ tail) 60 s = Some s1
    /\ PC s1 = entry
    /\ frame s n (wrap ret) s1
    /\ load (RAM s1) 0 = load (RAM s) 0 + 5.
Proof.
  intros Hat Hentry Hn Hlo Hhi.
  pose proof (wrap_range ret) as Hret.
  destruct s as [a d pc m]. cbn [PC RAM] in *.
  pose proof (load_range m 0) as Hr.
  destruct b; unfold startCode in *.
  - eexists. split.
    + match type of Hat with
      | codeAt _ _ ?code =>
        rewrite (run_segment_at _ code 60 48
                   {| A := a; D := d; PC := pc; RAM := m |} eq_refl Hat eq_refl)
      end.
      exec_all. seg_in startCode1 48%nat idtac. reflexivity.
    + unfold frame. cbn [PC RAM].
      repeat split; norm_load; norm_wrap; try reflexivity; try lia.
  - eexists. split.
    + match type of Hat with
      | codeAt _ _ ?code =>
        rewrite (run_segment_at _ code 60 48
                   {| A := a; D := d; PC := pc; RAM := m |} eq_refl Hat eq_refl)
      end.
      exec_all. seg_in startCode0 48%nat idtac. reflexivity.
    + unfold frame. cbn [PC RAM].
      repeat split; norm_load; norm_wrap; try reflexivity; try lia.
Qed.

(** The two instructions of a return and the shared [RETURN] routine. *)
Lemma return_run (b : bool) (tail : list instr) (n ret : Z) (s s2 : cpu) :
  codeAt (startCode b ++ tail) (PC s2)
    [At (if b then 6 else 2);
     Cmd {| toA := false; toD := false; toM := false |} c_0 JMP] ->
  frame s n ret s2 ->
  0 <= n -> 16 <= load (RAM s) 0 - n -> load (RAM s) 0 + 5 < 65536 ->
  exists s3,
    run (startCode b ++ tail) 52 s2 = Some s3
    /\ returned s n ret (load (RAM s2) (load (RAM s2) 0 - 1)) s3.
Proof.
  intros Hat Hf Hn Hlo Hhi.
  destruct s as [a d pc m]. destruct s2 as [a2 d2 pc2 m2].
  unfold frame in Hf. cbn [PC RAM] in *.
  destruct Hf as (Hlcl & Harg & Hret & H1 & H2 & H3 & H4 & Hsp2).
  pose proof (load_range m 0) as Hr.
  pose proof (load_range m2 0) as Hr2.
  destruct b; unfold startCode in *.
  - eexists. split.
    + match type of Hat with
      | codeAt _ _ ?code =>
        rewrite (run_segment_at _ code 52 50
                   {| A := a2; D := d2; PC := pc2; RAM := m2 |}
                   eq_refl Hat eq_refl)
      end.
      exec_all.
      seg_in startCode1 50%nat ltac:(rewrite ?Hlcl, ?Harg).
      reflexivity.
    + unfold returned. cbn [PC RAM].
      replace (load m 0 + 5 - 5) with (load m 0) by lia.
      replace (load m 0 + 5 - 4) with (load m 0 + 1) by lia.
      replace (load m 0 + 5 - 3) with (load m 0 + 2) by lia.
      replace (load m 0 + 5 - 2) with (load m 0 + 3) by lia.
      replace (load m 0 + 5 - 1) with (load m 0 + 4) by lia.
      rewrite Hret, H1, H2, H3, H4.
      repeat split; norm_load; norm_wrap; try reflexivity; try lia.
  - eexists. split.
    + match type of Hat with
      | codeAt _ _ ?code =>
        rewrite (run_segment_at _ code 52 50
                   {| A := a2; D := d2; PC := pc2; RAM := m2 |}
                   eq_refl Hat eq_refl)
      end.
      exec_all.
      seg_in startCode0 50%nat ltac:(rewrite ?Hlcl, ?Harg).
      reflexivity.
    + unfold returned. cbn [PC RAM].
      replace (load m 0 + 5 - 5) with (load m 0) by lia.
      replace (load m 0 + 5 - 4) with (load m 0 + 1) by lia.
      replace (load m 0 + 5 - 3) with (load m 0 + 2) by lia.
      replace (load m 0 + 5 - 2) with (load m 0 + 3) by lia.
      replace (load m 0 + 5 - 1) with (load m 0 + 4) by lia.
      rewrite Hret, H1, H2, H3, H4.
      repeat split; norm_load; norm_wrap; try reflexivity; try lia.
Qed.

(** X25: in every program written for a folder, the block emitted for a
    call with [n] arguments, entered at its first instruction, reaches the
    entry of the callee with the frame built: the return address and the
    caller's [LCL], [ARG], [THIS] and [THAT] saved in the five words from
    the caller's stack top on, [ARG] at the first argument, [LCL] and the
    stack pointer just above the saved words.  ([entry] is the address of
    the callee's label; the return label stands for the address after the
    block.) *)
Theorem call_builds_frame_in_any_program
    (g : VM.globals) (files : list (string * list string))
    (text pre block post : string) (rom : list instr)
    (g1 g1' : VM.globals) (name nArgs : string) (n entry : Z) (s : cpu) :
  program g files = Some text ->
  assemble text = Some rom ->
  Go.Atoi nArgs = Some n ->
  VM.callFunction g1 name nArgs = Ok (g1', block) ->
  text = pre ++ block ++ post ->
  endsWithNewline pre = true ->
  let callee := VM.getFolderName g1 ++ "." ++ name in
  let returnLabel :=
    VM.getFolderName g1 ++ "." ++ VM.current (VM.funcStack g1) ++ "$ret"
    ++ Go.Itoa (VM.returnCounter (VM.funcStack g1)) in
  allChars notNewline callee = true ->
  allChars notNewline returnLabel = true ->
  labelAddress text callee = Some entry ->
  0 <= entry < 32768 ->
  labelAddress text returnLabel = Some (codeLength pre + 12) ->
  codeLength pre + 12 < 32768 ->
  PC s = codeLength pre ->
  0 <= n ->
  16 <= load (RAM s) 0 - n ->
  load (RAM s) 0 + 5 < 65536 ->
  exists k s1,
    run rom k s = Some s1
    /\ PC s1 = entry
    /\ frame s n (codeLength pre + 12) s1
    /\ load (RAM s1) 0 = load (RAM s) 0 + 5.
Proof.
  intros Hprog Hasm Hatoi Hcall Htext Hpre callee returnLabel Hcallee_nl Hret_nl
         Hentry Hentry_range Hret Hret_range Hpc Hn Hlo Hhi.
  destruct (program_layout _ _ _ _ Hprog Hasm) as [[tail Hrom] Hlab].
  set (b := VM.shouldSetStackPointer g) in *. clearbody b.
  rewrite (callFunction_Ok _ _ _ _ Hatoi) in Hcall.
  fold callee in Hcall. fold returnLabel in Hcall.
  assert (Hblock : block = blockText
            ["@" ++ callee; "D=A"; "@R13"; "M=D"; "@" ++ Go.Itoa n; "D=A";
             "@R14"; "M=D"; "@" ++ returnLabel; "D=A"; "@CALL"; "0;JMP";
             "(" ++ returnLabel ++ ")"]) by congruence.
  clear Hcall. subst block text.
  assert (Hls : forallb (allChars notNewline)
            ["@" ++ callee; "D=A"; "@R13"; "M=D"; "@" ++ Go.Itoa n; "D=A";
             "@R14"; "M=D"; "@" ++ returnLabel; "D=A"; "@CALL"; "0;JMP";
             "(" ++ returnLabel ++ ")"] = true).
  { cbn [forallb]. rewrite (allChars_append _ "(" (returnLabel ++ ")")).
    rewrite (allChars_append _ returnLabel ")").
    rewrite (allChars_append _ "@" callee), (allChars_append _ "@" returnLabel).
    rewrite Hcallee_nl, Hret_nl, (At_line_ok n Hn). reflexivity. }
  destruct (block_in_text _ _ _ _ Hpre Hls Hasm) as (table & next & Hat & Htable).
  pose proof (Htable "R13" 13 (labelAddress_predefined _ _ "R13" 13 Hasm eq_refl))
    as H13.
  pose proof (Htable "R14" 14 (labelAddress_predefined _ _ "R14" 14 Hasm eq_refl))
    as H14.
  assert (Hcall : lookup "CALL" table = Some (if b then 56 else 52)).
  { apply Htable, Hlab. destruct b; reflexivity. }
  apply Htable in Hentry, Hret. clear Htable Hlab Hls.
  cbn [blockLines List.map] in Hat.
  rewrite parseLine_Label, (parseLine_At n Hn) in Hat.
  rewrite (parseLine_AtSym callee) in Hat
    by (apply uint_of_string_nondigit; reflexivity).
  rewrite (parseLine_AtSym returnLabel) in Hat
    by (apply uint_of_string_nondigit; reflexivity).
  change (parseLine "D=A") with
    (CLine {| toA := false; toD := true; toM := false |} c_A j_none) in Hat.
  change (parseLine "M=D") with
    (CLine {| toA := false; toD := false; toM := true |} c_D j_none) in Hat.
  change (parseLine "0;JMP") with
    (CLine {| toA := false; toD := false; toM := false |} c_0 JMP) in Hat.
  change (parseLine "@R13") with (AtSym "R13") in Hat.
  change (parseLine "@R14") with (AtSym "R14") in Hat.
  change (parseLine "@CALL") with (AtSym "CALL") in Hat.
  cbn [resolve] in Hat. rewrite Hentry, H13, H14, Hret, Hcall in Hat.
  pose proof (icount_nonneg (map parseLine (sourceLines pre))) as Hlen.
  fold (codeLength pre) in Hlen.
  subst rom. rewrite <- Hpc in *.
  destruct (call_run b tail entry n (PC s + 12) s Hat)
    as (s1 & Hrun & Hpc1 & Hframe & Hsp1); try lia.
  rewrite wrap_small in Hframe by lia.
  exists 60%nat, s1. auto.
Qed.

Lemma call_builds_frame_in_any_program_witness :
  exists k s1,
    run (callRom 2) k (demoStateAt 157) = Some s1
    /\ PC s1 = 171
    /\ frame (demoStateAt 157) 2 169 s1
    /\ load (RAM s1) 0 = 305.
Proof.
  apply (call_builds_frame_in_any_program
           g0 (callUnit 2) (beforeCall ++ blockText (callSite 2) ++ afterCall)
           beforeCall (blockText (callSite 2)) afterCall (callRom 2)
           g0 (VM.set_funcStack g0 {| VM.current := "Sys.init";
                                      VM.returnCounter := 1 |})
           "Main.f" "2" 2 171 (demoStateAt 157)).
  - vm_compute. reflexivity.
  - vm_compute. reflexivity.
  - reflexivity.
  - vm_compute. reflexivity.
  - reflexivity.
  - vm_compute. reflexivity.
  - vm_compute. reflexivity.
  - vm_compute. reflexivity.
  - vm_compute. reflexivity.
  - lia.
  - vm_compute. reflexivity.
  - vm_compute. reflexivity.
  - vm_compute. reflexivity.
  - lia.
  - vm_compute. discriminate.
  - vm_compute. reflexivity.
Defined.

(** X26: in every program written for a folder, the block emitted for
    [return], entered in a state that holds the frame of a call with [n]
    arguments, reaches the return address of that call with the stack
    pointer at (stack pointer before the call) - n + 1, with [LCL], [ARG],
    [THIS] and [THAT] as before the call, and with the word that was on top
    of the callee's stack in the place of the first argument. *)
Theorem return_restores_caller_in_any_program
    (g : VM.globals) (files : list (string * list string))
    (text pre post : string) (rom : list instr) (n ret : Z) (s s2 : cpu) :
  program g files = Some text ->
  assemble text = Some rom ->
  text = pre ++ VM.returnFromFunction ++ post ->
  endsWithNewline pre = true ->
  PC s2 = codeLength pre ->
  frame s n ret s2 ->
  0 <= n ->
  16 <= load (RAM s) 0 - n ->
  load (RAM s) 0 + 5 < 65536 ->
  exists k s3,
    run rom k s2 = Some s3
    /\ returned s n ret (load (RAM s2) (load (RAM s2) 0 - 1)) s3.
Proof.
  intros Hprog Hasm Htext Hpre Hpc Hframe Hn Hlo Hhi.
  destruct (program_layout _ _ _ _ Hprog Hasm) as [[tail Hrom] Hlab].
  set (b := VM.shouldSetStackPointer g) in *. clearbody b.
  subst text.
  change VM.returnFromFunction with (blockText ["@RETURN"; "0;JMP"]) in *.
  destruct (block_in_text pre ["@RETURN"; "0;JMP"] post rom Hpre eq_refl Hasm)
    as (table & next & Hat & Htable).
  assert (Hreturn : lookup "RETURN" table = Some (if b then 6 else 2)).
  { apply Htable, Hlab. destruct b; reflexivity. }
  clear Htable Hlab.
  cbn [blockLines List.map] in Hat.
  change (parseLine "@RETURN") with (AtSym "RETURN") in Hat.
  change (parseLine "0;JMP") with
    (CLine {| toA := false; toD := false; toM := false |} c_0 JMP) in Hat.
  cbn [resolve] in Hat. rewrite Hreturn in Hat.
  subst rom. rewrite <- Hpc in Hat.
  destruct (return_run b tail n ret s s2 Hat Hframe Hn Hlo Hhi)
    as (s3 & Hrun & Hreturned).
  exists 52%nat, s3. auto.
Qed.

Lemma return_restores_caller_in_any_program_witness :
  exists k s3,
    run (callRom 2) k demoCallee = Some s3
    /\ returned (demoStateAt 157) 2 169 4000 s3.
Proof.
  apply (return_restores_caller_in_any_program
           g0 (callUnit 2) (beforeCall ++ blockText (callSite 2) ++ afterCall)
           beforeReturn EmptyString (callRom 2) 2 169
           (demoStateAt 157) demoCallee).
  - vm_compute. reflexivity.
  - vm_compute. reflexivity.
  - vm_compute. reflexivity.
  - vm_compute. reflexivity.
  - vm_compute. reflexivity.
  - unfold frame. repeat split; vm_compute; try reflexivity; discriminate.
  - lia.
  - vm_compute. discriminate.
  - vm_compute. reflexivity.
Defined.

End CallReturnAnywhere.

(** ** The bootstrap *)

Section Bootstrap.

Lemma lookup_app_some {T : Type} name (t X : list (string * T)) v :
  lookup name X = Some v -> exists w, lookup name (t ++ X) = Some w.
Proof.
  intros H. destruct (lookup name t) as [w|] eqn:E.
  - exists w. now apply lookup_app_l.
  - exists v. now rewrite lookup_app_r.
Qed.

(** A label that a text defines is bound by the first pass. *)
Lemma collectLabels_binds name l : forall a t t',
  collectLabels l a t = Some t' ->
  In (Label name) l \/ (exists v, lookup name t = Some v) ->
  exists v, lookup name t' = Some v.
Proof.
  induction l as [|x l IH]; intros a t t' H Hin.
  - injection H as <-. destruct Hin as [[]|H]; exact H.
  - destruct x; cbn [collectLabels] in H; try discriminate H.
    + apply (IH _ _ _ H). destruct Hin as [[E|Hin]|Hb]; auto. discriminate E.
    + apply (IH _ _ _ H). destruct Hin as [[E|Hin]|[v Hb]].
      * injection E as ->. right.
        apply (lookup_app_some name t [(name, a)] a).
        cbn [lookup]. now rewrite String.eqb_refl.
      * now left.
      * right. exists v. now apply lookup_app_l.
    + apply (IH _ _ _ H). destruct Hin as [[E|Hin]|Hb]; auto. discriminate E.
    + apply (IH _ _ _ H). destruct Hin as [[E|Hin]|Hb]; auto. discriminate E.
    + apply (IH _ _ _ H). destruct Hin as [[E|Hin]|Hb]; auto. discriminate E.
Qed.

Lemma labelAddress_defined pre ls post rom name :
  endsWithNewline pre = true ->
  forallb (allChars notNewline) ls = true ->
  assemble (pre ++ blockText ls ++ post) = Some rom ->
  In (Label name) (map parseLine (blockLines ls)) ->
  exists v, labelAddress (pre ++ blockText ls ++ post) name = Some v.
Proof.
  intros Hpre Hls Hasm Hin. unfold labelAddress.
  unfold assemble, assembleLines in Hasm.
  rewrite sourceLines_around in * by assumption.
  destruct (collectLabels _ 0 predefined) as [T|] eqn:E; [|discriminate Hasm].
  apply (collectLabels_binds name _ _ _ _ E). left.
  rewrite !map_app, !in_app_iff. auto.
Qed.

Lemma ok_pair_eq {S T : Type} (a c : S) (b d : T) :
  Ok (a, b) = Ok (c, d) -> a = c /\ b = d.
Proof. intros H. injection H as -> ->. auto. Qed.

(** With the option [bootstrap] the program calls [Sys.init] right after
    the label [START]. *)
Lemma program_boot_head g files text :
  VM.shouldBootstrap g = true ->
  program g files = Some text ->
  exists g1 block rest,
    VM.callFunction g "Sys.init" "0" = Ok (g1, block)
    /\ text = startAndRoutines (VM.shouldSetStackPointer g) ++ block ++ rest.
Proof.
  intros Hboot.
  unfold program, VM.loadFolder. destruct files as [|f files]; [discriminate|].
  set (fs := f :: files). clearbody fs. rewrite Hboot.
  destruct (VM.callFunction g "Sys.init" "0") as [[g1 block]| |] eqn:E0;
    cbn [bind]; try discriminate.
  cbn [fst snd].
  destruct (VM.parseFiles g1 fs) as [[g2 i2]| |] eqn:E1; cbn [bind];
    try discriminate.
  cbn [fst snd].
  pose proof (callFunction_state _ _ _ _ _ E0) as Hstate.
  assert (Ho1 : VM.shouldSetStackPointer g1 = VM.shouldSetStackPointer g).
  { unfold VM.callFunction in E0. change (Go.Atoi "0") with (Some 0) in E0.
    cbv iota in E0.
    match type of E0 with
    | Ok (?x, _) = _ => assert (g1 = x) by congruence
    end.
    subst g1. reflexivity. }
  apply parseFiles_options in E1. destruct E1 as (_ & _ & Hsp & _).
  rewrite startAndRoutines_eq.
  rewrite prependStartInstructions_app, prependFunctions_app.
  rewrite (prependStartInstructions_options g g2) by congruence.
  set (S := VM.prependStartInstructions g []).
  set (F := VM.prependFunctions []).
  set (start := "(START)" ++ Go.nl).
  set (loop := Go.Join _ Go.nl ++ Go.nl).
  intros H. apply some_eq in H. subst text.
  exists g1, block.
  destruct (VM.shouldEndWithLoop g2);
    cbn [List.app]; rewrite ?written_app, ?written_cons, ?written_app;
    eexists; split; try reflexivity; rewrite !append_assoc; reflexivity.
Qed.

(** X27: with the option [bootstrap], every program written for a folder
    begins by calling [Sys.init] with no arguments.  From address 0 the
    machine reaches the entry of [<program>.Sys.init] with the stack
    pointer and [LCL] five above the stack pointer [sp] it started with
    (256 with the option [setStackPointer]), [ARG] at [sp], and the four
    pointers it started with saved above the return address. *)
Theorem bootstrap_enters_Sys_init
    (setStackPointer endWithLoop : bool) (path : string)
    (files : list (string * list string)) (text : string) (rom : list instr)
    (entry : Z) (s : cpu) :
  let g := VM.initial true setStackPointer endWithLoop path in
  let sp := if setStackPointer then 256 else load (RAM s) 0 in
  program g files = Some text ->
  assemble text = Some rom ->
  allChars notNewline (Go.Base path) = true ->
  labelAddress text (Go.Base path ++ ".Sys.init") = Some entry ->
  0 <= entry < 32768 ->
  PC s = 0 ->
  16 <= sp ->
  sp + 5 < 65536 ->
  exists k s1,
    run rom k s = Some s1
    /\ PC s1 = entry
    /\ load (RAM s1) 0 = sp + 5
    /\ load (RAM s1) 1 = sp + 5
    /\ load (RAM s1) 2 = sp
    /\ load (RAM s1) (sp + 1) = load (RAM s) 1
    /\ load (RAM s1) (sp + 2) = load (RAM s) 2
    /\ load (RAM s1) (sp + 3) = load (RAM s) 3
    /\ load (RAM s1) (sp + 4) = load (RAM s) 4.
Proof.
  intros g sp Hprog Hasm Hnl Hentry Hentry_range Hpc Hlo Hhi.
  destruct (program_layout _ _ _ _ Hprog Hasm) as [[tail Hrom] Hlab].
  destruct (program_boot_head g files text eq_refl Hprog)
    as (g1 & block & rest & Hcall & Htext).
  change (VM.shouldSetStackPointer g) with setStackPointer in *.
  rewrite (callFunction_Ok g "Sys.init" "0" 0 eq_refl) in Hcall.
  apply ok_pair_eq in Hcall as [_ Hcall].
  set (callee := Go.Base path ++ ".Sys.init") in *.
  set (returnLabel := Go.Base path ++ "." ++ "Sys.init" ++ "$ret" ++ "0") in *.
  set (ls := ["@" ++ callee; "D=A"; "@R13"; "M=D"; "@0"; "D=A";
              "@R14"; "M=D"; "@" ++ returnLabel; "D=A"; "@CALL"; "0;JMP";
              "(" ++ returnLabel ++ ")"]) in *.
  assert (Hblock : block = blockText ls) by (rewrite <- Hcall; reflexivity).
  clear Hcall. subst block text.
  assert (Hls : forallb (allChars notNewline) ls = true).
  { unfold ls. cbn [forallb].
    rewrite (allChars_append _ "(" (returnLabel ++ ")")).
    rewrite (allChars_append _ returnLabel ")").
    rewrite (allChars_append _ "@" callee), (allChars_append _ "@" returnLabel).
    unfold callee, returnLabel. rewrite !allChars_append, Hnl. reflexivity. }
  destruct (startLines_eq setStackPointer) as (Hstart_nl & _).
  destruct (labelAddress_defined _ ls rest rom returnLabel Hstart_nl Hls Hasm)
    as [ret Hret].
  { unfold ls. cbn [blockLines List.map In]. rewrite parseLine_Label. auto 20. }
  destruct (block_in_text _ _ _ _ Hstart_nl Hls Hasm)
    as (table & next & Hat & Htable).
  pose proof (Htable "R13" 13 (labelAddress_predefined _ _ "R13" 13 Hasm eq_refl))
    as H13.
  pose proof (Htable "R14" 14 (labelAddress_predefined _ _ "R14" 14 Hasm eq_refl))
    as H14.
  assert (HCALL : lookup "CALL" table = Some (if setStackPointer then 56 else 52)).
  { apply Htable, Hlab. destruct setStackPointer; reflexivity. }
  apply Htable in Hentry, Hret. clear Htable Hlab.
  unfold ls in Hat. cbn [blockLines List.map] in Hat.
  rewrite parseLine_Label in Hat.
  rewrite (parseLine_AtSym callee) in Hat
    by (apply uint_of_string_nondigit; reflexivity).
  rewrite (parseLine_AtSym returnLabel) in Hat
    by (apply uint_of_string_nondigit; reflexivity).
  change (parseLine "@0") with (AtNum 0) in Hat.
  change (parseLine "D=A") with
    (CLine {| toA := false; toD := true; toM := false |} c_A j_none) in Hat.
  change (parseLine "M=D") with
    (CLine {| toA := false; toD := false; toM := true |} c_D j_none) in Hat.
  change (parseLine "0;JMP") with
    (CLine {| toA := false; toD := false; toM := false |} c_0 JMP) in Hat.
  change (parseLine "@R13") with (AtSym "R13") in Hat.
  change (parseLine "@R14") with (AtSym "R14") in Hat.
  change (parseLine "@CALL") with (AtSym "CALL") in Hat.
  cbn [resolve] in Hat. rewrite Hentry, H13, H14, Hret, HCALL in Hat.
  subst rom. clear Hasm Hprog Hls.
  destruct s as [a d pc m]. cbn [PC RAM] in *. subst pc.
  destruct setStackPointer; unfold startCode in *; subst sp.
  - change (codeLength (startAndRoutines true)) with 161 in Hat.
    destruct (call_run true tail entry 0 ret
                {| A := 161; D := 256; PC := 161; RAM := store m 0 256 |})
      as (s1 & Hrun & Hpc1 & Hframe & Hsp1).
    + exact Hat.
    + lia.
    + lia.
    + cbn [RAM]. rewrite load_store_same. vm_compute. discriminate.
    + cbn [RAM]. rewrite load_store_same. vm_compute. reflexivity.
    + exists (6 + 60)%nat, s1. split.
      * rewrite run_app.
        replace (run (startCode1 ++ tail) 6 {| A := a; D := d; PC := 0; RAM := m |})
          with (Some {| A := 161; D := 256; PC := 161; RAM := store m 0 256 |});
          [exact Hrun|].
        symmetry. seg_in startCode1 6%nat idtac. reflexivity.
      * unfold frame in Hframe. cbn [RAM] in Hframe, Hsp1.
        rewrite load_store_same in Hframe, Hsp1.
        change (wrap 256) with 256 in Hframe, Hsp1.
        destruct Hframe as (F1 & F2 & _ & F4 & F5 & F6 & F7 & _).
        rewrite !load_store_other in F4, F5, F6, F7 by lia.
        rewrite Z.sub_0_r in F2.
        repeat split; assumption.
  - change (codeLength (startAndRoutines false)) with 157 in Hat.
    destruct (call_run false tail entry 0 ret
                {| A := 157; D := d; PC := 157; RAM := m |})
      as (s1 & Hrun & Hpc1 & Hframe & Hsp1).
    + exact Hat.
    + lia.
    + lia.
    + cbn [RAM]. lia.
    + cbn [RAM]. lia.
    + exists (2 + 60)%nat, s1. split.
      * rewrite run_app.
        replace (run (startCode0 ++ tail) 2 {| A := a; D := d; PC := 0; RAM := m |})
          with (Some {| A := 157; D := d; PC := 157; RAM := m |});
          [exact Hrun|].
        symmetry. seg_in startCode0 2%nat idtac. reflexivity.
      * unfold frame in Hframe. cbn [RAM] in Hframe, Hsp1.
        destruct Hframe as (F1 & F2 & _ & F4 & F5 & F6 & F7 & _).
        rewrite Z.sub_0_r in F2.
        repeat split; assumption.
Qed.

Lemma bootstrap_enters_Sys_init_witness :
  exists k s1,
    run bootRom k demoState = Some s1
    /\ PC s1 = 173
    /\ load (RAM s1) 0 = 261
    /\ load (RAM s1) 1 = 261
    /\ load (RAM s1) 2 = 256.
Proof.
  destruct (bootstrap_enters_Sys_init true false "Prog" bootUnit bootText bootRom
              173 demoState)
    as (k & s1 & Hrun & Hpc & Hsp & Hlcl & Harg & _).
  - vm_compute. reflexivity.
  - vm_compute. reflexivity.
  - reflexivity.
  - vm_compute. reflexivity.
  - lia.
  - reflexivity.
  - vm_compute. discriminate.
  - vm_compute. reflexivity.
  - exists k, s1. split; [exact Hrun|]. split; [exact Hpc|].
    split; [exact Hsp|]. split; [exact Hlcl | exact Harg].
Defined.

End Bootstrap.

(** ** Static variables on the machine *)

Section StaticsOnTheMachine.

(** The variables of the second pass get addresses from the first free one
    on, one after the other: at most one for each instruction. *)
Lemma resolveState_vars l : forall t n t1 n1,
  resolveState l t n = (t1, n1) ->
  n <= n1 <= n + icount l
  /\ forall name v, lookup name t = None -> lookup name t1 = Some v ->
                    n <= v < n1.
Proof.
  induction l as [|x l IH]; intros t n t1 n1 H.
  - injection H as <- <-. cbn [icount]. split; [lia|].
    intros name v H1 H2. congruence.
  - pose proof (icount_nonneg l) as Hl.
    destruct x; cbn [resolveState icount] in *;
      try (apply IH in H; destruct H as [H1 H2]; split; [lia | exact H2]).
    destruct (lookup name t) as [w|] eqn:E;
      [apply IH in H; destruct H as [H1 H2]; split; [lia | exact H2]|].
    pose proof (resolveState_extends _ _ _ _ _ H) as [X ->].
    apply IH in H as [Hn Hv]. split; [lia|].
    intros name0 v H1 H2.
    destruct (String.eqb_spec name name0) as [<-|Hne].
    + assert (Hl' : lookup name ((t ++ [(name, n)]) ++ X) = Some n).
      { apply lookup_app_l. rewrite lookup_app_r by exact E.
        cbn [lookup]. now rewrite String.eqb_refl. }
      rewrite Hl' in H2. injection H2 as <-. lia.
    + assert (H1' : lookup name0 (t ++ [(name, n)]) = None).
      { rewrite lookup_app_r by exact H1. cbn [lookup].
        apply String.eqb_neq in Hne. now rewrite Hne. }
      specialize (Hv name0 v H1' H2). lia.
Qed.

Lemma codeAt_length rom p code :
  0 < Z.of_nat (List.length code) -> codeAt rom p code ->
  p + Z.of_nat (List.length code) <= Z.of_nat (List.length rom).
Proof.
  intros Hne [Hp H]. apply (f_equal (@List.length instr)) in H.
  rewrite length_firstn, length_skipn in H. lia.
Qed.

(** A block of lines in a text, with the tables of the two passes. *)
Lemma block_in_text_tables pre ls post rom :
  endsWithNewline pre = true ->
  forallb (allChars notNewline) ls = true ->
  assemble (pre ++ blockText ls ++ post) = Some rom ->
  exists labels table next,
    (forall name, labelAddress (pre ++ blockText ls ++ post) name
                  = lookup name labels)
    /\ (forall name v, lookup name labels = Some v -> lookup name table = Some v)
    /\ 16 <= next <= 16 + codeLength pre
    /\ (forall name v, lookup name labels = None ->
                       lookup name table = Some v -> 16 <= v < next)
    /\ codeAt rom (codeLength pre)
         (resolve (map parseLine (blockLines ls)) table next)
    /\ (forall name v,
          lookup name
            (fst (resolveState (map parseLine (blockLines ls)) table next))
          = Some v ->
          symbolAddress (pre ++ blockText ls ++ post) name = Some v).
Proof.
  intros Hpre Hls Hasm. unfold labelAddress, symbolAddress.
  unfold assemble in Hasm. rewrite sourceLines_around in * by assumption.
  rewrite codeLength_closed by exact Hpre.
  rewrite !map_app in *.
  set (P := map parseLine (removelast (sourceLines pre))) in *.
  set (B := map parseLine (blockLines ls)) in *.
  set (Q := map parseLine (sourceLines post)) in *.
  unfold assembleLines in Hasm.
  destruct (collectLabels (P ++ B ++ Q) 0 predefined) as [T|]; [|discriminate].
  apply some_eq in Hasm. subst rom.
  rewrite !resolve_app.
  destruct (resolveState P T 16) as [t1 n1] eqn:E. cbn [fst snd].
  exists T, t1, n1.
  pose proof (resolveState_extends _ _ _ _ _ E) as [X HX].
  destruct (resolveState_vars _ _ _ _ _ E) as [Hn Hv].
  split; [reflexivity|]. split; [|split; [|split; [|split]]].
  - intros name v H. subst t1. now apply lookup_app_l.
  - exact Hn.
  - exact Hv.
  - rewrite <- (length_resolve P T 16). apply codeAt_app.
  - intros name v H. rewrite !resolveState_app, E. cbn [fst snd].
    now apply lookup_resolveState.
Qed.

Lemma blockText_app ls1 ls2 :
  ls1 <> [] -> ls2 <> [] ->
  blockText ls1 ++ blockText ls2 = blockText (ls1 ++ ls2).
Proof.
  intros H1 H2. unfold blockText.
  induction ls1 as [|x ls1 IH]; [congruence|].
  destruct ls1 as [|y ls1].
  - cbn [List.app]. rewrite (Join_cons x ls2). cbn [Go.Join].
    destruct ls2; [congruence|]. now rewrite !append_assoc.
  - change ((x :: y :: ls1) ++ ls2)%list with (x :: ((y :: ls1) ++ ls2))%list.
    rewrite (Join_cons x (y :: ls1)), (Join_cons x ((y :: ls1) ++ ls2)).
    cbn [List.app]. rewrite !append_assoc. do 2 f_equal.
    rewrite <- !append_assoc. rewrite append_assoc. apply IH. discriminate.
Qed.

(** X28: a word popped to [static k] is the word [push static k] reads.  In
    a text that assembles to a program that fits the instruction memory,
    and where the symbol of the variable (the unit, a dot, [k]) is not a
    label, the assembler gives the variable an address [v] from 16 on; the
    blocks emitted for [pop static k] and [push static k], one after the
    other, store the topmost stack word at [v] and push it back: the stack
    is as before, and no memory word but the one at [v] changes. *)
Theorem static_pop_then_push_restores_the_stack
    (g : VM.globals) (k : Z) (pre post : string) (rom : list instr) (s : cpu) :
  let symbol := VM.currentFile g ++ "." ++ Go.Itoa k in
  let text := pre ++ (VM.handlePop g "static" k ++ VM.handlePush g "static" k)
              ++ post in
  allChars notNewline (VM.currentFile g) = true ->
  0 <= k ->
  endsWithNewline pre = true ->
  assemble text = Some rom ->
  Z.of_nat (List.length rom) <= 32768 ->
  labelAddress text symbol = None ->
  PC s = codeLength pre ->
  1 < load (RAM s) 0 ->
  let sp := load (RAM s) 0 in
  exists v s',
    symbolAddress text symbol = Some v
    /\ 16 <= v < 16 + Z.of_nat (List.length rom)
    /\ run rom 11 s = Some s'
    /\ PC s' = PC s + 11
    /\ load (RAM s') 0 = sp
    /\ load (RAM s') v = load (RAM s) (sp - 1)
    /\ forall a, a <> v -> load (RAM s') a = load (RAM s) a.
Proof.
  intros symbol text Hfile Hk Hpre Hasm Hfit Hvar Hpc Hsp sp. subst sp.
  assert (Hblocks : VM.handlePop g "static" k ++ VM.handlePush g "static" k
                    = blockText ["@SP"; "AM=M-1"; "D=M"; "@" ++ symbol; "M=D";
                                 "@" ++ symbol; "D=M"; "@SP"; "AM=M+1";
                                 "A=A-1"; "M=D"]).
  { change (VM.handlePop g "static" k)
      with (blockText ["@SP"; "AM=M-1"; "D=M"; "@" ++ symbol; "M=D"]).
    change (VM.handlePush g "static" k)
      with (blockText ["@" ++ symbol; "D=M"; "@SP"; "AM=M+1"; "A=A-1"; "M=D"]).
    rewrite blockText_app by discriminate. reflexivity. }
  subst text. rewrite Hblocks in *. clear Hblocks.
  assert (Hsym_nl : allChars notNewline symbol = true).
  { unfold symbol. rewrite !allChars_append, Hfile.
    rewrite Itoa_notNewline by exact Hk. reflexivity. }
  assert (Hls : forallb (allChars notNewline)
                  ["@SP"; "AM=M-1"; "D=M"; "@" ++ symbol; "M=D";
                   "@" ++ symbol; "D=M"; "@SP"; "AM=M+1"; "A=A-1"; "M=D"]
                = true).
  { cbn [forallb]. rewrite (allChars_append _ "@" symbol), Hsym_nl. reflexivity. }
  destruct (block_in_text_tables _ _ _ _ Hpre Hls Hasm)
    as (labels & table & next & Hlabels & Htable & Hnext & Hvars & Hat & Hsym).
  rewrite Hlabels in Hvar.
  assert (HSP : lookup "SP" table = Some 0).
  { apply Htable. rewrite <- Hlabels.
    apply (labelAddress_predefined _ _ "SP" 0 Hasm eq_refl). }
  clear Hlabels Htable Hasm Hls.
  cbn [blockLines List.map] in Hat, Hsym.
  rewrite (parseLine_AtSym symbol) in Hat, Hsym
    by (apply uint_of_string_nondigit; reflexivity).
  change (parseLine "@SP") with (AtSym "SP") in Hat, Hsym.
  change (parseLine "AM=M-1") with
    (CLine {| toA := true; toD := false; toM := true |} c_Mm1 j_none)
    in Hat, Hsym.
  change (parseLine "AM=M+1") with
    (CLine {| toA := true; toD := false; toM := true |} c_Mp1 j_none)
    in Hat, Hsym.
  change (parseLine "A=A-1") with
    (CLine {| toA := true; toD := false; toM := false |} c_Am1 j_none)
    in Hat, Hsym.
  change (parseLine "D=M") with
    (CLine {| toA := false; toD := true; toM := false |} c_M j_none)
    in Hat, Hsym.
  change (parseLine "M=D") with
    (CLine {| toA := false; toD := false; toM := true |} c_D j_none)
    in Hat, Hsym.
  assert (Hlen : codeLength pre + 11 <= Z.of_nat (List.length rom)).
  { match type of Hat with
    | codeAt _ _ (resolve ?B _ _) =>
      pose proof (length_resolve B table next) as HL
    end.
    cbn [icount] in HL.
    apply codeAt_length in Hat; lia. }
  assert (Hcode : exists v,
             symbolAddress
               (pre ++ blockText ["@SP"; "AM=M-1"; "D=M"; "@" ++ symbol; "M=D";
                                  "@" ++ symbol; "D=M"; "@SP"; "AM=M+1";
                                  "A=A-1"; "M=D"] ++ post) symbol = Some v
             /\ 16 <= v < 16 + Z.of_nat (List.length rom)
             /\ codeAt rom (codeLength pre)
                  [At 0;
                   Cmd {| toA := true; toD := false; toM := true |} c_Mm1 j_none;
                   Cmd {| toA := false; toD := true; toM := false |} c_M j_none;
                   At v;
                   Cmd {| toA := false; toD := false; toM := true |} c_D j_none;
                   At v;
                   Cmd {| toA := false; toD := true; toM := false |} c_M j_none;
                   At 0;
                   Cmd {| toA := true; toD := false; toM := true |} c_Mp1 j_none;
                   Cmd {| toA := true; toD := false; toM := false |} c_Am1 j_none;
                   Cmd {| toA := false; toD := false; toM := true |} c_D j_none]).
  { cbn [resolve resolveState] in Hat, Hsym. rewrite HSP in Hat, Hsym.
    destruct (lookup symbol table) as [v|] eqn:E.
    - exists v. split; [apply Hsym; exact E|].
      split; [|exact Hat]. pose proof (Hvars symbol v Hvar E). lia.
    - exists next.
      assert (Hs1 : lookup symbol (table ++ [(symbol, next)]) = Some next).
      { rewrite lookup_app_r by exact E. cbn [lookup].
        now rewrite String.eqb_refl. }
      rewrite Hs1 in Hat, Hsym.
      rewrite (lookup_app_l _ _ _ _ HSP) in Hat, Hsym.
      split; [apply Hsym; exact Hs1|]. split; [lia | exact Hat]. }
  destruct Hcode as (v & Haddr & Hv & Hcode). exists v.
  clear Hat Hvars Hsym.
  pose proof (load_range (RAM s) 0) as Hr.
  destruct s as [a d pc m]. cbn [PC RAM] in *. subst pc.
  eexists. split; [exact Haddr|]. split; [exact Hv|]. split.
  - match type of Hcode with
    | codeAt _ _ ?code =>
      rewrite (run_segment_at rom code 11 0
                 {| A := a; D := d; PC := codeLength pre; RAM := m |}
                 eq_refl Hcode eq_refl)
    end.
    exec_all. cbn [run]. reflexivity.
  - cbn [PC RAM]. split; [lia|]. split; [|split].
    + mem_cases; norm_wrap; try lia; reflexivity.
    + mem_cases; norm_wrap; try lia; try reflexivity.
    + intros x Hx. mem_cases; norm_wrap; try lia; try reflexivity.
      * f_equal. lia.
      * subst x. lia.
Qed.

Lemma static_pop_then_push_restores_the_stack_witness :
  symbolAddress staticText "Main.vm.3" = Some 16
  /\ exists s',
       run (blockCode staticText) 11 (demoStateAt 157) = Some s'
       /\ load (RAM s') 0 = 300
       /\ load (RAM s') 16 = 3.
Proof.
  destruct (static_pop_then_push_restores_the_stack
              (VM.set_currentFile g0 "Main.vm") 3 (startAndRoutines false)
              EmptyString (blockCode staticText) (demoStateAt 157))
    as (v & s' & Haddr & _ & Hrun & _ & Hsp & Hv & _).
  - reflexivity.
  - lia.
  - vm_compute. reflexivity.
  - vm_compute. reflexivity.
  - vm_compute. discriminate.
  - vm_compute. reflexivity.
  - vm_compute. reflexivity.
  - vm_compute. reflexivity.
  - assert (E : symbolAddress staticText "Main.vm.3" = Some v) by exact Haddr.
    assert (E16 : symbolAddress staticText "Main.vm.3" = Some 16)
      by (vm_compute; reflexivity).
    assert (Hv16 : v = 16) by congruence. subst v.
    split; [exact E16|]. exists s'.
    split; [exact Hrun|]. split; [exact Hsp | exact Hv].
Defined.

End StaticsOnTheMachine.

(** ** The end of a program *)

Section FinalLoop.

Lemma endsWithNewline_app a b :
  endsWithNewline b = true -> endsWithNewline (a ++ b) = true.
Proof.
  intros H. induction a as [|c a IH]; [exact H|].
  cbn [append]. destruct (a ++ b) as [|c' r]; [discriminate IH|].
  exact IH.
Qed.

Lemma endsWithNewline_nl a : endsWithNewline (a ++ Go.nl) = true.
Proof. now apply endsWithNewline_app. Qed.

(** Every block the translator emits ends a line. *)
Lemma parseCommand_newline g line g' out :
  VM.parseCommand g line = Ok (g', out) -> endsWithNewline out = true.
Proof.
  unfold VM.parseCommand.
  destruct (Go.index (Go.Fields line) 0) as [first| |]; cbn [bind];
    try discriminate.
  destruct (String.eqb first "function").
  { destruct (Go.index (Go.Fields line) 1) as [name| |]; cbn [bind];
      try discriminate.
    destruct (Go.index (Go.Fields line) 2) as [nVars| |]; cbn [bind];
      try discriminate.
    unfold VM.function. destruct (Go.Atoi nVars); [|discriminate].
    intros H. apply ok_pair_eq in H as [_ <-]. apply endsWithNewline_nl. }
  destruct (String.eqb first "call").
  { destruct (Go.index (Go.Fields line) 1) as [name| |]; cbn [bind];
      try discriminate.
    destruct (Go.index (Go.Fields line) 2) as [nArgs| |]; cbn [bind];
      try discriminate.
    unfold VM.callFunction. destruct (Go.Atoi nArgs); [|discriminate].
    intros H. apply ok_pair_eq in H as [_ <-]. apply endsWithNewline_nl. }
  destruct (String.eqb first "return").
  { intros H. apply ok_pair_eq in H as [_ <-]. reflexivity. }
  destruct (String.eqb first "goto").
  { destruct (Go.index (Go.Fields line) 1) as [l| |]; cbn [bind];
      try discriminate.
    intros H. apply ok_pair_eq in H as [_ <-]. apply endsWithNewline_nl. }
  destruct (String.eqb first "if-goto").
  { destruct (Go.index (Go.Fields line) 1) as [l| |]; cbn [bind];
      try discriminate.
    intros H. apply ok_pair_eq in H as [_ <-]. apply endsWithNewline_nl. }
  destruct (String.eqb first "label").
  { destruct (Go.index (Go.Fields line) 1) as [l| |]; cbn [bind];
      try discriminate.
    intros H. apply ok_pair_eq in H as [_ <-]. unfold VM.label.
    do 3 apply endsWithNewline_app. reflexivity. }
  destruct (List.length (Go.Fields line) =? 1)%nat.
  { destruct (VM.operation g first) as [[g1 o]| |] eqn:E; cbn [bind];
      try discriminate.
    intros H. apply ok_pair_eq in H as [_ <-]. apply endsWithNewline_nl. }
  destruct (Go.index (Go.Fields line) 2) as [third| |]; cbn [bind];
    try discriminate.
  destruct (Go.Atoi third); [|discriminate].
  destruct (Go.index (Go.Fields line) 1) as [second| |]; cbn [bind];
    try discriminate.
  destruct (String.eqb first "push");
    [intros H; apply ok_pair_eq in H as [_ <-]; apply endsWithNewline_nl|].
  destruct (String.eqb first "pop");
    [intros H; apply ok_pair_eq in H as [_ <-]; apply endsWithNewline_nl|].
  discriminate.
Qed.

Lemma Parse_newline : forall scanned g g' outs,
  VM.Parse g scanned = Ok (g', outs) ->
  Forall (fun out => endsWithNewline out = true) outs.
Proof.
  induction scanned as [|line rest IH]; intros g g' outs H.
  - apply ok_pair_eq in H as [_ <-]. constructor.
  - cbn [VM.Parse] in H.
    destruct (Go.HasPrefix (Go.TrimSpace line) "//"
              || Go.isEmpty (Go.TrimSpace line)); [now apply IH in H|].
    destruct (VM.parseCommand g _) as [[g1 o1]| |] eqn:E1; cbn [bind] in H;
      try discriminate H.
    cbn [fst snd] in H.
    destruct (VM.Parse g1 rest) as [[g2 o2]| |] eqn:E2; cbn [bind] in H;
      try discriminate H.
    apply ok_pair_eq in H as [_ <-]. cbn [snd]. constructor.
    + now apply parseCommand_newline in E1.
    + now apply IH in E2.
Qed.

Lemma parseFiles_newline : forall files g g' outs,
  VM.parseFiles g files = Ok (g', outs) ->
  Forall (fun out => endsWithNewline out = true) outs.
Proof.
  induction files as [|[file content] rest IH]; intros g g' outs H.
  - apply ok_pair_eq in H as [_ <-]. constructor.
  - cbn [VM.parseFiles] in H.
    destruct (VM.parseFile g file content) as [[g1 o1]| |] eqn:E1;
      cbn [bind] in H; try discriminate H.
    cbn [fst snd] in H.
    destruct (VM.parseFiles g1 rest) as [[g2 o2]| |] eqn:E2; cbn [bind] in H;
      try discriminate H.
    apply ok_pair_eq in H as [_ <-]. cbn [snd]. apply Forall_app. split.
    + unfold VM.parseFile in E1. destruct file as [|c r]; [discriminate E1|].
      destruct (negb (Go.HasPrefix _ _)); [discriminate E1|].
      destruct (negb _); [discriminate E1|]. now apply Parse_newline in E1.
    + now apply IH in E2.
Qed.

Lemma written_newline l x :
  Forall (fun out => endsWithNewline out = true) l ->
  endsWithNewline x = true ->
  endsWithNewline (x ++ VM.written l) = true.
Proof.
  intros H. revert x. induction H as [|y l Hy Hl IH]; intros x Hx.
  - change (VM.written []) with EmptyString. now rewrite append_nil_r.
  - rewrite written_cons. apply endsWithNewline_app. now apply IH.
Qed.

Lemma length_assemble text rom :
  assemble text = Some rom -> Z.of_nat (List.length rom) = codeLength text.
Proof.
  unfold assemble, assembleLines, codeLength.
  destruct (collectLabels _ 0 predefined) as [T|]; [|discriminate].
  intros H. apply some_eq in H. subst rom. apply length_resolve.
Qed.

(** With [endWithLoop], the text ends with the three lines of the loop, and
    what comes before them ends a line. *)
Lemma program_tail g files text :
  VM.shouldEndWithLoop g = true ->
  program g files = Some text ->
  exists body,
    text = body ++ blockText ["(INFINITE_LOOP)"; "@INFINITE_LOOP"; "0;JMP"]
           ++ EmptyString
    /\ endsWithNewline body = true.
Proof.
  intros Hloop.
  unfold program, VM.loadFolder. destruct files as [|f files]; [discriminate|].
  set (fs := f :: files). clearbody fs.
  destruct (if VM.shouldBootstrap g then _ else _) as [[g1 i1]| |] eqn:E0;
    cbn [bind]; try discriminate.
  cbn [fst snd].
  destruct (VM.parseFiles g1 fs) as [[g2 i2]| |] eqn:E1; cbn [bind];
    try discriminate.
  cbn [fst snd].
  assert (H1 : sameOptions g g1
               /\ exists boot,
                    i1 = ("(START)" ++ Go.nl) :: boot
                    /\ Forall (fun out => endsWithNewline out = true) boot).
  { destruct (VM.shouldBootstrap g).
    - unfold VM.callFunction in E0. cbn [bind] in E0.
      change (Go.Atoi "0") with (Some 0) in E0. cbn [bind fst snd] in E0.
      apply ok_pair_eq in E0 as [<- <-]. split; [repeat split|].
      eexists. split; [reflexivity|]. constructor; [|constructor].
      apply endsWithNewline_nl.
    - apply ok_pair_eq in E0 as [<- <-].
      split; [apply sameOptions_refl|]. exists []. split; [reflexivity|].
      constructor. }
  destruct H1 as [Ho1 (boot & -> & Hboot)].
  pose proof (parseFiles_newline _ _ _ _ E1) as Hi2.
  apply parseFiles_options in E1.
  destruct (sameOptions_trans _ _ _ Ho1 E1) as (_ & Hl & Hsp & _).
  rewrite Hl, Hloop.
  rewrite prependStartInstructions_app, prependFunctions_app.
  rewrite (prependStartInstructions_options g g2 Hsp).
  set (S := VM.prependStartInstructions g []).
  set (F := VM.prependFunctions []).
  set (start := "(START)" ++ Go.nl).
  set (loop := Go.Join _ Go.nl ++ Go.nl).
  intros H. apply some_eq in H. subst text.
  exists (startAndRoutines (VM.shouldSetStackPointer g)
          ++ VM.written (boot ++ i2)). split.
  - rewrite startAndRoutines_eq. fold S F start.
    repeat (rewrite written_app || rewrite written_cons).
    change (VM.written []) with EmptyString.
    rewrite !append_assoc. reflexivity.
  - apply written_newline; [now apply Forall_app|].
    apply (startLines_eq (VM.shouldSetStackPointer g)).
Qed.

(** X29: a program written with the option [endWithLoop] ends with a loop of
    two instructions.  When the label [INFINITE_LOOP] stands for the address
    of the last two instructions of the assembled program (no function of
    the translated units has that name), the machine that reaches that
    address is there again after every two steps, with the memory and [D]
    as they were. *)
Theorem program_stays_in_final_loop
    (g : VM.globals) (files : list (string * list string)) (text : string)
    (rom : list instr) (s : cpu) (n : nat) :
  let loop := Z.of_nat (List.length rom) - 2 in
  VM.shouldEndWithLoop g = true ->
  program g files = Some text ->
  assemble text = Some rom ->
  labelAddress text "INFINITE_LOOP" = Some loop ->
  loop < 32768 ->
  PC s = loop ->
  exists s',
    run rom (2 * n) s = Some s'
    /\ PC s' = loop
    /\ D s' = D s
    /\ forall a, load (RAM s') a = load (RAM s) a.
Proof.
  intros loop Hopt Hprog Hasm Hlabel Hsmall Hpc.
  destruct (program_tail _ _ _ Hopt Hprog) as (body & Htext & Hbody).
  pose proof (length_assemble _ _ Hasm) as Hlen.
  rewrite Htext in Hasm, Hlabel.
  destruct (block_in_text
              body ["(INFINITE_LOOP)"; "@INFINITE_LOOP"; "0;JMP"] EmptyString
              rom Hbody eq_refl Hasm)
    as (table & next & Hat & Htable).
  apply Htable in Hlabel. clear Htable.
  cbn [blockLines List.map] in Hat.
  change (parseLine "(INFINITE_LOOP)") with (Label "INFINITE_LOOP") in Hat.
  change (parseLine "@INFINITE_LOOP") with (AtSym "INFINITE_LOOP") in Hat.
  change (parseLine "0;JMP") with
    (CLine {| toA := false; toD := false; toM := false |} c_0 JMP) in Hat.
  cbn [resolve] in Hat. rewrite Hlabel in Hat.
  assert (Hcl : codeLength body = loop).
  { destruct Hat as [_ Hat].
    apply (f_equal (@List.length instr)) in Hat.
    rewrite length_firstn, length_skipn in Hat. cbn [List.length] in Hat.
    pose proof (icount_nonneg
                  (map parseLine (sourceLines body))) as Hnn.
    fold (codeLength body) in Hnn.
    assert (Hle : codeLength body + 2 <= Z.of_nat (List.length rom)) by lia.
    rewrite Htext in Hlen. unfold codeLength at 1 in Hlen.
    rewrite sourceLines_around in Hlen by (assumption || reflexivity).
    rewrite !map_app, !icount_app in Hlen.
    rewrite <- codeLength_closed in Hlen by exact Hbody.
    cbn [blockLines List.map] in Hlen.
    change (parseLine "(INFINITE_LOOP)") with (Label "INFINITE_LOOP") in Hlen.
    change (parseLine "@INFINITE_LOOP") with (AtSym "INFINITE_LOOP") in Hlen.
    change (parseLine "0;JMP") with
      (CLine {| toA := false; toD := false; toM := false |} c_0 JMP) in Hlen.
    change (sourceLines EmptyString) with [EmptyString] in Hlen.
    cbn [List.map icount] in Hlen.
    change (parseLine EmptyString) with Blank in Hlen. cbn [icount] in Hlen.
    unfold loop. lia. }
  rewrite Hcl in Hat.
  assert (Hnn : 0 <= loop) by (destruct Hat; assumption).
  revert s Hpc. induction n as [|n IH]; intros s Hpc.
  - exists s. repeat split; assumption.
  - replace (2 * Datatypes.S n)%nat with (2 + 2 * n)%nat by lia.
    rewrite run_app.
    destruct s as [a d pc m]. cbn [PC RAM D] in *. subst pc.
    match type of Hat with
    | codeAt _ _ ?code =>
      rewrite (run_segment_at rom code 2 0
                 {| A := a; D := d; PC := loop; RAM := m |}
                 eq_refl Hat eq_refl)
    end.
    rewrite !exec_cons, exec_nil.
    cbn [step alu taken toA toD toM A D PC RAM run].
    rewrite (wrap_small loop) by lia.
    destruct (IH {| A := loop; D := d; PC := loop; RAM := m |} eq_refl)
      as (s' & Hrun & Hpc' & Hd & Hm).
    exists s'. repeat split; assumption.
Qed.

Lemma program_stays_in_final_loop_witness :
  exists s',
    run loopRom 6 (demoStateAt 163) = Some s'
    /\ PC s' = 163.
Proof.
  destruct (program_stays_in_final_loop
              (VM.initial false false true "Prog") loopUnit
              loopText loopRom (demoStateAt 163) 3)
    as (s' & Hrun & Hpc & _).
  - reflexivity.
  - vm_compute. reflexivity.
  - vm_compute. reflexivity.
  - vm_compute. reflexivity.
  - vm_compute. reflexivity.
  - vm_compute. reflexivity.
  - exists s'. split; [exact Hrun | exact Hpc].
Defined.

End FinalLoop.

(** ** The earliest revision on the machine *)

Section EarliestRevision.

(** The text of a push command of the earliest revision on [local],
    [argument] or [temp]. *)
Lemma earliest_push_text arg1 c seg name k :
  In (seg, name) [("local", "LCL"); ("argument", "ARG"); ("temp", "R5")] ->
  0 <= k <= Go.MaxInt ->
  VM0.parseCommand arg1 c [Go.Itoa k; seg; "push"]
  = Ok (c,
        if k =? 0
        then blockText ["@" ++ name; "D=A"; "@R13"; "M=D";
                        "@R13"; "A=M"; "D=M"; "@SP"; "A=M"; "M=D";
                        "@SP"; "M=M+1"]
        else blockText ["@" ++ Go.Itoa k; "D=A"; "@" ++ name; "D=D+A";
                        "@R13"; "M=D";
                        "@R13"; "A=M"; "D=M"; "@SP"; "A=M"; "M=D";
                        "@SP"; "M=M+1"]).
Proof.
  intros Hseg Hk. unfold VM0.parseCommand.
  cbn [Go.index nth_error bind]. rewrite (Atoi_Itoa k Hk). cbn [bind].
  cbn [In] in Hseg.
  destruct Hseg as [E|[E|[E|[]]]]; injection E as <- <-;
    unfold VM0.location; cbn [String.eqb Ascii.eqb Bool.eqb bind];
    unfold VM0.local, VM0.argument, VM0.temp, VM0.stack;
    cbn [String.eqb Ascii.eqb Bool.eqb bind];
    destruct (k =? 0); unfold VM0.baseLocation, VM0.offsetLocation, blockText;
    cbn [Go.Join]; rewrite !append_assoc; reflexivity.
Qed.

(** X30: in the earliest revision the block emitted for [push local k],
    [push argument k] or [push temp k] first stores the address [reg + k] in
    [R13], where [reg] is the address of [LCL], [ARG] or [R5] itself (1, 2
    or 5), and then pushes the word at that address: the content of [LCL]
    or [ARG] is not read.  When [reg + k] is 13 the word pushed is therefore
    13, the address just stored.  The stack pointer grows by one, and apart
    from it, the pushed word and [R13] no memory word changes. *)
Theorem earliest_push_reads_beside_the_register
    (arg1 : string) (c c' : VM0.counters) (seg text : string) (reg k : Z)
    (rom code : list instr) (s : cpu) :
  In (seg, reg) [("local", 1); ("argument", 2); ("temp", 5)] ->
  0 <= k < 32768 ->
  VM0.parseCommand arg1 c [Go.Itoa k; seg; "push"] = Ok (c', text) ->
  assemble text = Some code ->
  codeAt rom (PC s) code ->
  0 < load (RAM s) 0 < 65535 ->
  let sp := load (RAM s) 0 in
  exists s',
    run rom (List.length code) s = Some s'
    /\ PC s' = PC s + Z.of_nat (List.length code)
    /\ load (RAM s') 0 = sp + 1
    /\ load (RAM s') sp
       = (if reg + k =? 13 then 13 else load (RAM s) (reg + k))
    /\ (sp <> 13 -> load (RAM s') 13 = reg + k)
    /\ forall a, a <> 0 -> a <> 13 -> a <> sp -> load (RAM s') a = load (RAM s) a.
Proof.
  intros Hseg Hk Hcmd Hasm Hat Hsp sp. subst sp.
  assert (Hk0 : 0 <= k) by lia.
  assert (Hcode : forallb falls code = true /\
     forall a d pc m, 0 < load m 0 < 65535 ->
       let s' := exec code {| A := a; D := d; PC := pc; RAM := m |} in
       load (RAM s') 0 = load m 0 + 1
    /\ load (RAM s') (load m 0)
       = (if reg + k =? 13 then 13 else load m (reg + k))
    /\ (load m 0 <> 13 -> load (RAM s') 13 = reg + k)
    /\ forall a, a <> 0 -> a <> 13 -> a <> load m 0 ->
                 load (RAM s') a = load m a).
  { clear Hat Hsp s rom. cbn [In] in Hseg.
    destruct (Z.eqb_spec k 0) as [Hz|Hz].
    - subst k.
      destruct Hseg as [E|[E|[E|[]]]]; injection E as <- <-.
      1: rewrite (earliest_push_text arg1 c "local" "LCL" 0) in Hcmd
           by (cbn [In]; unfold Go.MaxInt; auto; lia).
      2: rewrite (earliest_push_text arg1 c "argument" "ARG" 0) in Hcmd
           by (cbn [In]; unfold Go.MaxInt; auto; lia).
      3: rewrite (earliest_push_text arg1 c "temp" "R5" 0) in Hcmd
           by (cbn [In]; unfold Go.MaxInt; auto; lia).
      all: cbn [Z.eqb] in Hcmd; apply ok_pair_eq in Hcmd as [_ <-].
      all: unfold blockText in Hasm; assemble_one Hasm.
      all: (split; [reflexivity|]).
      all: intros a d pc m Hsp s'; subst s'.
      all: exec_all.
      all: split; [|split; [|split]];
        [ norm_load; norm_wrap; reflexivity
        | match goal with
          | |- context [?e =? 13] => destruct (Z.eqb_spec e 13) as [H13|H13]
          end; [try lia | ]; norm_load; norm_wrap; first [reflexivity | lia]
        | intros H13; norm_load; norm_wrap; reflexivity
        | intros x H0 Hx13 Hx; norm_load; reflexivity ].
    - apply Z.eqb_neq in Hz.
      destruct Hseg as [E|[E|[E|[]]]]; injection E as <- <-.
      1: rewrite (earliest_push_text arg1 c "local" "LCL" k) in Hcmd
           by (cbn [In]; unfold Go.MaxInt; auto; lia).
      2: rewrite (earliest_push_text arg1 c "argument" "ARG" k) in Hcmd
           by (cbn [In]; unfold Go.MaxInt; auto; lia).
      3: rewrite (earliest_push_text arg1 c "temp" "R5" k) in Hcmd
           by (cbn [In]; unfold Go.MaxInt; auto; lia).
      all: rewrite Hz in Hcmd; apply ok_pair_eq in Hcmd as [_ <-].
      all: unfold blockText in Hasm; assemble_one Hasm.
      all: (split; [reflexivity|]).
      all: intros a d pc m Hsp s'; subst s'.
      all: exec_all.
      all: rewrite ?(Z.add_comm k).
      all: split; [|split; [|split]];
        [ norm_load; norm_wrap; reflexivity
        | match goal with
          | |- context [?e =? 13] => destruct (Z.eqb_spec e 13) as [H13|H13]
          end; [try lia | ]; norm_load; norm_wrap; first [reflexivity | lia]
        | intros H13; norm_load; norm_wrap; reflexivity
        | intros x H0 Hx13 Hx; norm_load; reflexivity ]. }
  destruct Hcode as [Hfalls Hexec].
  apply straight_line; [exact Hat | exact Hfalls |].
  destruct s as [a d pc m]. apply (Hexec a d pc m Hsp).
Qed.

Lemma earliest_push_reads_beside_the_register_witness :
  exists s',
    run (blockCode earliestPush) 14 demoState = Some s'
    /\ load (RAM s') 0 = 301
    /\ load (RAM s') 300 = 3000.
Proof.
  destruct (earliest_push_reads_beside_the_register
              "Prog.vm" (VM0.mkCounters 0 0 0) (VM0.mkCounters 0 0 0)
              "local" earliestPush 1 2
              (blockCode earliestPush) (blockCode earliestPush) demoState)
    as (s' & Hrun & _ & Hsp & Htop & _).
  - simpl. left. reflexivity.
  - lia.
  - vm_compute. reflexivity.
  - vm_compute. reflexivity.
  - split; [simpl; lia | reflexivity].
  - vm_compute. split; reflexivity.
  - exists s'. split; [exact Hrun|]. split; [exact Hsp | exact Htop].
Defined.

End EarliestRevision.
